(** * ItemRank-Bot: the in-memory store and the access policy

    A shallow embedding of [data_store.py] (class [DataStore]) and of the
    parts of [bot_handlers_new.py] / [bot_handlers_spanish.py] that decide
    who may run a command and what text is finally sent, together with the
    properties of the specification that concern them.

    Python values are modelled as follows.
    - [str] is a sequence of Unicode code points: [pystr := list N], each
      code point a number below 1114112.
    - A value that is a string or [None] where it is first read (the text of
      a message, a key of [user_data]) is an [option pystr].  The store
      takes what it is given as a key or a comment, [None] too; there
      [None] is the one-element sequence [PyNone], whose element is no code
      point, so that it is different from every string.
    - [int] is unbounded: [Z].
    - [float] is IEEE 754 binary64, given by the standard library's
      [spec_float]: a sign, a mantissa and an exponent.  The quotient [a / b]
      of two [int]s is the float nearest to the exact quotient, ties going
      to the even mantissa, and an [OverflowError] when that is beyond the
      largest float.
    - [dict] / [defaultdict] is a finite map ([gmap]); the insertion order of
      the keys, which no property below depends on, is abstracted.
    - A [defaultdict] creates the entry it is asked for when the key is
      missing ([__missing__]); every expression [self.data[user_id]...] is
      modelled with that effect, so reading the store may change it.
    - A method is a computation [St A]: it receives the store, may change it
      in place, and either returns a value or raises.
    - A handler is a computation on the store and on the replies sent. *)

From Stdlib Require Import ZArith QArith Qabs Qpower Ascii String.
From Stdlib Require Import Floats.SpecFloat.
From stdpp Require Import gmap list strings pretty.

Local Open Scope Z_scope.

(** ** Python strings *)

Definition pystr : Type := list N.

(** The Python string written with the ASCII characters of [s]. *)
Definition py (s : string) : pystr := N_of_ascii <$> list_ascii_of_string s.

(** [str(n)] for an [int]. *)
Definition str_of_int (n : Z) : pystr := py (pretty n).

(** [None] where the store holds a name or a comment: a sequence that is no
    string, 1114112 being above every code point. *)
Definition PyNone : pystr := [1114112%N].

(** A value that is a string or [None], as the store holds it, and back. *)
Definition in_store (o : option pystr) : pystr := default PyNone o.

Definition of_store (t : pystr) : option pystr :=
  if decide (t = PyNone) then None else Some t.

(** [f"{x}"] for a value that is a string or [None]. *)
Definition fmt (o : option pystr) : pystr := default (py "None") o.

(** ** The store *)

(** A rating record: the tuple [(rating, comment)]. *)
Definition Rating : Type := Z * pystr.

Abbreviation Items := (gmap pystr (list Rating)).
Abbreviation Lists := (gmap pystr Items).
(** [self.data]: user id -> list name -> item name -> ratings. *)
Abbreviation Store := (gmap pystr Lists).

(** [DataStore.__init__]: [self.data = defaultdict(...)], no key yet. *)
Definition init : Store := ∅.

(** What the three levels of [defaultdict] answer for a key, present or not. *)
Definition ns (s : Store) (u : pystr) : Lists := default ∅ (s !! u).
Definition items_at (ls : Lists) (l : pystr) : Items := default ∅ (ls !! l).
Definition ratings_at (its : Items) (i : pystr) : list Rating := default [] (its !! i).

(** ** What a call produces *)

Inductive exn : Type :=
| KeyError | IndexError | AttributeError | ZeroDivisionError | OverflowError.

Inductive res (A : Type) : Type :=
| Ret (a : A)
| Raise (e : exn).
Arguments Ret {A} a.
Arguments Raise {A} e.

(** ** Python numbers *)

(** What [get_average_rating] returns: the [int] of [return 0], or the
    [float] of a division. *)
Inductive number : Type :=
| PyInt (z : Z)
| PyFloat (f : spec_float).

(** The integer nearest to [a / b] for [0 < b], the even one of the two when
    [a / b] is half way between them. *)
Definition round_half_even (a b : Z) : Z :=
  let q := a / b in
  match 2 * (a mod b) ?= b with
  | Lt => q
  | Gt => q + 1
  | Eq => if Z.even q then q else q + 1
  end.

(** [x * 2^k] for [0 <= k], and [x] otherwise. *)
Definition shift (x k : Z) : Z := x * 2 ^ Z.max 0 k.

(** For [0 < a] and [0 < n], the exponent [E] of the power of two with
    [2^E <= a / n < 2^(E+1)].  The quotient [a / n * 2^(-k)] is
    [shift a (-k) / shift n k] for every [k]. *)
Definition ilog2_quot (a n : Z) : Z :=
  let L := Z.log2 a - Z.log2 n in
  if shift n L <=? shift a (- L) then L else L - 1.

(** For [0 < a] and [0 < n], the mantissa [m] and the exponent [e] of the
    binary64 nearest to [a / n], which is [m * 2^e]: 53 bits are kept, or
    fewer when the exponent would be below -1074 (a subnormal number); a
    mantissa rounded up to [2^53] is written with the next exponent. *)
Definition double_mantissa (a n : Z) : Z * Z :=
  let e := Z.max (ilog2_quot a n - 52) (-1074) in
  let m := round_half_even (shift a (- e)) (shift n e) in
  if m =? 2 ^ 53 then (2 ^ 52, e + 1) else (m, e).

(** [a / n] for two [int]s: the binary64 nearest to the quotient, with the
    sign of the quotient (also when the result is zero);
    [ZeroDivisionError] for [n = 0], [OverflowError] when the result is
    beyond the largest float, [(2^53 - 1) * 2^971]. *)
Definition true_divide (a n : Z) : res spec_float :=
  if n =? 0 then Raise ZeroDivisionError
  else
    let negative := xorb (a <? 0) (n <? 0) in
    if a =? 0 then Ret (S754_zero negative)
    else
      let '(m, e) := double_mantissa (Z.abs a) (Z.abs n) in
      match m with
      | Zpos p =>
        if e <=? 971 then Ret (S754_finite negative p e) else Raise OverflowError
      | _ => Ret (S754_zero negative)
      end.

(** A float that is a number of binary64: a zero, or a mantissa and an
    exponent within the bounds of the format. *)
Definition binary64 (f : spec_float) : Prop :=
  match f with
  | S754_zero _ => True
  | S754_finite _ _ _ => valid_binary 53 1024 f = true
  | _ => False
  end.

(** The rational number a float stands for. *)
Definition float_value (f : spec_float) : Q :=
  match f with
  | S754_finite s m e => inject_Z (cond_Zopp s (Zpos m)) * 2 ^ e
  | _ => 0
  end.

(** The same number counted in units of [2^(-1074)], the smallest positive
    binary64; every number of binary64 is a whole number of them. *)
Definition units (f : spec_float) : Z :=
  match f with
  | S754_finite s m e => cond_Zopp s (Zpos m) * 2 ^ (e + 1074)
  | _ => 0
  end.

Definition number_value (x : number) : Q :=
  match x with
  | PyInt z => inject_Z z
  | PyFloat f => float_value f
  end.


(** ** Computations on the store *)

(** A computation over a state [S]: the state it leaves and either the value
    it returns or the exception it raises (the changes made before the
    exception stay). *)
Definition M (S A : Type) : Type := S → res A * S.

Definition ret {S A} (a : A) : M S A := λ s, (Ret a, s).

Definition raise {S A} (e : exn) : M S A := λ s, (Raise e, s).

Definition bind {S A B} (m : M S A) (k : A → M S B) : M S B :=
  λ s, match m s with
       | (Ret a, s') => k a s'
       | (Raise e, s') => (Raise e, s')
       end.

(** A method of [DataStore]: the state is [self.data]. *)
Definition St (A : Type) : Type := M Store A.

Notation "x <- m ;; k" := (bind m (λ x, k))
  (at level 100, m at next level, right associativity).
Notation "m ;;; k" := (bind m (λ _, k))
  (at level 100, right associativity).

(** The store a computation leaves, and what it returns. *)
Definition exec {S A} (m : M S A) (s : S) : S := (m s).2.
Definition result {S A} (m : M S A) (s : S) : res A := (m s).1.

(** *** Python expressions on [self.data]

    Each definition is one expression or statement of the source; the
    namespace objects are reached through [self.data], so a change made to
    one of them is a change of the store at that path. *)

(** [self.data[u]] *)
Definition data_user (u : pystr) : St Lists :=
  λ s, (Ret (ns s u), <[u := ns s u]> s).

(** [l in self.data[u]] *)
Definition in_user (u l : pystr) : St bool :=
  ls <- data_user u ;; ret (bool_decide (is_Some (ls !! l))).

(** [list(self.data[u].keys())] *)
Definition user_keys (u : pystr) : St (list pystr) :=
  ls <- data_user u ;; ret ((map_to_list ls).*1).

(** [self.data[u][l] = v] *)
Definition user_setitem (u l : pystr) (v : Items) : St unit :=
  λ s, (Ret tt, <[u := <[l := v]> (ns s u)]> s).

(** [del self.data[u][l]]; a missing key is a [KeyError]. *)
Definition user_delitem (u l : pystr) : St unit :=
  λ s, match ns s u !! l with
       | Some _ => (Ret tt, <[u := delete l (ns s u)]> s)
       | None => (Raise KeyError, <[u := ns s u]> s)
       end.

(** [self.data[u][l]] *)
Definition data_list (u l : pystr) : St Items :=
  λ s, let its := items_at (ns s u) l in
       (Ret its, <[u := <[l := its]> (ns s u)]> s).

(** [i in self.data[u][l]] *)
Definition in_list (u l i : pystr) : St bool :=
  its <- data_list u l ;; ret (bool_decide (is_Some (its !! i))).

(** [self.data[u][l][i] = v] *)
Definition list_setitem (u l i : pystr) (v : list Rating) : St unit :=
  λ s, let its := items_at (ns s u) l in
       (Ret tt, <[u := <[l := <[i := v]> its]> (ns s u)]> s).

(** [del self.data[u][l][i]]; a missing key is a [KeyError]. *)
Definition list_delitem (u l i : pystr) : St unit :=
  λ s, let its := items_at (ns s u) l in
       match its !! i with
       | Some _ => (Ret tt, <[u := <[l := delete i its]> (ns s u)]> s)
       | None => (Raise KeyError, <[u := <[l := its]> (ns s u)]> s)
       end.

(** [self.data[u][l][i]] *)
Definition data_item (u l i : pystr) : St (list Rating) :=
  λ s, let its := items_at (ns s u) l in
       let rs := ratings_at its i in
       (Ret rs, <[u := <[l := <[i := rs]> its]> (ns s u)]> s).

(** [self.data[u][l][i].append(r)] *)
Definition item_append (u l i : pystr) (r : Rating) : St unit :=
  λ s, let its := items_at (ns s u) l in
       let rs := ratings_at its i in
       (Ret tt, <[u := <[l := <[i := rs ++ [r]]> its]> (ns s u)]> s).

(** [del a[k]] on a Python list: a negative index counts from the end, an
    index out of range is an [IndexError] ([None]). *)
Definition py_list_del {A} (k : Z) (a : list A) : option (list A) :=
  let n := Z.of_nat (length a) in
  let k' := if k <? 0 then k + n else k in
  if (0 <=? k') && (k' <? n) then Some (delete (Z.to_nat k') a) else None.

(** [del ratings[k]] where [ratings] is the list object held at
    [self.data[u][l][i]]. *)
Definition ratings_delitem (u l i : pystr) (k : Z) : St unit :=
  λ s, let its := items_at (ns s u) l in
       match py_list_del k (ratings_at its i) with
       | Some rs' => (Ret tt, <[u := <[l := <[i := rs']> its]> (ns s u)]> s)
       | None => (Raise IndexError, s)
       end.

(** *** The methods of [DataStore] *)

Module DataStore.

Definition list_exists (u l : pystr) : St bool :=
  in_user u l.

Definition create_list (u l : pystr) : St unit :=
  b <- in_user u l ;;
  if negb b then user_setitem u l ∅ else ret tt.

Definition get_all_lists (u : pystr) : St (list pystr) :=
  user_keys u.

Definition add_item (u l i : pystr) : St unit :=
  e <- list_exists u l ;;
  (if negb e then create_list u l else ret tt) ;;;
  b <- in_list u l i ;;
  if negb b then list_setitem u l i [] else ret tt.

Definition item_exists (u l i : pystr) : St bool :=
  a <- in_user u l ;;
  if a then in_list u l i else ret false.

Definition get_list_items (u l : pystr) : St Items :=
  e <- list_exists u l ;;
  if negb e then ret ∅ else data_list u l.

Definition add_rating (u l i : pystr) (rating : Z) (comment : pystr) : St unit :=
  e <- item_exists u l i ;;
  if negb e then ret tt
  else if negb ((0 <=? rating) && (rating <=? 10)) then ret tt
  else item_append u l i (rating, comment).

Definition get_item_ratings (u l i : pystr) : St (list Rating) :=
  e <- item_exists u l i ;;
  if negb e then ret [] else data_item u l i.

(** [sum(rating_values)]: the elements are added to 0 from the left. *)
Definition sum_Z (xs : list Z) : Z := foldl Z.add 0 xs.

(** The result of an expression that reads no state. *)
Definition eval {S A} (r : res A) : M S A := λ s, (r, s).

Definition get_average_rating (u l i : pystr) : St number :=
  ratings <- get_item_ratings u l i ;;
  match ratings with
  | [] => ret (PyInt 0)
  | _ =>
    let rating_values := fst <$> ratings in
    q <- eval (true_divide (sum_Z rating_values)
                 (Z.of_nat (length rating_values))) ;;
    ret (PyFloat q)
  end.

Definition delete_list (u l : pystr) : St bool :=
  e <- list_exists u l ;;
  if negb e then ret false
  else user_delitem u l ;;; ret true.

Definition delete_item (u l i : pystr) : St bool :=
  e <- item_exists u l i ;;
  if negb e then ret false
  else list_delitem u l i ;;; ret true.

Definition delete_rating (u l i : pystr) (rating_index : Z) : St bool :=
  e <- item_exists u l i ;;
  if negb e then ret false
  else
    ratings <- data_item u l i ;;
    if (rating_index <? 0) || (Z.of_nat (length ratings) <=? rating_index)
    then ret false
    else ratings_delitem u l i rating_index ;;; ret true.

Definition clear_ratings (u l i : pystr) : St bool :=
  e <- item_exists u l i ;;
  if negb e then ret false
  else list_setitem u l i [] ;;; ret true.

End DataStore.

Import DataStore.

(** ** What a store holds *)

(** The store after [self.data[u]] has been evaluated: [u] has a namespace. *)
Definition touch (u : pystr) (s : Store) : Store := <[u := ns s u]> s.

Definition has_list (s : Store) (u l : pystr) : bool :=
  bool_decide (is_Some (ns s u !! l)).

Definition has_item (s : Store) (u l i : pystr) : bool :=
  has_list s u l && bool_decide (is_Some (items_at (ns s u) l !! i)).

(** The ratings held for an item, [[]] when there is no such item. *)
Definition ratings_of (s : Store) (u l i : pystr) : list Rating :=
  ratings_at (items_at (ns s u) l) i.

(** The store with the ratings of one item replaced. *)
Definition put_ratings (u l i : pystr) (rs : list Rating) (s : Store) : Store :=
  <[u := <[l := <[i := rs]> (items_at (ns s u) l)]> (ns s u)]> s.


(** The test [0 <= rating <= 10]. *)
Definition valid_score (rating : Z) : bool := (0 <=? rating) && (rating <=? 10).

(** [0 <= k < len(rs)], the negation of the test in [delete_rating]. *)
Definition valid_index (k : Z) (rs : list Rating) : bool :=
  negb ((k <? 0) || (Z.of_nat (length rs) <=? k)).

(** The arithmetic mean of the scores as a rational number, [0] for no
    rating: the number that the result of [get_average_rating] is compared
    with. *)
Definition mean (rs : list Rating) : Q :=
  match rs with
  | [] => 0%Q
  | _ => (inject_Z (sum_Z (fst <$> rs)) / inject_Z (Z.of_nat (length (fst <$> rs))))%Q
  end.

(** What [get_average_rating] answers for an item with the ratings [rs]. *)
Definition average (rs : list Rating) : res number :=
  match rs with
  | [] => Ret (PyInt 0)
  | _ =>
    match true_divide (sum_Z (fst <$> rs)) (Z.of_nat (length (fst <$> rs))) with
    | Ret q => Ret (PyFloat q)
    | Raise e => Raise e
    end
  end.

(** ** Sequences of calls

    The thirteen methods, as the calls a client of the store can make. *)

Inductive call : Type :=
| CreateList (u l : pystr)
| ListExists (u l : pystr)
| GetAllLists (u : pystr)
| AddItem (u l i : pystr)
| ItemExists (u l i : pystr)
| GetListItems (u l : pystr)
| AddRating (u l i : pystr) (rating : Z) (comment : pystr)
| GetItemRatings (u l i : pystr)
| GetAverageRating (u l i : pystr)
| DeleteList (u l : pystr)
| DeleteItem (u l i : pystr)
| DeleteRating (u l i : pystr) (rating_index : Z)
| ClearRatings (u l i : pystr).

(** The store after one call. *)
Definition perform (c : call) (s : Store) : Store :=
  match c with
  | CreateList u l => exec (create_list u l) s
  | ListExists u l => exec (list_exists u l) s
  | GetAllLists u => exec (get_all_lists u) s
  | AddItem u l i => exec (add_item u l i) s
  | ItemExists u l i => exec (item_exists u l i) s
  | GetListItems u l => exec (get_list_items u l) s
  | AddRating u l i rating comment => exec (add_rating u l i rating comment) s
  | GetItemRatings u l i => exec (get_item_ratings u l i) s
  | GetAverageRating u l i => exec (get_average_rating u l i) s
  | DeleteList u l => exec (delete_list u l) s
  | DeleteItem u l i => exec (delete_item u l i) s
  | DeleteRating u l i k => exec (delete_rating u l i k) s
  | ClearRatings u l i => exec (clear_ratings u l i) s
  end.

(** The store after a sequence of calls, the first of them first. *)
Definition perform_all (cs : list call) (s : Store) : Store :=
  foldl (λ s c, perform c s) s cs.

(** The methods that only answer a question. *)
Definition is_read (c : call) : bool :=
  match c with
  | ListExists _ _ | GetAllLists _ | ItemExists _ _ _ | GetListItems _ _
  | GetItemRatings _ _ _ | GetAverageRating _ _ _ => true
  | _ => false
  end.

(** Every score held in the store is between 0 and 10. *)
Definition scores_in_range (s : Store) : Prop :=
  ∀ (u l i : pystr) (ls : Lists) (its : Items) (rs : list Rating) (r : Rating),
    s !! u = Some ls → ls !! l = Some its → its !! i = Some rs → r ∈ rs →
    0 ≤ r.1 ≤ 10.

(** The same, for the items of one list and for the lists reached through
    [ns]. *)
Definition items_in_range (X : Items) : Prop :=
  ∀ (j : pystr) (rs : list Rating) (r : Rating),
    X !! j = Some rs → r ∈ rs → 0 ≤ r.1 ≤ 10.

Definition lists_in_range (s : Store) : Prop :=
  ∀ (v m : pystr) (its : Items), ns s v !! m = Some its → items_in_range its.

(** A store to try the methods on: user [A] has the list [Movies] with the
    item [Dune], rated three times. *)
Definition example_calls : list call :=
  [ AddItem (py "A") (py "Movies") (py "Dune");
    AddRating (py "A") (py "Movies") (py "Dune") 3 (py "a");
    AddRating (py "A") (py "Movies") (py "Dune") 5 (py "b");
    AddRating (py "A") (py "Movies") (py "Dune") 9 (py "c") ].

Definition example_store : Store := perform_all example_calls init.

(** *** What a call is about *)

(** The user a call names. *)
Definition call_user (c : call) : pystr :=
  match c with
  | CreateList u _ | ListExists u _ | GetAllLists u | AddItem u _ _
  | ItemExists u _ _ | GetListItems u _ | AddRating u _ _ _ _
  | GetItemRatings u _ _ | GetAverageRating u _ _ | DeleteList u _
  | DeleteItem u _ _ | DeleteRating u _ _ _ | ClearRatings u _ _ => u
  end.

(** The list a call names, if it names one. *)
Definition call_list (c : call) : option pystr :=
  match c with
  | GetAllLists _ => None
  | CreateList _ l | ListExists _ l | AddItem _ l _ | ItemExists _ l _
  | GetListItems _ l | AddRating _ l _ _ _ | GetItemRatings _ l _
  | GetAverageRating _ l _ | DeleteList _ l | DeleteItem _ l _
  | DeleteRating _ l _ _ | ClearRatings _ l _ => Some l
  end.

(** The item a call names, if it names one. *)
Definition call_item (c : call) : option pystr :=
  match c with
  | CreateList _ _ | ListExists _ _ | GetAllLists _ | GetListItems _ _
  | DeleteList _ _ => None
  | AddItem _ _ i | ItemExists _ _ i | AddRating _ _ i _ _
  | GetItemRatings _ _ i | GetAverageRating _ _ i | DeleteItem _ _ i
  | DeleteRating _ _ i _ | ClearRatings _ _ i => Some i
  end.

(** The calls that rate one item with each of [xs], in that order. *)
Definition rate_all (u l i : pystr) (xs : list Rating) : list call :=
  (λ x : Rating, AddRating u l i x.1 x.2) <$> xs.

(** The calls whose effect adds up when they are made again: a rating is
    appended again, another rating is deleted. *)
Definition accumulates (c : call) : bool :=
  match c with
  | AddRating _ _ _ _ _ | DeleteRating _ _ _ _ => true
  | _ => false
  end.

(** A method returns normally: it raises no exception. *)
Definition returns {A} (m : St A) (s : Store) : Prop :=
  ∃ a : A, result m s = Ret a.

(** ** The handlers ([bot_handlers_new.py], [bot_handlers_spanish.py]) *)

(** *** What the transport delivers *)

Record Chat : Type := { chat_id : Z; chat_type : pystr }.

Record User : Type := { user_id : Z }.

(** [text] is [None] for a message that carries no text. *)
Record Message : Type := { text : option pystr }.

(** The handlers below run on updates that come from a chat and a sender;
    [message] is [None] for the updates that carry no new message. *)
Record Update : Type := {
  effective_chat : Chat;
  effective_user : User;
  message : option Message
}.

(** The answer of [context.bot.get_chat_member(chat_id, user_id)]: a chat
    member with its [status], or an [Exception] raised by the transport. *)
Inductive lookup : Type :=
| ChatMember (status : pystr)
| LookupFailed (error : pystr).

Record CallbackContext : Type := { get_chat_member : Z → Z → lookup }.

(** The state of a handler: the module-level [data_store] and the replies
    sent so far. *)
Record World : Type := { store : Store; sent : list pystr }.

Definition Hd (A : Type) : Type := M World A.

Definition handler : Type := Update → CallbackContext → Hd Z.

(** A call [data_store.method(...)]. *)
Definition on_store {A} (m : St A) : Hd A :=
  λ w, let '(r, s) := m (store w) in (r, {| store := s; sent := sent w |}).

(** [update.message.reply_text(t)] *)
Definition reply_text (t : pystr) : Hd unit :=
  λ w, (Ret tt, {| store := store w; sent := sent w ++ [t] |}).

(** *** [str.split()] *)

(** The code points that [str.split()] takes for white space. *)
Definition isspace (c : N) : bool :=
  ((9 <=? c) && (c <=? 13) || (28 <=? c) && (c <=? 32)
   || (c =? 133) || (c =? 160) || (c =? 5760)
   || (8192 <=? c) && (c <=? 8202)
   || (c =? 8232) || (c =? 8233) || (c =? 8239) || (c =? 8287) || (c =? 12288))%N.

(** The words of [t] after the word [word] that is being read. *)
Fixpoint split_from (word t : pystr) : list pystr :=
  match t with
  | [] => match word with [] => [] | _ => [word] end
  | c :: t' =>
    if isspace c
    then match word with [] => split_from [] t' | _ => word :: split_from [] t' end
    else split_from (word ++ [c]) t'
  end.

Definition split (t : pystr) : list pystr := split_from [] t.

Module Handlers.


Definition CREATE_LIST : Z := 0.

(** [ConversationHandler.END] *)
Definition END : Z := -1.

Definition ADMIN_COMMANDS : list pystr :=
  [py "/newlist"; py "/deletelist"; py "/deleteitem"; py "/deleterating";
   py "/clearratings"].

Definition is_admin (update : Update) (context : CallbackContext) : bool :=
  let chat_id := chat_id (effective_chat update) in
  let user_id := user_id (effective_user update) in
  if bool_decide (chat_type (effective_chat update) = py "private") then true
  else
    match get_chat_member context chat_id user_id with
    | ChatMember status =>
      bool_decide (status ∈ [py "creator"; py "administrator"])
    | LookupFailed _ => false
    end.

(** [update.message.text.split()[0] if update.message and update.message.text
    else ""]: the first word of the text, [""] when there is no message or
    no text; a text of white space only has no first word ([IndexError]). *)
Definition command_of (update : Update) : res pystr :=
  match message update with
  | Some m =>
    match text m with
    | Some (c :: t) =>
      match split (c :: t) with
      | w :: _ => Ret w
      | [] => Raise IndexError
      end
    | _ => Ret []
    end
  | None => Ret []
  end.

Definition denial : pystr :=
  py "This command is only available to chat administrators.".

Definition admin_required (func : handler) : handler :=
  λ update context,
    if negb (is_admin update context) then
      match command_of update with
      | Ret command =>
        if bool_decide (command ∈ ADMIN_COMMANDS)
        then reply_text denial ;;; ret END
        else func update context
      | Raise e => raise e
      end
    else func update context.

Definition already_exists (list_name : pystr) : pystr :=
  py "You already have a list named '" ++ list_name
  ++ py "'. Please choose a different name.".

Definition created (list_name : pystr) : pystr :=
  py "Great! I've created a new list called '" ++ list_name ++ py "'."
  ++ [10%N] ++ py "You can add items to it with /additem".

(** The handler of the state [CREATE_LIST].  [list_name] is the text of the
    message, [None] for a message without text: the code goes on with it as
    it does with a string. *)
Definition create_list : handler :=
  λ update context,
    match message update with
    | None => raise AttributeError
    | Some m =>
      let list_name := text m in
      let user_id := str_of_int (user_id (effective_user update)) in
      e <- on_store (list_exists user_id (in_store list_name)) ;;
      if e then
        reply_text (already_exists (fmt list_name)) ;;; ret CREATE_LIST
      else
        on_store (DataStore.create_list user_id (in_store list_name)) ;;;
        reply_text (created (fmt list_name)) ;;;
        ret END
    end.



End Handlers.

(** An update to try the handlers on: user 7 writes [t] in a group where the
    transport knows them as a plain member. *)
Definition group_update (t : pystr) : Update :=
  {| effective_chat := {| chat_id := 2; chat_type := py "group" |};
     effective_user := {| user_id := 7 |};
     message := Some {| text := Some t |} |}.

Definition plain_member : CallbackContext :=
  {| get_chat_member := λ _ _, ChatMember (py "member") |}.

(** ** The conversations ([bot_handlers_new.py]) *)

(** *** [str.replace] *)

(** [t.startswith(p)] *)
Fixpoint starts_with (p t : pystr) : bool :=
  match p, t with
  | [], _ => true
  | _ :: _, [] => false
  | a :: p', b :: t' => (a =? b)%N && starts_with p' t'
  end.

(** [t.replace(old, new)] for a non-empty [old]: [t] is read from the left,
    each occurrence of [old] found is replaced and the reading goes on after
    it; [skip] is the number of characters of the occurrence just replaced
    that are still to be passed. *)
Fixpoint replace_from (old new : pystr) (skip : nat) (t : pystr) : pystr :=
  match t with
  | [] => []
  | c :: t' =>
    match skip with
    | S k => replace_from old new k t'
    | O =>
      if starts_with old t
      then new ++ replace_from old new (length old - 1) t'
      else c :: replace_from old new O t'
    end
  end.

(** [t.replace(old, new)]; an empty [old] is found before every character
    and at the end. *)
Definition replace (old new t : pystr) : pystr :=
  match old with
  | [] => new ++ concat ((λ c, c :: new) <$> t)
  | _ => replace_from old new 0 t
  end.

(** [p] occurs in [t]. *)
Definition occurs (p t : pystr) : Prop := ∃ a b : pystr, t = a ++ p ++ b.

(** *** What a handler works on *)

(** [context.user_data], the dictionary kept for the sender.  Each key is
    written at one place of the handlers, with a value of one type; a key
    never written is [None]. *)
Record UserData : Type := {
  selected_list : option pystr;
  rating_list : option pystr;
  rating_item : option pystr;
  temp_rating : option Z;
  delete_list_name : option pystr;
  delete_item_list : option pystr;
  delete_item_name : option pystr;
  delete_rating_list : option pystr;
  delete_rating_item : option pystr;
  delete_all_ratings : option bool;
  delete_rating_index : option Z;
  clear_ratings_list : option pystr;
  clear_ratings_item : option pystr
}.

(** [update.callback_query]: who pressed the button, and the button's
    [callback_data]. *)
Record CallbackQuery : Type := { from_user : User; data : pystr }.

(** An inline keyboard: rows of buttons, each a label and its
    [callback_data]. *)
Definition Keyboard : Type := list (list (pystr * pystr)).

(** What a handler does to the chat: [update.message.reply_text],
    [query.edit_message_text] (with the keyboard given as [reply_markup],
    [[]] when there is none) and [query.answer]. *)
Inductive action : Type :=
| Replied (t : pystr) (keyboard : Keyboard)
| Edited (t : pystr) (keyboard : Keyboard)
| Answered.

(** The state a handler runs in: the module-level [data_store], what was
    done to the chat so far, and [context.user_data]. *)
Record Conv : Type := {
  data_store : Store;
  out : list action;
  user_data : UserData
}.

Definition Cv (A : Type) : Type := M Conv A.

(** A call [data_store.method(...)]. *)
Definition in_data_store {A} (m : St A) : Cv A :=
  λ c, let '(r, s) := m (data_store c) in
       (r, {| data_store := s; out := out c; user_data := user_data c |}).

Definition act (a : action) : Cv unit :=
  λ c, (Ret tt, {| data_store := data_store c; out := out c ++ [a];
                   user_data := user_data c |}).

Definition get_user_data : Cv UserData := λ c, (Ret (user_data c), c).

Definition set_user_data (f : UserData → UserData) : Cv unit :=
  λ c, (Ret tt, {| data_store := data_store c; out := out c;
                   user_data := f (user_data c) |}).

(** [update.message.reply_text(t, reply_markup=keyboard)]; an update without
    [message] has nothing to reply to. *)
Definition reply (update : Update) (t : pystr) (keyboard : Keyboard) : Cv unit :=
  match message update with
  | Some _ => act (Replied t keyboard)
  | None => raise AttributeError
  end.

(** The truth value of [context.user_data.get(key)] for a key that holds a
    string: false for [None] and for the empty string. *)
Definition truthy (o : option pystr) : bool :=
  match o with
  | Some (_ :: _) => true
  | _ => false
  end.

Module Flows.

Definition ADD_ITEM : Z := 1.
Definition DELETE_LIST : Z := 6.
Definition DELETE_RATING : Z := 8.
Definition CONFIRM_DELETE : Z := 9.
Definition END : Z := Handlers.END.

(** [context.user_data["delete_list_name"] = n] *)
Definition set_delete_list_name (n : pystr) (d : UserData) : UserData :=
  {| selected_list := selected_list d; rating_list := rating_list d;
     rating_item := rating_item d; temp_rating := temp_rating d;
     delete_list_name := Some n;
     delete_item_list := delete_item_list d;
     delete_item_name := delete_item_name d;
     delete_rating_list := delete_rating_list d;
     delete_rating_item := delete_rating_item d;
     delete_all_ratings := delete_all_ratings d;
     delete_rating_index := delete_rating_index d;
     clear_ratings_list := clear_ratings_list d;
     clear_ratings_item := clear_ratings_item d |}.

(** [context.user_data["delete_rating_item"] = n] *)
Definition set_delete_rating_item (n : pystr) (d : UserData) : UserData :=
  {| selected_list := selected_list d; rating_list := rating_list d;
     rating_item := rating_item d; temp_rating := temp_rating d;
     delete_list_name := delete_list_name d;
     delete_item_list := delete_item_list d;
     delete_item_name := delete_item_name d;
     delete_rating_list := delete_rating_list d;
     delete_rating_item := Some n;
     delete_all_ratings := delete_all_ratings d;
     delete_rating_index := delete_rating_index d;
     clear_ratings_list := clear_ratings_list d;
     clear_ratings_item := clear_ratings_item d |}.

Definition cancel (update : Update) : Cv Z :=
  reply update (py "Operation cancelled.") [] ;;; ret END.

(** The handler of the state [ADD_ITEM]; [item_name] is the text of the
    message, [None] for a message without text. *)
Definition add_item_to_list (update : Update) : Cv Z :=
  let user_id := str_of_int (user_id (effective_user update)) in
  d <- get_user_data ;;
  let list_name := selected_list d in
  match message update with
  | None => raise AttributeError
  | Some m =>
    let item_name := text m in
    if negb (truthy list_name) then
      reply update (py "Something went wrong. Please try again with /additem") [] ;;;
      ret END
    else
      let list_name := default [] list_name in
      e <- in_data_store (item_exists user_id list_name (in_store item_name)) ;;
      if e then
        reply update
          (py "'" ++ fmt item_name ++ py "' already exists in '" ++ list_name
           ++ py "'. Please add a different item.") [] ;;;
        ret ADD_ITEM
      else
        in_data_store (add_item user_id list_name (in_store item_name)) ;;;
        reply update
          (py "Added '" ++ fmt item_name ++ py "' to '" ++ list_name ++ py "'!"
           ++ [10%N] ++ py "You can rate it with /rate") [] ;;;
        ret END
  end.

(** [not all([list_name, item_name, rating is not None])] *)
Definition rating_context_missing (d : UserData) : bool :=
  negb (truthy (rating_list d) && truthy (rating_item d)
        && bool_decide (is_Some (temp_rating d))).

(** The handler of the state [ADD_COMMENT]; [comment] is the text of the
    message, [None] for a message without text. *)
Definition add_rating_comment (update : Update) : Cv Z :=
  match message update with
  | None => raise AttributeError
  | Some m =>
    let comment := text m in
    let user_id := str_of_int (user_id (effective_user update)) in
    d <- get_user_data ;;
    if rating_context_missing d then
      reply update (py "Something went wrong. Please try again with /rate") [] ;;;
      ret END
    else
      let list_name := default [] (rating_list d) in
      let item_name := default [] (rating_item d) in
      let rating := default 0 (temp_rating d) in
      in_data_store
        (add_rating user_id list_name item_name rating (in_store comment)) ;;;
      reply update
        (py "You rated '" ++ item_name ++ py "' a " ++ str_of_int rating
         ++ py "/10 with the comment:" ++ [10%N; 10%N; 34%N] ++ fmt comment
         ++ [34%N]) [] ;;;
      ret END
  end.

Definition skip_comment (update : Update) : Cv Z :=
  let user_id := str_of_int (user_id (effective_user update)) in
  d <- get_user_data ;;
  if rating_context_missing d then
    reply update (py "Something went wrong. Please try again with /rate") [] ;;;
    ret END
  else
    let list_name := default [] (rating_list d) in
    let item_name := default [] (rating_item d) in
    let rating := default 0 (temp_rating d) in
    in_data_store (add_rating user_id list_name item_name rating []) ;;;
    reply update
      (py "You rated '" ++ item_name ++ py "' a " ++ str_of_int rating
       ++ py "/10 without a comment.") [] ;;;
    ret END.

(** The decorator [admin_required], for the handlers of the conversations:
    the wrapper it returns. *)
Definition admin_required (func : Update → CallbackContext → Cv Z)
    : Update → CallbackContext → Cv Z :=
  λ update context,
    if negb (Handlers.is_admin update context) then
      match Handlers.command_of update with
      | Ret command =>
        if bool_decide (command ∈ Handlers.ADMIN_COMMANDS)
        then reply update Handlers.denial [] ;;; ret END
        else func update context
      | Raise e => raise e
      end
    else func update context.

(** [delete_list_start] is defined under [@admin_required]: the name stands
    for the wrapper.  A key of the store that is [None] is written
    ["None"] in the [callback_data]. *)
Definition delete_list_start : Update → CallbackContext → Cv Z :=
  admin_required (λ update context,
    let user_id := str_of_int (user_id (effective_user update)) in
    lists <- in_data_store (get_all_lists user_id) ;;
    match lists with
    | [] =>
      reply update
        (py "You don't have any lists yet. Create one first with /newlist") [] ;;;
      ret END
    | _ =>
      let keyboard :=
        (λ list_name : pystr,
           [(list_name, py "delete_list_" ++ fmt (of_store list_name))])
          <$> lists in
      reply update ([9888%N; 65039%N] ++ py " Choose a list to DELETE:") keyboard ;;;
      ret DELETE_LIST
    end).

Definition confirm_delete_list (query : CallbackQuery) : Cv Z :=
  act Answered ;;;
  let list_name := replace (py "delete_list_") [] (data query) in
  set_user_data (set_delete_list_name list_name) ;;;
  let keyboard :=
    [ [(py "Yes, delete this list", py "confirm_delete_list")];
      [(py "No, keep this list", py "cancel_delete")] ] in
  act (Edited
         ([9888%N; 65039%N] ++ py " Are you sure you want to delete the list '"
          ++ list_name ++ py "' and all its items and ratings?"
          ++ [10%N; 10%N] ++ py "This action cannot be undone!") keyboard) ;;;
  ret CONFIRM_DELETE.

Definition execute_delete_list (query : CallbackQuery) : Cv Z :=
  act Answered ;;;
  if bool_decide (data query = py "cancel_delete") then
    act (Edited (py "Deletion cancelled. Your list is safe.") []) ;;; ret END
  else
    let user_id := str_of_int (user_id (from_user query)) in
    d <- get_user_data ;;
    let list_name := delete_list_name d in
    if negb (truthy list_name) then
      act (Edited (py "Something went wrong. Please try again with /deletelist") []) ;;;
      ret END
    else
      let list_name := default [] list_name in
      success <- in_data_store (delete_list user_id list_name) ;;
      (if success : bool then
         act (Edited (py "The list '" ++ list_name ++ py "' has been deleted.") [])
       else
         act (Edited (py "Failed to delete the list '" ++ list_name
                      ++ py "'. Please try again later.") [])) ;;;
      ret END.

Definition execute_delete_item (query : CallbackQuery) : Cv Z :=
  act Answered ;;;
  if bool_decide (data query = py "cancel_delete") then
    act (Edited (py "Deletion cancelled. Your item is safe.") []) ;;; ret END
  else
    let user_id := str_of_int (user_id (from_user query)) in
    d <- get_user_data ;;
    let list_name := delete_item_list d in
    let item_name := delete_item_name d in
    if negb (truthy list_name && truthy item_name) then
      act (Edited (py "Something went wrong. Please try again with /deleteitem") []) ;;;
      ret END
    else
      let list_name := default [] list_name in
      let item_name := default [] item_name in
      success <- in_data_store (delete_item user_id list_name item_name) ;;
      (if success : bool then
         act (Edited (py "The item '" ++ item_name
                      ++ py "' has been deleted from the list '" ++ list_name
                      ++ py "'.") [])
       else
         act (Edited (py "Failed to delete the item '" ++ item_name
                      ++ py "'. Please try again later.") [])) ;;;
      ret END.

(** The comment as shown on a button: [comment if len(comment) <= 20 else
    comment[:17] + "..."]. *)
Definition display_comment (comment : pystr) : pystr :=
  if (length comment <=? 20)%nat then comment else take 17 comment ++ py "...".

(** The label of the button of one rating; [if comment:] is false for the
    empty comment and for [None]. *)
Definition display_text (r : Rating) : pystr :=
  let '(rating, comment) := r in
  str_of_int rating ++ py "/10"
  ++ if truthy (of_store comment)
     then py " - " ++ [34%N] ++ display_comment comment ++ [34%N]
     else [].

Definition select_item_for_delete_rating (query : CallbackQuery) : Cv Z :=
  act Answered ;;;
  let user_id := str_of_int (user_id (from_user query)) in
  let item_name := replace (py "delete_rating_item_") [] (data query) in
  d <- get_user_data ;;
  let list_name := delete_rating_list d in
  if negb (truthy list_name) then
    act (Edited (py "Something went wrong. Please try again with /deleterating") []) ;;;
    ret END
  else
    let list_name := default [] list_name in
    set_user_data (set_delete_rating_item item_name) ;;;
    ratings <- in_data_store (get_item_ratings user_id list_name item_name) ;;
    let keyboard :=
      imap (λ (i : nat) (r : Rating),
              [(display_text r, py "delete_rating_" ++ str_of_int (Z.of_nat i))])
           ratings
      ++ [[(py "Delete ALL ratings", py "delete_all_ratings")]] in
    act (Edited
           ([9888%N; 65039%N] ++ py " Choose a rating to DELETE for the item '"
            ++ item_name ++ py "':") keyboard) ;;;
    ret DELETE_RATING.

Definition execute_delete_rating (query : CallbackQuery) : Cv Z :=
  act Answered ;;;
  if bool_decide (data query = py "cancel_delete") then
    act (Edited (py "Deletion cancelled. The rating is safe.") []) ;;; ret END
  else
    let user_id := str_of_int (user_id (from_user query)) in
    d <- get_user_data ;;
    let list_name := delete_rating_list d in
    let item_name := delete_rating_item d in
    if negb (truthy list_name && truthy item_name) then
      act (Edited (py "Something went wrong. Please try again with /deleterating") []) ;;;
      ret END
    else
      let list_name := default [] list_name in
      let item_name := default [] item_name in
      let report (success : bool) (message : pystr) : Cv Z :=
        (if success then act (Edited message [])
         else act (Edited (py "Failed to delete the rating. Please try again later.") [])) ;;;
        ret END in
      if default false (delete_all_ratings d) then
        success <- in_data_store (clear_ratings user_id list_name item_name) ;;
        report success
          (py "All ratings for the item '" ++ item_name ++ py "' have been deleted.")
      else
        match delete_rating_index d with
        | None =>
          act (Edited (py "Something went wrong. Please try again with /deleterating") []) ;;;
          ret END
        | Some rating_index =>
          success <- in_data_store
                       (delete_rating user_id list_name item_name rating_index) ;;
          report success
            (py "The selected rating for the item '" ++ item_name
             ++ py "' has been deleted.")
        end.

Definition execute_clear_ratings (query : CallbackQuery) : Cv Z :=
  act Answered ;;;
  if bool_decide (data query = py "cancel_clear") then
    act (Edited (py "Operation cancelled. Your ratings are safe.") []) ;;; ret END
  else
    let user_id := str_of_int (user_id (from_user query)) in
    d <- get_user_data ;;
    let list_name := clear_ratings_list d in
    let item_name := clear_ratings_item d in
    if negb (truthy list_name && truthy item_name) then
      act (Edited (py "Something went wrong. Please try again with /clearratings") []) ;;;
      ret END
    else
      let list_name := default [] list_name in
      let item_name := default [] item_name in
      success <- in_data_store (clear_ratings user_id list_name item_name) ;;
      (if success : bool then
         act (Edited (py "All ratings for the item '" ++ item_name
                      ++ py "' have been cleared.") [])
       else
         act (Edited (py "Failed to clear ratings for the item '" ++ item_name
                      ++ py "'. Please try again later.") [])) ;;;
      ret END.

End Flows.

(** The state [c] with the store [s] and with [acts] done to the chat; the
    [user_data] are those of [c]. *)
Definition then_with (c : Conv) (s : Store) (acts : list action) : Conv :=
  {| data_store := s; out := out c ++ acts; user_data := user_data c |}.

(** The store left by [execute_delete_list]. *)
Definition after_execute_delete_list (q : CallbackQuery) (c : Conv) : Store :=
  let d := user_data c in
  if bool_decide (data q = py "cancel_delete") || negb (truthy (delete_list_name d))
  then data_store c
  else exec (delete_list (str_of_int (user_id (from_user q)))
               (default [] (delete_list_name d))) (data_store c).

(** The store left by [execute_delete_item]. *)
Definition after_execute_delete_item (q : CallbackQuery) (c : Conv) : Store :=
  let d := user_data c in
  if bool_decide (data q = py "cancel_delete")
     || negb (truthy (delete_item_list d) && truthy (delete_item_name d))
  then data_store c
  else exec (delete_item (str_of_int (user_id (from_user q)))
               (default [] (delete_item_list d))
               (default [] (delete_item_name d))) (data_store c).

(** The store left by [execute_clear_ratings]. *)
Definition after_execute_clear_ratings (q : CallbackQuery) (c : Conv) : Store :=
  let d := user_data c in
  if bool_decide (data q = py "cancel_clear")
     || negb (truthy (clear_ratings_list d) && truthy (clear_ratings_item d))
  then data_store c
  else exec (clear_ratings (str_of_int (user_id (from_user q)))
               (default [] (clear_ratings_list d))
               (default [] (clear_ratings_item d))) (data_store c).

(** The store left by [execute_delete_rating]. *)
Definition after_execute_delete_rating (q : CallbackQuery) (c : Conv) : Store :=
  let d := user_data c in
  let uid := str_of_int (user_id (from_user q)) in
  let l := default [] (delete_rating_list d) in
  let i := default [] (delete_rating_item d) in
  if bool_decide (data q = py "cancel_delete")
     || negb (truthy (delete_rating_list d) && truthy (delete_rating_item d))
  then data_store c
  else if default false (delete_all_ratings d)
  then exec (clear_ratings uid l i) (data_store c)
  else match delete_rating_index d with
       | Some k => exec (delete_rating uid l i k) (data_store c)
       | None => data_store c
       end.

(** *** Any handler, any number of times *)

(** The handlers, each with what it is called on. *)
Inductive event : Type :=
| Cancel (update : Update)
| AddItemToList (update : Update)
| AddRatingComment (update : Update)
| SkipComment (update : Update)
| DeleteListStart (update : Update) (context : CallbackContext)
| ConfirmDeleteList (query : CallbackQuery)
| ExecuteDeleteList (query : CallbackQuery)
| ExecuteDeleteItem (query : CallbackQuery)
| SelectItemForDeleteRating (query : CallbackQuery)
| ExecuteDeleteRating (query : CallbackQuery)
| ExecuteClearRatings (query : CallbackQuery).

Definition handle (e : event) : Cv Z :=
  match e with
  | Cancel update => Flows.cancel update
  | AddItemToList update => Flows.add_item_to_list update
  | AddRatingComment update => Flows.add_rating_comment update
  | SkipComment update => Flows.skip_comment update
  | DeleteListStart update context => Flows.delete_list_start update context
  | ConfirmDeleteList query => Flows.confirm_delete_list query
  | ExecuteDeleteList query => Flows.execute_delete_list query
  | ExecuteDeleteItem query => Flows.execute_delete_item query
  | SelectItemForDeleteRating query => Flows.select_item_for_delete_rating query
  | ExecuteDeleteRating query => Flows.execute_delete_rating query
  | ExecuteClearRatings query => Flows.execute_clear_ratings query
  end.

(** The user the handler works for: the sender of the message, or who
    pressed the button. *)
Definition event_user (e : event) : pystr :=
  match e with
  | Cancel update | AddItemToList update | AddRatingComment update
  | SkipComment update | DeleteListStart update _ =>
    str_of_int (user_id (effective_user update))
  | ConfirmDeleteList query | ExecuteDeleteList query | ExecuteDeleteItem query
  | SelectItemForDeleteRating query | ExecuteDeleteRating query
  | ExecuteClearRatings query =>
    str_of_int (user_id (from_user query))
  end.

(** The state after the handlers of [es] ran one after the other, whether
    they returned or raised. *)
Definition handle_all (es : list event) (c : Conv) : Conv :=
  foldl (λ c e, exec (handle e) c) c es.

(** Whatever the state, [h] changes the store only by calls of the methods
    of the store for the user [uid]. *)
Definition store_calls {A} (uid : pystr) (h : Cv A) : Prop :=
  ∀ c : Conv, ∃ cs : list call,
    data_store (exec h c) = perform_all cs (data_store c) ∧
    Forall (λ k : call, call_user k = uid) cs.

(** A [user_data] in which nothing was written yet. *)
Definition no_user_data : UserData :=
  {| selected_list := None; rating_list := None; rating_item := None;
     temp_rating := None; delete_list_name := None; delete_item_list := None;
     delete_item_name := None; delete_rating_list := None;
     delete_rating_item := None; delete_all_ratings := None;
     delete_rating_index := None; clear_ratings_list := None;
     clear_ratings_item := None |}.

(** A state to try the handlers on: user 7 has the list [Movies] with the
    item [Dune], rated twice; [user_data] holds what the conversations about
    [Dune] wrote, the mark [delete_all_ratings] among it. *)
Definition sender_store : Store :=
  perform_all
    [ AddItem (py "7") (py "Movies") (py "Dune");
      AddRating (py "7") (py "Movies") (py "Dune") 3 [];
      AddRating (py "7") (py "Movies") (py "Dune") 8 (py "good") ] init.

Definition sender_user_data : UserData :=
  {| selected_list := Some (py "Movies");
     rating_list := Some (py "Movies"); rating_item := Some (py "Dune");
     temp_rating := Some 0;
     delete_list_name := Some (py "Movies");
     delete_item_list := Some (py "Movies");
     delete_item_name := Some (py "Dune");
     delete_rating_list := Some (py "Movies");
     delete_rating_item := Some (py "Dune");
     delete_all_ratings := Some true;
     delete_rating_index := Some 1;
     clear_ratings_list := Some (py "Movies");
     clear_ratings_item := Some (py "Dune") |}.

Definition sender_conv : Conv :=
  {| data_store := sender_store; out := []; user_data := sender_user_data |}.

(** User 7 presses a button with the data [t]; user 7 writes [t] in a
    private chat. *)
Definition sender_query (t : pystr) : CallbackQuery :=
  {| from_user := {| user_id := 7 |}; data := t |}.

Definition sender_update (t : pystr) : Update :=
  {| effective_chat := {| chat_id := 7; chat_type := py "private" |};
     effective_user := {| user_id := 7 |};
     message := Some {| text := Some t |} |}.

#[global] Arguments data_user : simpl never.
#[global] Arguments in_user : simpl never.
#[global] Arguments user_setitem : simpl never.
#[global] Arguments user_delitem : simpl never.
#[global] Arguments data_list : simpl never.
#[global] Arguments in_list : simpl never.
#[global] Arguments list_setitem : simpl never.
#[global] Arguments list_delitem : simpl never.
#[global] Arguments data_item : simpl never.
#[global] Arguments item_append : simpl never.
#[global] Arguments ratings_delitem : simpl never.
#[global] Arguments create_list : simpl never.
#[global] Arguments list_exists : simpl never.
#[global] Arguments item_exists : simpl never.
#[global] Arguments split : simpl never.
#[global] Arguments replace : simpl never.
#[global] Arguments str_of_int : simpl never.
#[global] Arguments py : simpl never.

Implicit Types (u v l m i j comment : pystr) (s : Store) (ls : Lists)
  (its : Items) (rs : list Rating) (r : Rating).

(** ** Basic facts about the three levels *)

Lemma ns_insert_eq (s : Store) u ls : ns (<[u := ls]> s) u = ls.
Proof. unfold ns. by rewrite lookup_insert_eq. Qed.

Lemma ns_insert_ne (s : Store) u v ls : u ≠ v → ns (<[u := ls]> s) v = ns s v.
Proof. intros. unfold ns. by rewrite lookup_insert_ne. Qed.

Lemma ns_touch u v (s : Store) : ns (touch u s) v = ns s v.
Proof.
  unfold touch. destruct (decide (u = v)) as [->|].
  - apply ns_insert_eq.
  - by apply ns_insert_ne.
Qed.

Lemma touch_present u (s : Store) : is_Some (s !! u) → touch u s = s.
Proof. intros [ls Hls]. unfold touch, ns. rewrite Hls. by apply insert_id. Qed.

Lemma touch_touch u (s : Store) : touch u (touch u s) = touch u s.
Proof. unfold touch at 1. rewrite ns_touch. unfold touch. apply insert_insert_eq. Qed.

Lemma touch_lookup_ne u v (s : Store) : u ≠ v → touch u s !! v = s !! v.
Proof. intros. unfold touch. by rewrite lookup_insert_ne. Qed.

Lemma touch_lookup_eq u (s : Store) : touch u s !! u = Some (ns s u).
Proof. unfold touch. by rewrite lookup_insert_eq. Qed.

Lemma has_list_touch u v l (s : Store) : has_list (touch u s) v l = has_list s v l.
Proof. unfold has_list. by rewrite ns_touch. Qed.

Lemma has_item_touch u v l i (s : Store) : has_item (touch u s) v l i = has_item s v l i.
Proof. unfold has_item, has_list. by rewrite ns_touch. Qed.

Lemma has_list_true (s : Store) u l :
  has_list s u l = true ↔ ∃ its, ns s u !! l = Some its.
Proof. unfold has_list. rewrite bool_decide_eq_true. reflexivity. Qed.

Lemma has_list_false (s : Store) u l :
  has_list s u l = false ↔ ns s u !! l = None.
Proof. unfold has_list. rewrite bool_decide_eq_false, eq_None_not_Some. reflexivity. Qed.

Lemma has_item_true (s : Store) u l i :
  has_item s u l i = true ↔
  ∃ its rs, ns s u !! l = Some its ∧ its !! i = Some rs.
Proof.
  unfold has_item, has_list, items_at. rewrite andb_true_iff, !bool_decide_eq_true. split.
  - intros [[its Hl] Hi]. rewrite Hl in Hi. destruct Hi as [rs Hi]. eauto.
  - intros (its & rs & Hl & Hi). rewrite Hl. simpl. rewrite Hi. eauto.
Qed.

(** A list that exists is in a namespace that exists. *)
Lemma has_list_user (s : Store) u l : has_list s u l = true → is_Some (s !! u).
Proof.
  intros [its H]%has_list_true. unfold ns in H.
  destruct (s !! u); [eauto | simpl in H; by rewrite lookup_empty in H].
Qed.

Lemma has_item_list (s : Store) u l i : has_item s u l i = true → has_list s u l = true.
Proof. unfold has_item. by intros [? _]%andb_true_iff. Qed.

(** Writing back what is already there changes nothing. *)
Lemma put_list_same (s : Store) u l its :
  ns s u !! l = Some its → <[u := <[l := its]> (ns s u)]> s = touch u s.
Proof. intros H. unfold touch. by rewrite (insert_id (ns s u) l its). Qed.

Lemma put_ratings_same (s : Store) u l i its rs :
  ns s u !! l = Some its → its !! i = Some rs →
  put_ratings u l i rs s = touch u s.
Proof.
  intros Hl Hi. unfold put_ratings, items_at. rewrite Hl. simpl.
  rewrite (insert_id its i rs Hi). by apply put_list_same.
Qed.

(** ** What each method returns and leaves *)

Lemma in_user_run u l s : in_user u l s = (Ret (has_list s u l), touch u s).
Proof. reflexivity. Qed.

Lemma in_list_run u l i s :
  has_list s u l = true →
  in_list u l i s =
    (Ret (bool_decide (is_Some (items_at (ns s u) l !! i))), touch u s).
Proof.
  intros [its H]%has_list_true. unfold in_list, bind, data_list, ret.
  f_equal. unfold items_at. rewrite H. simpl. by apply put_list_same.
Qed.

Lemma list_exists_run u l s : list_exists u l s = (Ret (has_list s u l), touch u s).
Proof. reflexivity. Qed.

Lemma item_exists_run u l i s : item_exists u l i s = (Ret (has_item s u l i), touch u s).
Proof.
  unfold item_exists, bind. rewrite in_user_run. unfold has_item.
  destruct (has_list s u l) eqn:E; simpl; [|done].
  rewrite in_list_run by (by rewrite has_list_touch).
  by rewrite ns_touch, touch_touch.
Qed.

Lemma insert_touch u ls s : <[u := ls]> (touch u s) = <[u := ls]> s.
Proof. unfold touch. apply insert_insert_eq. Qed.

Lemma put_ratings_touch u l i rs s :
  put_ratings u l i rs (touch u s) = put_ratings u l i rs s.
Proof. unfold put_ratings. by rewrite ns_touch, insert_touch. Qed.

Lemma ratings_of_touch u v l i s : ratings_of (touch u s) v l i = ratings_of s v l i.
Proof. unfold ratings_of. by rewrite ns_touch. Qed.

Lemma ratings_of_absent s u l i : has_item s u l i = false → ratings_of s u l i = [].
Proof.
  unfold has_item, has_list, ratings_of, ratings_at, items_at.
  destruct (ns s u !! l) as [its|]; simpl.
  - rewrite bool_decide_eq_false, <- eq_None_not_Some. by intros ->.
  - by rewrite lookup_empty.
Qed.

Lemma data_item_run u l i s :
  data_item u l i s =
    (Ret (ratings_of s u l i), put_ratings u l i (ratings_of s u l i) s).
Proof. reflexivity. Qed.

Lemma item_append_run u l i r s :
  item_append u l i r s = (Ret tt, put_ratings u l i (ratings_of s u l i ++ [r]) s).
Proof. reflexivity. Qed.

Lemma list_setitem_run u l i rs s :
  list_setitem u l i rs s = (Ret tt, put_ratings u l i rs s).
Proof. reflexivity. Qed.

Lemma ratings_of_present s u l i its rs :
  ns s u !! l = Some its → its !! i = Some rs → ratings_of s u l i = rs.
Proof.
  intros Hl Hi. unfold ratings_of, items_at, ratings_at.
  rewrite Hl. simpl. by rewrite Hi.
Qed.

(** Reading the ratings of an item that exists changes nothing more than
    reading its user's namespace. *)
Lemma put_ratings_current s u l i :
  has_item s u l i = true → put_ratings u l i (ratings_of s u l i) s = touch u s.
Proof.
  intros (its & rs & Hl & Hi)%has_item_true.
  rewrite (ratings_of_present s u l i its rs Hl Hi).
  by apply (put_ratings_same s u l i its).
Qed.

Lemma create_list_run u l s :
  create_list u l s =
    (Ret tt, if has_list s u l then touch u s else <[u := <[l := ∅]> (ns s u)]> s).
Proof.
  unfold create_list, bind. rewrite in_user_run.
  destruct (has_list s u l); cbn; [done|].
  unfold user_setitem. by rewrite ns_touch, insert_touch.
Qed.

Lemma get_all_lists_run u s :
  get_all_lists u s = (Ret ((map_to_list (ns s u)).*1), touch u s).
Proof. reflexivity. Qed.

Lemma get_list_items_run u l s :
  get_list_items u l s = (Ret (items_at (ns s u) l), touch u s).
Proof.
  unfold get_list_items, bind. rewrite list_exists_run.
  destruct (has_list s u l) eqn:E; cbn.
  - apply has_list_true in E as [its E]. unfold data_list.
    rewrite ns_touch, insert_touch. f_equal.
    unfold items_at. rewrite E. cbn. by apply put_list_same.
  - apply has_list_false in E. unfold items_at. by rewrite E.
Qed.

Lemma add_item_run u l i s :
  add_item u l i s =
    (Ret tt, if has_item s u l i then touch u s else put_ratings u l i [] s).
Proof.
  unfold add_item, bind. rewrite list_exists_run. unfold has_item.
  destruct (has_list s u l) eqn:E; cbn.
  - rewrite in_list_run by (by rewrite has_list_touch).
    rewrite ns_touch, touch_touch.
    destruct (bool_decide _); cbn; [done|].
    by rewrite list_setitem_run, put_ratings_touch.
  - rewrite create_list_run, has_list_touch, E, ns_touch, insert_touch.
    apply has_list_false in E.
    unfold in_list, bind, data_list, ret, list_setitem, put_ratings.
    rewrite !ns_insert_eq, !insert_insert_eq. unfold items_at.
    rewrite !lookup_insert_eq, E. cbn.
    rewrite lookup_empty, bool_decide_eq_false_2 by (by intros [? ?]). cbn.
    by rewrite !ns_insert_eq, !lookup_insert_eq, !insert_insert_eq.
Qed.

Lemma get_item_ratings_run u l i s :
  get_item_ratings u l i s = (Ret (ratings_of s u l i), touch u s).
Proof.
  unfold get_item_ratings, bind. rewrite item_exists_run.
  destruct (has_item s u l i) eqn:E; cbn.
  - rewrite data_item_run, ratings_of_touch, put_ratings_touch.
    by rewrite put_ratings_current.
  - by rewrite ratings_of_absent.
Qed.


Lemma add_rating_run u l i rating comment s :
  add_rating u l i rating comment s =
    (Ret tt,
     if has_item s u l i && valid_score rating
     then put_ratings u l i (ratings_of s u l i ++ [(rating, comment)]) s
     else touch u s).
Proof.
  unfold add_rating, bind. rewrite item_exists_run. fold (valid_score rating).
  destruct (has_item s u l i); cbn; [|done].
  destruct (valid_score rating); cbn; [|done].
  by rewrite item_append_run, ratings_of_touch, put_ratings_touch.
Qed.

Lemma delete_list_run u l s :
  delete_list u l s =
    if has_list s u l then (Ret true, <[u := delete l (ns s u)]> s)
    else (Ret false, touch u s).
Proof.
  unfold delete_list, bind. rewrite list_exists_run.
  destruct (has_list s u l) eqn:E; cbn; [|done].
  apply has_list_true in E as [its E]. unfold user_delitem.
  by rewrite ns_touch, E, insert_touch.
Qed.

Lemma delete_item_run u l i s :
  delete_item u l i s =
    if has_item s u l i
    then (Ret true, <[u := <[l := delete i (items_at (ns s u) l)]> (ns s u)]> s)
    else (Ret false, touch u s).
Proof.
  unfold delete_item, bind. rewrite item_exists_run.
  destruct (has_item s u l i) eqn:E; cbn; [|done].
  apply has_item_true in E as (its & rs & Hl & Hi). unfold list_delitem.
  rewrite ns_touch, insert_touch. unfold items_at. rewrite Hl. cbn. by rewrite Hi.
Qed.


Lemma valid_index_spec k rs :
  valid_index k rs = true ↔ 0 ≤ k < Z.of_nat (length rs).
Proof.
  unfold valid_index. rewrite negb_true_iff, orb_false_iff, Z.ltb_ge, Z.leb_gt. lia.
Qed.

Lemma py_list_del_in_range {A} (k : Z) (a : list A) :
  0 ≤ k < Z.of_nat (length a) → py_list_del k a = Some (delete (Z.to_nat k) a).
Proof.
  intros H. unfold py_list_del.
  rewrite (proj2 (Z.ltb_ge k 0)) by lia.
  rewrite (proj2 (Z.leb_le 0 k)), (proj2 (Z.ltb_lt k _)) by lia. done.
Qed.

Lemma ratings_delitem_run u l i k s :
  valid_index k (ratings_of s u l i) = true →
  ratings_delitem u l i k s =
    (Ret tt, put_ratings u l i (delete (Z.to_nat k) (ratings_of s u l i)) s).
Proof.
  intros H%valid_index_spec. unfold ratings_delitem.
  fold (ratings_of s u l i). by rewrite py_list_del_in_range.
Qed.

Lemma delete_rating_run u l i k s :
  delete_rating u l i k s =
    if has_item s u l i && valid_index k (ratings_of s u l i)
    then (Ret true, put_ratings u l i (delete (Z.to_nat k) (ratings_of s u l i)) s)
    else (Ret false, touch u s).
Proof.
  unfold delete_rating, bind. rewrite item_exists_run.
  destruct (has_item s u l i) eqn:E; cbn; [|done].
  rewrite data_item_run, ratings_of_touch, put_ratings_touch.
  rewrite put_ratings_current by done.
  unfold valid_index at 1.
  destruct ((k <? 0) || (Z.of_nat (length (ratings_of s u l i)) <=? k)) eqn:Ek;
    cbn; [done|].
  rewrite ratings_delitem_run
    by (rewrite ratings_of_touch; unfold valid_index; by rewrite Ek).
  by rewrite ratings_of_touch, put_ratings_touch.
Qed.

Lemma clear_ratings_run u l i s :
  clear_ratings u l i s =
    if has_item s u l i then (Ret true, put_ratings u l i [] s)
    else (Ret false, touch u s).
Proof.
  unfold clear_ratings, bind. rewrite item_exists_run.
  destruct (has_item s u l i); cbn; [|done].
  by rewrite list_setitem_run, put_ratings_touch.
Qed.


Lemma get_average_rating_run u l i s :
  get_average_rating u l i s = (average (ratings_of s u l i), touch u s).
Proof.
  unfold get_average_rating, bind. rewrite get_item_ratings_run.
  unfold average. destruct (ratings_of s u l i) as [|r rs]; [done|].
  unfold eval. by destruct (true_divide _ _).
Qed.

(** ** The tests of the program, in terms of what the store holds *)

Lemma ns_Some s u ls : s !! u = Some ls → ns s u = ls.
Proof. intros H. unfold ns. by rewrite H. Qed.

Lemma ns_None s u : s !! u = None → ns s u = ∅.
Proof. intros H. unfold ns. by rewrite H. Qed.

Lemma has_list_lookup s u l :
  has_list s u l = true ↔ ∃ ls its, s !! u = Some ls ∧ ls !! l = Some its.
Proof.
  rewrite has_list_true. split.
  - intros [its H]. unfold ns in H. destruct (s !! u) as [ls|]; cbn in H.
    + eauto.
    + by rewrite lookup_empty in H.
  - intros (ls & its & Hu & Hl). rewrite (ns_Some s u ls Hu). eauto.
Qed.

Lemma has_item_lookup s u l i :
  has_item s u l i = true ↔
  ∃ ls its rs, s !! u = Some ls ∧ ls !! l = Some its ∧ its !! i = Some rs.
Proof.
  rewrite has_item_true. split.
  - intros (its & rs & Hl & Hi).
    assert (has_list s u l = true) as (ls & its' & Hu & Hl')%has_list_lookup
      by (apply has_list_true; eauto).
    rewrite (ns_Some s u ls Hu) in Hl. eauto 6.
  - intros (ls & its & rs & Hu & Hl & Hi). rewrite (ns_Some s u ls Hu). eauto.
Qed.

Lemma list_exists_result u l s b :
  result (list_exists u l) s = Ret b ↔ has_list s u l = b.
Proof. unfold result. rewrite list_exists_run. cbn. split; congruence. Qed.

Lemma item_exists_result u l i s b :
  result (item_exists u l i) s = Ret b ↔ has_item s u l i = b.
Proof. unfold result. rewrite item_exists_run. cbn. split; congruence. Qed.

Lemma get_item_ratings_result u l i s :
  result (get_item_ratings u l i) s = Ret (ratings_of s u l i).
Proof. unfold result. by rewrite get_item_ratings_run. Qed.

(** Evaluating [self.data[u]] leaves the store as it is, or gives [u] the
    empty namespace it did not have. *)
Lemma touch_cases u s :
  touch u s = s ∨ (s !! u = None ∧ touch u s = <[u := ∅]> s).
Proof.
  destruct (s !! u) as [ls|] eqn:E.
  - left. apply touch_present. eauto.
  - right. split; [done|]. unfold touch. by rewrite (ns_None s u E).
Qed.

Lemma put_ratings_lookup s u l i ls its rs :
  s !! u = Some ls → ls !! l = Some its →
  put_ratings u l i rs s = <[u := <[l := <[i := rs]> its]> ls]> s.
Proof.
  intros Hu Hl. unfold put_ratings, items_at.
  rewrite (ns_Some s u ls Hu), Hl. done.
Qed.

Lemma ratings_of_put_ratings_eq u l i rs s :
  ratings_of (put_ratings u l i rs s) u l i = rs.
Proof.
  unfold ratings_of, put_ratings, items_at, ratings_at.
  rewrite ns_insert_eq, lookup_insert_eq. cbn. by rewrite lookup_insert_eq.
Qed.

(** ** The properties of the specification *)

(** C1 (amended). [add_rating(u,l,i,s,c)] on an item that exists, with
    [0 <= s <= 10], appends exactly the pair [(s,c)] at the end of the
    item's ratings: the ratings before are kept in order, there is one more,
    and [get_item_ratings] then returns a sequence whose last element is
    [(s,c)].  When the item is absent or [s] is outside [0..10] the call
    raises nothing and changes no list, item or rating: the store is left as
    it was, except that a user [u] who had no namespace yet now has an empty
    one. *)
Theorem add_rating_appends_or_drops u l i rating comment s :
  (result (item_exists u l i) s = Ret true → 0 ≤ rating ≤ 10 →
   ∃ ls its rs,
     s !! u = Some ls ∧ ls !! l = Some its ∧ its !! i = Some rs ∧
     result (get_item_ratings u l i) s = Ret rs ∧
     add_rating u l i rating comment s =
       (Ret tt, <[u := <[l := <[i := rs ++ [(rating, comment)]]> its]> ls]> s) ∧
     result (get_item_ratings u l i) (exec (add_rating u l i rating comment) s)
       = Ret (rs ++ [(rating, comment)]) ∧
     last (rs ++ [(rating, comment)]) = Some (rating, comment) ∧
     take (length rs) (rs ++ [(rating, comment)]) = rs ∧
     length (rs ++ [(rating, comment)]) = S (length rs))
  ∧
  (result (item_exists u l i) s = Ret false ∨ ¬ (0 ≤ rating ≤ 10) →
   result (add_rating u l i rating comment) s = Ret tt ∧
   (exec (add_rating u l i rating comment) s = s ∨
    s !! u = None ∧ exec (add_rating u l i rating comment) s = <[u := ∅]> s)).
Proof.
  split.
  - intros E%item_exists_result Hr.
    pose proof E as (ls & its & rs & Hu & Hl & Hi)%has_item_lookup.
    exists ls, its, rs.
    assert (Hrs : ratings_of s u l i = rs).
    { apply (ratings_of_present s u l i its); [by rewrite (ns_Some s u ls)|done]. }
    assert (Hrun : add_rating u l i rating comment s =
      (Ret tt, put_ratings u l i (rs ++ [(rating, comment)]) s)).
    { rewrite add_rating_run, E, Hrs. unfold valid_score.
      rewrite (proj2 (Z.leb_le 0 rating)), (proj2 (Z.leb_le rating 10)) by lia. done. }
    split_and!; try done.
    + by rewrite get_item_ratings_result, Hrs.
    + by rewrite Hrun, (put_ratings_lookup s u l i ls its).
    + unfold exec. rewrite Hrun. cbn.
      by rewrite get_item_ratings_result, ratings_of_put_ratings_eq.
    + apply last_snoc.
    + apply take_app_length.
    + rewrite length_app. cbn. lia.
  - intros H.
    assert (Hrun : add_rating u l i rating comment s = (Ret tt, touch u s)).
    { rewrite add_rating_run. destruct H as [E%item_exists_result|Hr].
      - by rewrite E.
      - replace (valid_score rating) with false; [by rewrite andb_false_r|].
        symmetry. unfold valid_score. apply andb_false_iff.
        rewrite Z.leb_gt, Z.leb_gt. lia. }
    unfold result, exec. rewrite Hrun. cbn. split; [done|]. apply touch_cases.
Qed.

(** A user who was never seen rates an item that does not exist: the store
    gains the user's empty namespace. *)
Lemma add_rating_fresh_user_changes_store :
  result (item_exists (py "u") (py "l") (py "i")) init = Ret false ∧
  exec (add_rating (py "u") (py "l") (py "i") 5 []) init ≠ init.
Proof.
  split.
  - by apply item_exists_result.
  - unfold exec. rewrite add_rating_run.
    replace (has_item init (py "u") (py "l") (py "i")) with false by done.
    cbn. unfold touch, init. apply insert_non_empty.
Qed.

Lemma add_rating_appends_or_drops_witness :
  (∃ ls its rs,
     exec (add_item (py "A") (py "Movies") (py "Dune")) init !! py "A" = Some ls ∧
     ls !! py "Movies" = Some its ∧ its !! py "Dune" = Some rs ∧
     result (get_item_ratings (py "A") (py "Movies") (py "Dune"))
       (exec (add_rating (py "A") (py "Movies") (py "Dune") 7 (py "great"))
          (exec (add_item (py "A") (py "Movies") (py "Dune")) init))
       = Ret (rs ++ [(7, py "great")])) ∧
  result (add_rating (py "A") (py "Movies") (py "Dune") 11 []) init = Ret tt.
Proof.
  split.
  - destruct (proj1 (add_rating_appends_or_drops (py "A") (py "Movies") (py "Dune")
      7 (py "great") (exec (add_item (py "A") (py "Movies") (py "Dune")) init)))
      as (ls & its & rs & Hu & Hl & Hi & _ & _ & Hget & _).
    + vm_compute. reflexivity.
    + lia.
    + exists ls, its, rs. auto.
  - apply (proj2 (add_rating_appends_or_drops (py "A") (py "Movies") (py "Dune")
      11 [] init)).
    right. lia.
Defined.

(** C2 (amended). [delete_rating(u,l,i,k)] on an item that exists, with
    [0 <= k < len(ratings)], returns true and removes exactly the rating at
    index [k]: the ratings at the indices below [k] stay where they are and
    each rating at an index above [k] moves down by one.  When the item is
    absent or [k] is outside [0, len) it returns false and changes no list,
    item or rating: the ratings of the item are the same, and the store is
    left as it was, except that a user [u] who had no namespace yet now has
    an empty one. *)
Theorem delete_rating_removes_or_refuses u l i k s :
  (∀ rs, result (item_exists u l i) s = Ret true →
     result (get_item_ratings u l i) s = Ret rs →
     0 ≤ k < Z.of_nat (length rs) →
     ∃ ls its rs',
       s !! u = Some ls ∧ ls !! l = Some its ∧ its !! i = Some rs ∧
       delete_rating u l i k s = (Ret true, <[u := <[l := <[i := rs']> its]> ls]> s) ∧
       result (get_item_ratings u l i) (exec (delete_rating u l i k) s) = Ret rs' ∧
       rs' = take (Z.to_nat k) rs ++ drop (S (Z.to_nat k)) rs ∧
       S (length rs') = length rs ∧
       (∀ j : nat, (j < Z.to_nat k)%nat → rs' !! j = rs !! j) ∧
       (∀ j : nat, (Z.to_nat k ≤ j)%nat → rs' !! j = rs !! S j))
  ∧
  (result (item_exists u l i) s = Ret false ∨
   (∃ rs, result (get_item_ratings u l i) s = Ret rs ∧
          ¬ (0 ≤ k < Z.of_nat (length rs))) →
   result (delete_rating u l i k) s = Ret false ∧
   result (get_item_ratings u l i) (exec (delete_rating u l i k) s)
     = result (get_item_ratings u l i) s ∧
   (exec (delete_rating u l i k) s = s ∨
    s !! u = None ∧ exec (delete_rating u l i k) s = <[u := ∅]> s)).
Proof.
  split.
  - intros rs E%item_exists_result Hget Hk.
    rewrite get_item_ratings_result in Hget. injection Hget as Hrs.
    pose proof E as (ls & its & rs0 & Hu & Hl & Hi)%has_item_lookup.
    assert (rs0 = rs) as ->.
    { rewrite <- Hrs. symmetry.
      apply (ratings_of_present s u l i its); [by rewrite (ns_Some s u ls)|done]. }
    exists ls, its, (delete (Z.to_nat k) rs).
    assert (Hrun : delete_rating u l i k s =
      (Ret true, put_ratings u l i (delete (Z.to_nat k) rs) s)).
    { rewrite delete_rating_run, E, Hrs.
      by rewrite (proj2 (valid_index_spec k rs)). }
    split_and!; try done.
    + by rewrite Hrun, (put_ratings_lookup s u l i ls its).
    + unfold exec. rewrite Hrun. cbn.
      by rewrite get_item_ratings_result, ratings_of_put_ratings_eq.
    + apply delete_take_drop.
    + rewrite length_delete by (apply lookup_lt_is_Some; lia).
      assert (0 < length rs)%nat by lia. lia.
    + intros j Hj. by apply list_lookup_delete_lt.
    + intros j Hj. by apply list_lookup_delete_ge.
  - intros H.
    assert (Hrun : delete_rating u l i k s = (Ret false, touch u s)).
    { rewrite delete_rating_run. destruct H as [E%item_exists_result|(rs & Hget & Hk)].
      - by rewrite E.
      - rewrite get_item_ratings_result in Hget. injection Hget as Hrs.
        replace (valid_index k (ratings_of s u l i)) with false;
          [by rewrite andb_false_r|].
        symmetry. apply not_true_is_false. rewrite valid_index_spec, Hrs. done. }
    unfold result, exec. rewrite Hrun. cbn. split_and!; [done| |apply touch_cases].
    by rewrite !get_item_ratings_run, ratings_of_touch.
Qed.

(** A user who was never seen deletes a rating of an item that does not
    exist: the call returns false, and the store gains the user's empty
    namespace. *)
Lemma delete_rating_fresh_user_changes_store :
  result (item_exists (py "u") (py "l") (py "i")) init = Ret false ∧
  result (delete_rating (py "u") (py "l") (py "i") 0) init = Ret false ∧
  exec (delete_rating (py "u") (py "l") (py "i") 0) init ≠ init.
Proof.
  split_and!.
  - by apply item_exists_result.
  - unfold result. by rewrite delete_rating_run.
  - unfold exec. rewrite delete_rating_run.
    replace (has_item init (py "u") (py "l") (py "i")) with false by done.
    cbn. unfold touch, init. apply insert_non_empty.
Qed.

Lemma delete_rating_removes_or_refuses_witness :
  (∃ ls its rs',
     example_store !! py "A" = Some ls ∧ ls !! py "Movies" = Some its ∧
     result (get_item_ratings (py "A") (py "Movies") (py "Dune"))
       (exec (delete_rating (py "A") (py "Movies") (py "Dune") 1) example_store)
       = Ret rs' ∧
     rs' = [(3, py "a"); (9, py "c")]) ∧
  result (delete_rating (py "A") (py "Movies") (py "Dune") 3) example_store
    = Ret false.
Proof.
  split.
  - destruct (proj1 (delete_rating_removes_or_refuses (py "A") (py "Movies")
      (py "Dune") 1 example_store) [(3, py "a"); (5, py "b"); (9, py "c")])
      as (ls & its & rs' & Hu & Hl & Hi & _ & Hget & Hrs & _).
    + vm_compute. reflexivity.
    + vm_compute. reflexivity.
    + cbn. lia.
    + exists ls, its, rs'. split_and!; auto.
  - apply (proj2 (delete_rating_removes_or_refuses (py "A") (py "Movies")
      (py "Dune") 3 example_store)).
    right. exists [(3, py "a"); (5, py "b"); (9, py "c")]. split.
    + vm_compute. reflexivity.
    + cbn. lia.
Defined.

Lemma on_store_run {A} (m : St A) (w : World) :
  on_store m w = ((m (store w)).1, {| store := (m (store w)).2; sent := sent w |}).
Proof. unfold on_store. by destruct (m (store w)). Qed.

(** C3 (amended). When the list [n] already exists for [u], the method
    [create_list(u,n)] of the store is a no-op: the store is the same, it
    holds exactly one list named [n], whose items and ratings are the same.
    The method returns nothing, for a duplicate as for a creation.  The
    duplicate is signalled by the handler [create_list] of the conversation,
    which asks [list_exists] first: for a duplicate it leaves the store
    unchanged, replies that the list already exists and returns the state
    [CREATE_LIST]; otherwise it creates the list, replies that it did and
    returns [ConversationHandler.END], a different value. *)
Theorem create_list_duplicate u n s :
  (result (list_exists u n) s = Ret true →
   DataStore.create_list u n s = (Ret tt, s) ∧
   (∃ names, result (get_all_lists u) (exec (DataStore.create_list u n) s) = Ret names ∧
             n ∈ names ∧ NoDup names) ∧
   result (get_list_items u n) (exec (DataStore.create_list u n) s)
     = result (get_list_items u n) s ∧
   ∀ update context w,
     message update = Some {| text := Some n |} →
     str_of_int (user_id (effective_user update)) = u →
     store w = s →
     Handlers.create_list update context w =
       (Ret Handlers.CREATE_LIST,
        {| store := s; sent := sent w ++ [Handlers.already_exists n] |}))
  ∧
  (result (list_exists u n) s = Ret false →
   result (DataStore.create_list u n) s = Ret tt ∧
   result (list_exists u n) (exec (DataStore.create_list u n) s) = Ret true ∧
   ∀ update context w,
     message update = Some {| text := Some n |} →
     str_of_int (user_id (effective_user update)) = u →
     store w = s →
     Handlers.create_list update context w =
       (Ret Handlers.END,
        {| store := exec (DataStore.create_list u n) s;
           sent := sent w ++ [Handlers.created n] |}))
  ∧ Handlers.CREATE_LIST ≠ Handlers.END.
Proof.
  split_and!.
  - intros E%list_exists_result.
    assert (Hs : touch u s = s) by (apply touch_present; eauto using has_list_user).
    assert (Hrun : DataStore.create_list u n s = (Ret tt, s)).
    { by rewrite create_list_run, E, Hs. }
    unfold exec. rewrite Hrun. cbn. split_and!; try done.
    + exists ((map_to_list (ns s u)).*1). split_and!.
      * unfold result. by rewrite get_all_lists_run.
      * apply has_list_true in E as [its E].
        apply list_elem_of_fmap. exists (n, its). split; [done|].
        by apply elem_of_map_to_list.
      * apply NoDup_fst_map_to_list.
    + intros update context w Hm Hid Hw. unfold Handlers.create_list.
      rewrite Hm. cbn. rewrite Hid. unfold bind.
      rewrite on_store_run, Hw, list_exists_run, E, Hs. reflexivity.
  - intros E%list_exists_result.
    assert (Hrun : DataStore.create_list u n s =
      (Ret tt, <[u := <[n := ∅]> (ns s u)]> s)).
    { by rewrite create_list_run, E. }
    unfold result at 1. unfold exec. rewrite Hrun. cbn. split_and!; [done| |].
    + apply list_exists_result. apply has_list_true.
      rewrite ns_insert_eq, lookup_insert_eq. eauto.
    + intros update context w Hm Hid Hw. unfold Handlers.create_list.
      rewrite Hm. cbn. rewrite Hid. unfold bind.
      rewrite on_store_run, Hw, list_exists_run, E. cbn.
      rewrite on_store_run. cbn.
      rewrite create_list_run, has_list_touch, E, ns_touch, insert_touch.
      reflexivity.
  - done.
Qed.

(** The method of the store returns the same thing for a name that exists
    and for one that does not: nothing computed from what it returns tells a
    duplicate from a creation. *)
Lemma create_list_returns_no_signal :
  result (list_exists (py "A") (py "Movies")) example_store = Ret true ∧
  result (list_exists (py "A") (py "Books")) example_store = Ret false ∧
  ∀ already_exists : res unit → bool,
    already_exists (result (DataStore.create_list (py "A") (py "Movies")) example_store)
    = already_exists (result (DataStore.create_list (py "A") (py "Books")) example_store).
Proof.
  split_and!.
  - vm_compute. reflexivity.
  - vm_compute. reflexivity.
  - intros f. unfold result. by rewrite !create_list_run.
Qed.

Lemma create_list_duplicate_witness :
  (∀ w, store w = exec (add_item (py "7") (py "Movies") (py "Dune")) init →
     Handlers.create_list
       {| effective_chat := {| chat_id := 1; chat_type := py "private" |};
          effective_user := {| user_id := 7 |};
          message := Some {| text := Some (py "Movies") |} |}
       {| get_chat_member := λ _ _, LookupFailed [] |} w
     = (Ret Handlers.CREATE_LIST,
        {| store := exec (add_item (py "7") (py "Movies") (py "Dune")) init;
           sent := sent w ++ [Handlers.already_exists (py "Movies")] |})) ∧
  result (DataStore.create_list (py "A") (py "Books")) example_store = Ret tt.
Proof.
  split.
  - intros w Hw.
    apply (proj1 (create_list_duplicate (py "7") (py "Movies")
      (exec (add_item (py "7") (py "Movies") (py "Dune")) init))).
    + vm_compute. reflexivity.
    + reflexivity.
    + vm_compute. reflexivity.
    + exact Hw.
  - apply (proj1 (proj2 (create_list_duplicate (py "A") (py "Books") example_store))).
    vm_compute. reflexivity.
Defined.

(** ** The lists of a user after a change

    Every method leaves the store as it was (up to the namespace of the
    user), or sets or deletes one list of one user; [ns s v !! m], the list
    [m] of the user [v], tells what [has_list], [has_item] and [ratings_of]
    answer. *)

Lemma ns_lookup_set s u l (X : Items) v m :
  ns (<[u := <[l := X]> (ns s u)]> s) v !! m =
    if decide (u = v ∧ l = m) then Some X else ns s v !! m.
Proof.
  destruct (decide (u = v)) as [->|Hu].
  - rewrite ns_insert_eq. destruct (decide (l = m)) as [->|Hl].
    + rewrite lookup_insert_eq. by rewrite decide_True.
    + rewrite lookup_insert_ne by done. rewrite decide_False; [done|]. by intros [_ ?].
  - rewrite ns_insert_ne by done. rewrite decide_False; [done|]. by intros [? _].
Qed.

Lemma ns_lookup_del s u l v m :
  ns (<[u := delete l (ns s u)]> s) v !! m =
    if decide (u = v ∧ l = m) then None else ns s v !! m.
Proof.
  destruct (decide (u = v)) as [->|Hu].
  - rewrite ns_insert_eq. destruct (decide (l = m)) as [->|Hl].
    + rewrite lookup_delete_eq. by rewrite decide_True.
    + rewrite lookup_delete_ne by done. rewrite decide_False; [done|]. by intros [_ ?].
  - rewrite ns_insert_ne by done. rewrite decide_False; [done|]. by intros [? _].
Qed.

Lemma has_list_view s v m :
  has_list s v m = bool_decide (is_Some (ns s v !! m)).
Proof. reflexivity. Qed.

Lemma has_item_view s v m j :
  has_item s v m j =
    match ns s v !! m with
    | Some its => bool_decide (is_Some (its !! j))
    | None => false
    end.
Proof.
  unfold has_item, has_list, items_at. destruct (ns s v !! m) as [its|].
  - by rewrite (bool_decide_eq_true_2 (is_Some (Some its))) by eauto.
  - by rewrite (bool_decide_eq_false_2 (is_Some None)) by (by intros [? ?]).
Qed.

Lemma ratings_of_view s v m j :
  ratings_of s v m j =
    match ns s v !! m with
    | Some its => default [] (its !! j)
    | None => []
    end.
Proof.
  unfold ratings_of, items_at, ratings_at. destruct (ns s v !! m); cbn; [done|].
  by rewrite lookup_empty.
Qed.

Lemma ns_lookup_Some s u l its :
  ns s u !! l = Some its ↔ ∃ ls, s !! u = Some ls ∧ ls !! l = Some its.
Proof.
  unfold ns. destruct (s !! u) as [ls|]; cbn.
  - split; [eauto|]. by intros (? & [= <-] & ?).
  - rewrite lookup_empty. split; [done|]. by intros (? & ? & ?).
Qed.

(** *** The scores stay between 0 and 10 *)

Lemma scores_in_range_lists s : scores_in_range s ↔ lists_in_range s.
Proof.
  split.
  - intros H v m its (ls & Hu & Hl)%ns_lookup_Some j rs r Hj Hr. eauto.
  - intros H u l i ls its rs r Hu Hl Hi Hr.
    apply (H u l its) with i rs; [|done..]. apply ns_lookup_Some. eauto.
Qed.

Lemma items_in_range_empty : items_in_range ∅.
Proof. intros j rs r H. by rewrite lookup_empty in H. Qed.

Lemma items_in_range_at s u l : lists_in_range s → items_in_range (items_at (ns s u) l).
Proof.
  intros H. unfold items_at. destruct (ns s u !! l) as [its|] eqn:E; cbn.
  - by apply (H u l).
  - apply items_in_range_empty.
Qed.

Lemma ratings_of_in_range s u l i r :
  lists_in_range s → r ∈ ratings_of s u l i → 0 ≤ r.1 ≤ 10.
Proof.
  intros H. rewrite ratings_of_view.
  destruct (ns s u !! l) as [its|] eqn:E; [|by intros ?%elem_of_nil].
  destruct (its !! i) as [rs|] eqn:Ei; cbn; [|by intros ?%elem_of_nil].
  by apply (H u l its E i rs).
Qed.

Lemma items_in_range_insert X i rs :
  items_in_range X → (∀ r, r ∈ rs → 0 ≤ r.1 ≤ 10) → items_in_range (<[i := rs]> X).
Proof.
  intros HX Hrs j rs' r. rewrite lookup_insert. case_decide.
  - intros [= <-]. apply Hrs.
  - apply HX.
Qed.

Lemma items_in_range_delete X i : items_in_range X → items_in_range (delete i X).
Proof.
  intros HX j rs r. rewrite lookup_delete. case_decide; [done|]. apply HX.
Qed.

Lemma lists_in_range_touch u s : lists_in_range s → lists_in_range (touch u s).
Proof. intros H v m its. rewrite ns_touch. apply H. Qed.

Lemma lists_in_range_set s u l X :
  lists_in_range s → items_in_range X →
  lists_in_range (<[u := <[l := X]> (ns s u)]> s).
Proof.
  intros H HX v m its. rewrite ns_lookup_set. case_decide.
  - by intros [= <-].
  - apply H.
Qed.

Lemma lists_in_range_del s u l :
  lists_in_range s → lists_in_range (<[u := delete l (ns s u)]> s).
Proof.
  intros H v m its. rewrite ns_lookup_del. case_decide; [done|]. apply H.
Qed.

Lemma lists_in_range_put_ratings s u l i rs :
  lists_in_range s → (∀ r, r ∈ rs → 0 ≤ r.1 ≤ 10) →
  lists_in_range (put_ratings u l i rs s).
Proof.
  intros H Hrs. apply lists_in_range_set; [done|].
  apply items_in_range_insert; [by apply items_in_range_at|done].
Qed.

Lemma valid_score_spec rating : valid_score rating = true ↔ 0 ≤ rating ≤ 10.
Proof. unfold valid_score. rewrite andb_true_iff, !Z.leb_le. done. Qed.

Lemma perform_in_range c s : lists_in_range s → lists_in_range (perform c s).
Proof.
  intros H. destruct c; unfold perform, exec.
  - rewrite create_list_run. cbn. destruct (has_list s u l).
    + by apply lists_in_range_touch.
    + apply lists_in_range_set; [done|apply items_in_range_empty].
  - rewrite list_exists_run. by apply lists_in_range_touch.
  - rewrite get_all_lists_run. by apply lists_in_range_touch.
  - rewrite add_item_run. cbn. destruct (has_item s u l i).
    + by apply lists_in_range_touch.
    + apply lists_in_range_put_ratings; [done|]. by intros r ?%elem_of_nil.
  - rewrite item_exists_run. by apply lists_in_range_touch.
  - rewrite get_list_items_run. by apply lists_in_range_touch.
  - rewrite add_rating_run. cbn.
    destruct (has_item s u l i); cbn; [|by apply lists_in_range_touch].
    destruct (valid_score rating) eqn:Ev; [|by apply lists_in_range_touch].
    apply lists_in_range_put_ratings; [done|].
    intros r [Hr|Hr%list_elem_of_singleton]%elem_of_app.
    + by apply (ratings_of_in_range s u l i).
    + subst r. cbn. by apply valid_score_spec.
  - rewrite get_item_ratings_run. by apply lists_in_range_touch.
  - rewrite get_average_rating_run. by apply lists_in_range_touch.
  - rewrite delete_list_run. destruct (has_list s u l); cbn.
    + by apply lists_in_range_del.
    + by apply lists_in_range_touch.
  - rewrite delete_item_run. destruct (has_item s u l i); cbn.
    + apply lists_in_range_set; [done|].
      apply items_in_range_delete. by apply items_in_range_at.
    + by apply lists_in_range_touch.
  - rewrite delete_rating_run.
    destruct (has_item s u l i && valid_index rating_index (ratings_of s u l i)); cbn.
    + apply lists_in_range_put_ratings; [done|].
      intros r Hr. apply (ratings_of_in_range s u l i); [done|].
      rewrite delete_take_drop in Hr.
      apply elem_of_app in Hr as [Hr|Hr].
      * by apply (subseteq_take (Z.to_nat rating_index)).
      * by apply (subseteq_drop (S (Z.to_nat rating_index))).
    + by apply lists_in_range_touch.
  - rewrite clear_ratings_run. destruct (has_item s u l i); cbn.
    + apply lists_in_range_put_ratings; [done|]. by intros r ?%elem_of_nil.
    + by apply lists_in_range_touch.
Qed.

Lemma perform_all_in_range cs s :
  lists_in_range s → lists_in_range (perform_all cs s).
Proof.
  revert s. induction cs as [|c cs IH]; intros s H; cbn; [done|].
  apply IH. by apply perform_in_range.
Qed.

(** C4. Every method keeps the scores in range: if every rating held in the
    store has a score between 0 and 10 before a call, with any arguments,
    the same holds after it.  So, starting from the empty store, after any
    sequence of calls every rating held under any user, list and item has a
    score between 0 and 10. *)
Theorem scores_always_in_range :
  (∀ (c : call) s, scores_in_range s → scores_in_range (perform c s))
  ∧
  (∀ cs : list call, scores_in_range (perform_all cs init)).
Proof.
  split.
  - intros c s H. by apply scores_in_range_lists, perform_in_range, scores_in_range_lists.
  - intros cs. apply scores_in_range_lists, perform_all_in_range.
    intros v m its H. unfold init, ns in H. by rewrite lookup_empty in H.
Qed.

Lemma scores_always_in_range_witness :
  scores_in_range
    (perform (AddRating (py "A") (py "Movies") (py "Dune") 11 (py "too good"))
       example_store) ∧
  scores_in_range
    (perform_all (example_calls ++
       [AddRating (py "A") (py "Movies") (py "Dune") (-1) []]) init).
Proof.
  split.
  - apply (proj1 scores_always_in_range).
    apply (proj2 scores_always_in_range example_calls).
  - apply (proj2 scores_always_in_range).
Defined.

(** ** The average *)

Lemma foldl_add_shift (xs : list Z) (a : Z) : foldl Z.add a xs = a + foldl Z.add 0 xs.
Proof.
  revert a. induction xs as [|x xs IH]; intros a; cbn; [lia|].
  rewrite (IH (a + x)), (IH (0 + x)). lia.
Qed.

Lemma sum_Z_cons (x : Z) (xs : list Z) : sum_Z (x :: xs) = x + sum_Z xs.
Proof. unfold sum_Z. cbn. apply foldl_add_shift. Qed.

Lemma sum_Z_foldr (xs : list Z) : sum_Z xs = foldr Z.add 0 xs.
Proof.
  induction xs as [|x xs IH]; [done|]. rewrite sum_Z_cons, IH. done.
Qed.

(** ** The quotient of two integers as a float *)

Lemma shift_pos (x k : Z) : 0 < x → 0 < shift x k.
Proof. intros. unfold shift. apply Z.mul_pos_pos; [done|]. apply Z.pow_pos_nonneg; lia. Qed.

Lemma shift_ratio (a n k j : Z) :
  k ≤ j → shift a (- k) * shift n j = 2 ^ (j - k) * (shift a (- j) * shift n k).
Proof.
  intros H. unfold shift.
  transitivity (a * n * (2 ^ Z.max 0 (- k) * 2 ^ Z.max 0 j)); [ring|].
  transitivity (a * n * (2 ^ (j - k) * (2 ^ Z.max 0 (- j) * 2 ^ Z.max 0 k))); [|ring].
  f_equal. rewrite <- !Z.pow_add_r by lia. f_equal. lia.
Qed.

Lemma round_half_even_near (a b : Z) :
  0 < b → Z.abs (2 * (round_half_even a b * b - a)) ≤ b.
Proof.
  intros Hb. unfold round_half_even.
  pose proof (Z.div_mod a b ltac:(lia)) as Hd.
  pose proof (Z.mod_pos_bound a b Hb) as Hm.
  destruct (Z.compare_spec (2 * (a mod b)) b); [destruct (Z.even (a / b))|..]; nia.
Qed.

Lemma round_half_even_nearest (a b N : Z) :
  0 < b → Z.abs (round_half_even a b * b - a) ≤ Z.abs (N * b - a).
Proof.
  intros Hb. pose proof (round_half_even_near a b Hb) as H.
  destruct (Z.eq_dec N (round_half_even a b)) as [->|Hne]; [lia|].
  nia.
Qed.

Lemma round_half_even_le (a b N : Z) :
  0 < b → a ≤ N * b → round_half_even a b ≤ N.
Proof. intros Hb H. pose proof (round_half_even_near a b Hb). nia. Qed.

Lemma round_half_even_ge (a b N : Z) :
  0 < b → N * b ≤ a → N ≤ round_half_even a b.
Proof. intros Hb H. pose proof (round_half_even_near a b Hb). nia. Qed.

Lemma ilog2_quot_spec (a n : Z) :
  0 < a → 0 < n →
  let E := ilog2_quot a n in
  shift n E ≤ shift a (- E) < 2 * shift n E.
Proof.
  intros Ha Hn. unfold ilog2_quot.
  set (L := Z.log2 a - Z.log2 n).
  pose proof (Z.log2_spec a Ha) as [Ha1 Ha2].
  pose proof (Z.log2_spec n Hn) as [Hn1 Hn2].
  pose proof (Z.log2_nonneg a). pose proof (Z.log2_nonneg n).
  rewrite Z.pow_succ_r in Ha2, Hn2 by done.
  set (t := Z.max (Z.log2 a) (Z.log2 n)).
  assert (2 ^ Z.log2 a * 2 ^ Z.max 0 (- L) = 2 ^ t) as HA
    by (rewrite <- Z.pow_add_r by lia; f_equal; lia).
  assert (2 ^ Z.log2 n * 2 ^ Z.max 0 L = 2 ^ t) as HB
    by (rewrite <- Z.pow_add_r by lia; f_equal; lia).
  assert (0 < 2 ^ Z.max 0 (- L)) by (apply Z.pow_pos_nonneg; lia).
  assert (0 < 2 ^ Z.max 0 L) by (apply Z.pow_pos_nonneg; lia).
  assert (2 ^ t ≤ shift a (- L) < 2 * 2 ^ t) as HAL by (unfold shift; nia).
  assert (2 ^ t ≤ shift n L < 2 * 2 ^ t) as HBL by (unfold shift; nia).
  destruct (Z.leb_spec (shift n L) (shift a (- L))) as [Hle|Hlt]; cbv zeta.
  - lia.
  - pose proof (shift_ratio a n (L - 1) L ltac:(lia)) as Hr.
    replace (L - (L - 1)) with 1 in Hr by lia. change (2 ^ 1) with 2 in Hr.
    pose proof (shift_pos n (L - 1) Hn). pose proof (shift_pos n L Hn).
    pose proof (shift_pos a (- (L - 1)) Ha).
    split; nia.
Qed.

Lemma mantissa_range (a n : Z) :
  0 < a → 0 < n →
  let e := Z.max (ilog2_quot a n - 52) (-1074) in
  shift a (- e) < 2 ^ 53 * shift n e ∧
  (-1074 < e → 2 ^ 52 * shift n e ≤ shift a (- e)).
Proof.
  intros Ha Hn e. pose proof (ilog2_quot_spec a n Ha Hn) as HE. cbv zeta in HE.
  set (E := ilog2_quot a n) in *.
  pose proof (shift_pos n E Hn) as HBE. pose proof (shift_pos n e Hn) as HBe.
  pose proof (shift_pos n (E - 52) Hn) as HB52.
  pose proof (shift_pos a (- e) Ha) as HAe.
  pose proof (shift_ratio a n (E - 52) E ltac:(lia)) as Hr.
  replace (E - (E - 52)) with 52 in Hr by lia.
  assert (2 ^ 52 * shift n (E - 52) ≤ shift a (- (E - 52)) < 2 ^ 53 * shift n (E - 52))
    as H52.
  { change (2 ^ 53) with (2 * 2 ^ 52). split; nia. }
  split.
  - pose proof (shift_ratio a n (E - 52) e ltac:(lia)) as Hr'.
    assert (1 ≤ 2 ^ (e - (E - 52))) as HD by (apply (Z.pow_le_mono_r 2 0); lia).
    set (D := 2 ^ (e - (E - 52))) in *.
    set (A' := shift a (- (E - 52))) in *. set (B' := shift n (E - 52)) in *.
    set (A := shift a (- e)) in *. set (B := shift n e) in *.
    assert (D * A * B' < 2 ^ 53 * B * B') as H1.
    { replace (D * A * B') with (A' * B) by lia.
      rewrite <- Z.mul_assoc, (Z.mul_comm B B'), Z.mul_assoc.
      apply Z.mul_lt_mono_pos_r; lia. }
    apply Z.mul_lt_mono_pos_r in H1; [|done].
    apply Z.le_lt_trans with (D * A); [|done].
    rewrite <- (Z.mul_1_l A) at 1. apply Z.mul_le_mono_nonneg_r; lia.
  - intros He. replace e with (E - 52) by lia. lia.
Qed.

Lemma double_mantissa_spec (a n : Z) :
  0 < a → 0 < n →
  let '(m, e) := double_mantissa a n in
  0 ≤ m < 2 ^ 53 ∧ -1074 ≤ e ∧ (-1074 < e → 2 ^ 52 ≤ m) ∧
  (∀ M k : Z, Z.abs M < 2 ^ 53 → -1074 ≤ k →
     Z.abs (m * 2 ^ (e + 1074) * n - a * 2 ^ 1074)
     ≤ Z.abs (M * 2 ^ (k + 1074) * n - a * 2 ^ 1074)).
Proof.
  intros Ha Hn. unfold double_mantissa.
  set (e := Z.max (ilog2_quot a n - 52) (-1074)).
  set (A := shift a (- e)). set (B := shift n e).
  set (m := round_half_even A B).
  destruct (mantissa_range a n Ha Hn) as [Hup Hlow]. fold e A B in Hup, Hlow.
  assert (0 < B) as HB by (apply shift_pos; done).
  assert (0 < A) as HA by (apply shift_pos; done).
  assert (0 ≤ m ≤ 2 ^ 53) as Hm.
  { split; [apply round_half_even_ge; lia|apply round_half_even_le; lia]. }
  assert (-1074 ≤ e) as He by lia.
  set (P := 2 ^ (1074 - Z.max 0 (- e))).
  assert (0 < P) as HP by (apply Z.pow_pos_nonneg; lia).
  assert (∀ N : Z, N * 2 ^ (e + 1074) * n - a * 2 ^ 1074 = (N * B - A) * P) as Hunits.
  { intros N. unfold A, B, P, shift.
    transitivity (N * n * (2 ^ Z.max 0 e * 2 ^ (1074 - Z.max 0 (- e)))
                  - a * (2 ^ Z.max 0 (- e) * 2 ^ (1074 - Z.max 0 (- e)))); [|ring].
    rewrite <- !Z.pow_add_r by lia.
    replace (Z.max 0 e + (1074 - Z.max 0 (- e))) with (e + 1074) by lia.
    replace (Z.max 0 (- e) + (1074 - Z.max 0 (- e))) with 1074 by lia. ring. }
  assert (∀ M k : Z, Z.abs M < 2 ^ 53 → -1074 ≤ k →
     Z.abs (m * 2 ^ (e + 1074) * n - a * 2 ^ 1074)
     ≤ Z.abs (M * 2 ^ (k + 1074) * n - a * 2 ^ 1074)) as Hnear.
  { intros M k HM Hk. rewrite (Hunits m).
    destruct (Z.le_gt_cases e k) as [Hek|Hke].
    - replace (M * 2 ^ (k + 1074)) with (M * 2 ^ (k - e) * 2 ^ (e + 1074)).
      + rewrite (Hunits (M * 2 ^ (k - e))). rewrite !Z.abs_mul.
        apply Z.mul_le_mono_nonneg_r; [lia|].
        apply round_half_even_nearest. done.
      + rewrite <- Z.mul_assoc, <- Z.pow_add_r by lia. do 2 f_equal. lia.
    - specialize (Hlow ltac:(lia)).
      pose proof (round_half_even_nearest A B (2 ^ 52) HB) as Hn52.
      pose proof (Hunits (2 ^ 52)) as H52.
      assert (M * 2 ^ (k + 1074) ≤ 2 ^ 52 * 2 ^ (e + 1074)) as Hg.
      { replace (e + 1074) with ((e - k - 1) + (1 + (k + 1074))) by lia.
        rewrite (Z.pow_add_r 2 (e - k - 1)), (Z.pow_add_r 2 1 (k + 1074)) by lia.
        change (2 ^ 1) with 2.
        assert (0 < 2 ^ (k + 1074)) by (apply Z.pow_pos_nonneg; lia).
        assert (1 ≤ 2 ^ (e - k - 1)) by (apply (Z.pow_le_mono_r 2 0); lia).
        change (2 ^ 53) with (2 * 2 ^ 52) in HM.
        assert (0 < 2 ^ 52) by done.
        set (X := 2 ^ (k + 1074)) in *. set (D := 2 ^ (e - k - 1)) in *.
        set (T := 2 ^ 52) in *.
        apply Z.le_trans with (2 * T * X); [nia|].
        replace (T * (D * (2 * X))) with (D * (2 * T * X)) by ring.
        rewrite <- (Z.mul_1_l (2 * T * X)) at 1.
        apply Z.mul_le_mono_nonneg_r; lia. }
      assert (0 ≤ A - 2 ^ 52 * B) by lia.
      nia. }
  destruct (Z.eqb_spec m (2 ^ 53)) as [E53|N53].
  - split; [done|]. split; [lia|]. split; [done|]. intros M k HM Hk.
    specialize (Hnear M k HM Hk). rewrite E53 in Hnear.
    replace (2 ^ 52 * 2 ^ (e + 1 + 1074)) with (2 ^ 53 * 2 ^ (e + 1074)); [done|].
    replace (e + 1 + 1074) with (1 + (e + 1074)) by lia.
    rewrite (Z.pow_add_r 2 1 (e + 1074)) by lia. change (2 ^ 53) with (2 ^ 52 * 2 ^ 1). ring.
  - split; [lia|]. split; [lia|]. split; [|done].
    intros He'. apply round_half_even_ge; [done|]. apply Hlow. done.
Qed.

Lemma double_mantissa_le (a n C : Z) :
  0 < a → 0 < n → 0 < C < 2 ^ 53 → a ≤ C * n →
  let '(m, e) := double_mantissa a n in
  m * 2 ^ (e + 1074) ≤ C * 2 ^ 1074 ∧ e ≤ 1.
Proof.
  intros Ha Hn HC Hle. unfold double_mantissa.
  pose proof (ilog2_quot_spec a n Ha Hn) as HE. cbv zeta in HE.
  set (E := ilog2_quot a n) in *.
  assert (E ≤ 52) as HE52.
  { destruct (Z.le_gt_cases E 52) as [|Hgt]; [done|]. exfalso.
    unfold shift in HE. rewrite (Z.max_l 0 (- E)), (Z.max_r 0 E) in HE by lia.
    assert (2 ^ 53 ≤ 2 ^ E) by (apply Z.pow_le_mono_r; lia). nia. }
  set (e := Z.max (E - 52) (-1074)).
  assert (-1074 ≤ e ≤ 0) as He by lia.
  set (m := round_half_even (shift a (- e)) (shift n e)).
  assert (m ≤ C * 2 ^ (- e)) as Hm.
  { apply round_half_even_le; [by apply shift_pos|].
    unfold shift. rewrite (Z.max_r 0 (- e)), (Z.max_l 0 e) by lia.
    assert (0 < 2 ^ (- e)) by (apply Z.pow_pos_nonneg; lia). nia. }
  assert (m * 2 ^ (e + 1074) ≤ C * 2 ^ 1074) as Hu.
  { replace (2 ^ 1074) with (2 ^ (- e) * 2 ^ (e + 1074))
      by (rewrite <- Z.pow_add_r by lia; f_equal; lia).
    assert (0 < 2 ^ (e + 1074)) by (apply Z.pow_pos_nonneg; lia). nia. }
  destruct (Z.eqb_spec m (2 ^ 53)) as [E53|N53]; [|split; [done|lia]].
  split; [|lia]. rewrite E53 in Hu.
  replace (e + 1 + 1074) with (1 + (e + 1074)) by lia.
  rewrite (Z.pow_add_r 2 1 (e + 1074)) by lia.
  change (2 ^ 53) with (2 ^ 52 * 2 ^ 1) in Hu. lia.
Qed.

Lemma double_mantissa_exponent (a n : Z) :
  0 < a → 0 < n →
  let '(m, e) := double_mantissa a n in
  (971 < e → 2 ^ 1023 * n ≤ a) ∧ (2 ^ 1024 * n ≤ a → 971 < e).
Proof.
  intros Ha Hn. unfold double_mantissa.
  pose proof (ilog2_quot_spec a n Ha Hn) as HE. cbv zeta in HE.
  set (E := ilog2_quot a n) in *.
  set (e := Z.max (E - 52) (-1074)).
  set (m := round_half_even (shift a (- e)) (shift n e)).
  assert (1023 ≤ E → 2 ^ 1023 * n ≤ a) as H1.
  { intros H. unfold shift in HE. rewrite (Z.max_l 0 (- E)), (Z.max_r 0 E) in HE by lia.
    assert (2 ^ 1023 ≤ 2 ^ E) by (apply Z.pow_le_mono_r; lia). nia. }
  assert (2 ^ 1024 * n ≤ a → 1024 ≤ E) as H2.
  { intros H. destruct (Z.le_gt_cases 1024 E) as [|Hlt]; [done|]. exfalso.
    destruct (Z.le_gt_cases 0 E) as [Hpos|Hneg].
    - unfold shift in HE. rewrite (Z.max_l 0 (- E)), (Z.max_r 0 E) in HE by lia.
      assert (2 * 2 ^ E ≤ 2 ^ 1024).
      { change 2 with (2 ^ 1) at 1. rewrite <- Z.pow_add_r by lia.
        apply Z.pow_le_mono_r; lia. }
      nia.
    - unfold shift in HE. rewrite (Z.max_r 0 (- E)), (Z.max_l 0 E) in HE by lia.
      assert (1 ≤ 2 ^ (- E)) by (apply (Z.pow_le_mono_r 2 0); lia).
      assert (0 < 2 ^ 1024) by done. nia. }
  destruct (Z.eqb_spec m (2 ^ 53)); split; intros H; try apply H1; try specialize (H2 H); lia.
Qed.

Lemma dyadic_units (M k : Z) :
  -1074 ≤ k →
  (inject_Z M * 2 ^ k == inject_Z (M * 2 ^ (k + 1074)) / inject_Z (2 ^ 1074))%Q.
Proof.
  intros Hk. rewrite inject_Z_mult, !Zpower_Qpower by lia.
  rewrite Qpower_plus by done.
  generalize (inject_Z 2 ^ 1074)%Q (Qpower_not_0 (inject_Z 2) 1074 ltac:(done)).
  intros P HP. change (inject_Z 2) with 2%Q. field. done.
Qed.

Lemma closer_Q (u u' a n P : Z) :
  0 < n → 0 < P →
  Z.abs (u * n - a * P) ≤ Z.abs (u' * n - a * P) →
  (Qabs (inject_Z u / inject_Z P - inject_Z a / inject_Z n)
   <= Qabs (inject_Z u' / inject_Z P - inject_Z a / inject_Z n))%Q.
Proof.
  intros Hn HP H.
  assert (0 < inject_Z P * inject_Z n)%Q as Hc.
  { rewrite <- inject_Z_mult. change 0%Q with (inject_Z 0). rewrite <- Zlt_Qlt. lia. }
  assert (∀ v : Z,
    (Qabs (inject_Z v / inject_Z P - inject_Z a / inject_Z n)
     == inject_Z (Z.abs (v * n - a * P)) / (inject_Z P * inject_Z n))%Q) as Hv.
  { intros v.
    assert (inject_Z v / inject_Z P - inject_Z a / inject_Z n
            == inject_Z (v * n - a * P) * / (inject_Z P * inject_Z n))%Q as ->.
    { unfold Z.sub. rewrite inject_Z_plus, inject_Z_opp, !inject_Z_mult. field.
      split; intros E; unfold Qeq in E; cbn in E; lia. }
    rewrite Qabs_Qmult, (Qabs_pos (/ _)).
    - reflexivity.
    - apply Qlt_le_weak, Qinv_lt_0_compat, Hc. }
  rewrite !Hv. apply Qmult_le_compat_r.
  - by rewrite <- Zle_Qle.
  - apply Qlt_le_weak, Qinv_lt_0_compat, Hc.
Qed.

Lemma digits2_pos_spec (m : positive) :
  2 ^ (Z.pos (digits2_pos m) - 1) ≤ Z.pos m < 2 ^ Z.pos (digits2_pos m).
Proof.
  induction m as [m IH|m IH|]; cbn [digits2_pos]; [| |done].
  - rewrite Pos2Z.inj_succ, Z.pow_succ_r by lia.
    replace (Z.succ (Z.pos (digits2_pos m)) - 1) with (Z.succ (Z.pos (digits2_pos m) - 1)) by lia.
    rewrite Z.pow_succ_r by lia. lia.
  - rewrite Pos2Z.inj_succ, Z.pow_succ_r by lia.
    replace (Z.succ (Z.pos (digits2_pos m)) - 1) with (Z.succ (Z.pos (digits2_pos m) - 1)) by lia.
    rewrite Z.pow_succ_r by lia. lia.
Qed.

Lemma bounded_iff (m : positive) (e : Z) :
  bounded 53 1024 m e = true ↔
  Z.pos m < 2 ^ 53 ∧ -1074 ≤ e ≤ 971 ∧ (-1074 < e → 2 ^ 52 ≤ Z.pos m).
Proof.
  unfold bounded, canonical_mantissa, fexp, emin.
  rewrite andb_true_iff, Z.eqb_eq, Z.leb_le.
  change (3 - 1024 - 53) with (-1074). change (1024 - 53) with 971.
  pose proof (digits2_pos_spec m) as [Hd1 Hd2].
  set (d := Z.pos (digits2_pos m)) in *. assert (0 < d) by done.
  split.
  - intros [Hc He].
    assert (d ≤ 53) as Hd by lia. split_and!; try lia.
    + eapply Z.lt_le_trans; [exact Hd2|]. apply Z.pow_le_mono_r; lia.
    + intros He'. assert (d = 53) as Hd53 by lia. rewrite Hd53 in Hd1. exact Hd1.
  - intros (Hm & He & Hn).
    assert (d ≤ 53) as Hd.
    { destruct (Z.le_gt_cases d 53) as [|Hgt]; [done|]. exfalso.
      assert (2 ^ 53 ≤ 2 ^ (d - 1)) by (apply Z.pow_le_mono_r; lia). lia. }
    split; [|lia].
    destruct (Z.eq_dec e (-1074)) as [->|Hne]; [lia|].
    specialize (Hn ltac:(lia)).
    assert (53 ≤ d); [|lia].
    destruct (Z.le_gt_cases 53 d) as [|Hlt]; [done|]. exfalso.
    assert (2 ^ d ≤ 2 ^ 52) by (apply Z.pow_le_mono_r; lia). lia.
Qed.

Lemma units_of_binary64 (g : spec_float) :
  binary64 g → ∃ M k : Z, units g = M * 2 ^ (k + 1074) ∧ Z.abs M < 2 ^ 53 ∧ -1074 ≤ k.
Proof.
  destruct g as [s|s| |s m e]; cbn [binary64 units valid_binary]; try done.
  - intros _. exists 0, 0. done.
  - intros (Hm & He & _)%bounded_iff. exists (cond_Zopp s (Z.pos m)), e.
    split; [done|]. split; [|lia]. destruct s; cbn; lia.
Qed.

Lemma float_value_units (f : spec_float) :
  binary64 f →
  (float_value f == inject_Z (units f) / inject_Z (2 ^ 1074))%Q.
Proof.
  destruct f as [s|s| |s m e]; cbn [binary64 float_value units valid_binary]; try done.
  intros (_ & He & _)%bounded_iff. apply dyadic_units. lia.
Qed.

Lemma true_divide_units (a n : Z) :
  0 < n →
  match true_divide a n with
  | Ret f =>
    binary64 f ∧
    (∀ M k : Z, Z.abs M < 2 ^ 53 → -1074 ≤ k →
       Z.abs (units f * n - a * 2 ^ 1074)
       ≤ Z.abs (M * 2 ^ (k + 1074) * n - a * 2 ^ 1074)) ∧
    (∀ C : Z, 0 < C < 2 ^ 53 → Z.abs a ≤ C * n → Z.abs (units f) ≤ C * 2 ^ 1074) ∧
    (0 ≤ a → 0 ≤ units f) ∧ (a ≤ 0 → units f ≤ 0)
  | Raise e => e = OverflowError ∧ 2 ^ 1023 * n ≤ Z.abs a
  end
  ∧ (2 ^ 1024 * n ≤ Z.abs a → true_divide a n = Raise OverflowError)
  ∧ (Z.abs a < 2 ^ 1023 * n → ∃ f, true_divide a n = Ret f).
Proof.
  intros Hn. unfold true_divide.
  destruct (Z.eqb_spec n 0) as [|_]; [lia|].
  assert ((n <? 0) = false) as -> by lia. rewrite xorb_false_r.
  destruct (Z.eqb_spec a 0) as [->|Ha].
  { assert (0 < 2 ^ 1023) by done. assert (0 < 2 ^ 1024) by done.
    cbn [binary64 units]. split_and!; try done; try (by eauto);
      try (cbn; intros; nia). }
  assert (0 < Z.abs a) as Ha' by lia. rewrite (Z.abs_eq n) by lia.
  pose proof (double_mantissa_spec (Z.abs a) n Ha' Hn) as Hspec.
  pose proof (double_mantissa_exponent (Z.abs a) n Ha' Hn) as Hexp.
  pose proof (λ C HC H, double_mantissa_le (Z.abs a) n C Ha' Hn HC H) as Hle.
  destruct (double_mantissa (Z.abs a) n) as [m e].
  destruct Hspec as (Hm & He & Hnorm & Hnear). destruct Hexp as [Hexp1 Hexp2].
  assert (∀ M k : Z, Z.abs M < 2 ^ 53 → -1074 ≤ k →
     Z.abs (cond_Zopp (a <? 0) m * 2 ^ (e + 1074) * n - a * 2 ^ 1074)
     ≤ Z.abs (M * 2 ^ (k + 1074) * n - a * 2 ^ 1074)) as Hnear'.
  { intros M k HM Hk. destruct (Z.ltb_spec a 0) as [Hneg|Hpos]; cbn [cond_Zopp].
    - specialize (Hnear (- M) k ltac:(lia) Hk).
      rewrite (Z.abs_neq a) in Hnear by lia.
      replace (- m * 2 ^ (e + 1074) * n - a * 2 ^ 1074)
        with (- (m * 2 ^ (e + 1074) * n - - a * 2 ^ 1074)) by ring.
      replace (M * 2 ^ (k + 1074) * n - a * 2 ^ 1074)
        with (- (- M * 2 ^ (k + 1074) * n - - a * 2 ^ 1074)) by ring.
      by rewrite !Z.abs_opp.
    - specialize (Hnear M k HM Hk). by rewrite (Z.abs_eq a) in Hnear by lia. }
  assert (0 ≤ 2 ^ (e + 1074)) as HP by (apply Z.pow_nonneg; lia).
  destruct m as [|p|p]; [| |lia].
  - split; [|split].
    + cbn [binary64 units]. split_and!; try done; try lia;
        try (intros M k HM Hk; specialize (Hnear' M k HM Hk);
             destruct (a <? 0); cbn in Hnear'; exact Hnear');
        try (intros C HC _; cbn; assert (0 < 2 ^ 1074) by done; nia).
    + intros H. specialize (Hexp2 H). specialize (Hnorm ltac:(lia)).
      assert (0 < 2 ^ 52) by done. lia.
    + eauto.
  - destruct (Z.leb_spec e 971) as [He971|He971].
    + split; [|split].
      * cbn [binary64 units valid_binary]. split_and!.
        -- apply bounded_iff. lia.
        -- exact Hnear'.
        -- intros C HC H. destruct (Hle C HC H) as [Hu _].
           destruct (a <? 0); cbn [cond_Zopp]; lia.
        -- intros H. assert ((a <? 0) = false) as -> by lia. cbn. lia.
        -- intros H. assert ((a <? 0) = true) as -> by lia. cbn. lia.
      * intros H. specialize (Hexp2 H). lia.
      * eauto.
    + split; [|split].
      * split; [done|]. by apply Hexp1.
      * done.
      * intros H. specialize (Hexp1 He971). lia.
Qed.

Lemma true_divide_nearest (a n : Z) (f : spec_float) :
  0 < n → true_divide a n = Ret f →
  binary64 f ∧
  ∀ g : spec_float, binary64 g →
    (Qabs (float_value f - inject_Z a / inject_Z n)
     <= Qabs (float_value g - inject_Z a / inject_Z n))%Q.
Proof.
  intros Hn Hf. pose proof (true_divide_units a n Hn) as [H _].
  rewrite Hf in H. destruct H as (Hb & Hnear & _). split; [done|].
  intros g Hg. rewrite (float_value_units f Hb), (float_value_units g Hg).
  destruct (units_of_binary64 g Hg) as (M & k & Hu & HM & Hk).
  apply closer_Q; [done..|]. rewrite Hu. by apply Hnear.
Qed.

Lemma true_divide_in_range (a n C : Z) :
  0 < n → 0 < C < 2 ^ 53 → 0 ≤ a ≤ C * n →
  ∃ f, true_divide a n = Ret f ∧ binary64 f ∧
       (0 <= float_value f <= inject_Z C)%Q.
Proof.
  intros Hn HC Ha. pose proof (true_divide_units a n Hn) as (H & _ & Hret).
  destruct Hret as [f Hf].
  { assert (2 ^ 53 ≤ 2 ^ 1023) by (apply Z.pow_le_mono_r; lia). nia. }
  rewrite Hf in H. destruct H as (Hb & _ & Hle & Hpos & _).
  exists f. split; [done|]. split; [done|].
  specialize (Hle C HC ltac:(lia)). specialize (Hpos ltac:(lia)).
  rewrite (float_value_units f Hb).
  assert (0 < inject_Z (2 ^ 1074))%Q as HP.
  { change 0%Q with (inject_Z 0). rewrite <- Zlt_Qlt. done. }
  split.
  - apply Qle_shift_div_l; [done|]. rewrite Qmult_0_l.
    change 0%Q with (inject_Z 0). by rewrite <- Zle_Qle.
  - apply Qle_shift_div_r; [done|]. rewrite <- inject_Z_mult, <- Zle_Qle. lia.
Qed.

(** The floats of some quotients.  They are the ones that the division of
    the standard library's specification of binary64 ([SFdiv]) gives when
    the two integers are taken as mantissas with the exponent 0: [17 / 3]
    is [5.666666666666667], a quotient of integers above [2^53], a quotient
    that is a subnormal number, the largest quotient that is not an
    overflow, and a quotient that rounds to the negative zero. *)
Lemma true_divide_examples :
  true_divide 17 3 = Ret (S754_finite false 6380099472108203 (-50)) ∧
  true_divide 17 3
    = Ret (SFdiv 53 1024 (S754_finite false 17 0) (S754_finite false 3 0)) ∧
  true_divide (-17) 3
    = Ret (SFdiv 53 1024 (S754_finite true 17 0) (S754_finite false 3 0)) ∧
  true_divide 12345678901234567890123 7
    = Ret (SFdiv 53 1024 (S754_finite false 12345678901234567890123 0)
             (S754_finite false 7 0)) ∧
  true_divide 1 (3 * 2 ^ 1070)
    = Ret (SFdiv 53 1024 (S754_finite false 1 0)
             (S754_finite false (3 * 2 ^ 1070) 0)) ∧
  true_divide (2 ^ 1024 - 2 ^ 970 - 1) 1
    = Ret (SFdiv 53 1024 (S754_finite false (2 ^ 1024 - 2 ^ 970 - 1) 0)
             (S754_finite false 1 0)) ∧
  true_divide (2 ^ 1024 - 2 ^ 970) 1 = Raise OverflowError ∧
  SFdiv 53 1024 (S754_finite false (2 ^ 1024 - 2 ^ 970) 0) (S754_finite false 1 0)
    = S754_infinity false ∧
  true_divide (-1) (3 * 2 ^ 1075) = Ret (S754_zero true) ∧
  true_divide 0 3 = Ret (S754_zero false) ∧
  true_divide 1 0 = Raise ZeroDivisionError.
Proof. split_and!; vm_compute; reflexivity. Qed.

Lemma Qabs_quot_ge (a n T : Z) :
  0 < n → (inject_Z T <= Qabs (inject_Z a / inject_Z n))%Q ↔ T * n ≤ Z.abs a.
Proof.
  intros Hn. destruct n as [|p|p]; [lia| |lia].
  unfold Qle, Qabs, Qdiv, Qmult, Qinv, inject_Z. cbn. lia.
Qed.

Lemma Qabs_le_0 (x : Q) : (Qabs x <= 0)%Q → (x == 0)%Q.
Proof.
  intros H. apply Qabs_Qle_condition in H as [H1 H2].
  apply Qle_antisym; [done|]. exact H1.
Qed.

Lemma mean_quotient r rs :
  mean (r :: rs)
  = (inject_Z (sum_Z (r :: rs).*1) / inject_Z (Z.of_nat (length (r :: rs))))%Q.
Proof. unfold mean. by rewrite length_fmap. Qed.

Lemma average_quotient r rs :
  average (r :: rs)
  = match true_divide (sum_Z (r :: rs).*1) (Z.of_nat (length (r :: rs))) with
    | Ret q => Ret (PyFloat q)
    | Raise e => Raise e
    end.
Proof. unfold average. by rewrite length_fmap. Qed.

Lemma average_result u l i s :
  result (get_average_rating u l i) s = average (ratings_of s u l i).
Proof. unfold result. by rewrite get_average_rating_run. Qed.

(** The average of the ratings [rs], which are not all of them none: a
    float nearest to the mean, or an [OverflowError]. *)
Lemma average_cases rs :
  rs ≠ [] →
  (∃ f, average rs = Ret (PyFloat f) ∧ binary64 f ∧
        (∀ g, binary64 g →
           (Qabs (float_value f - mean rs) <= Qabs (float_value g - mean rs))%Q))
  ∨ (average rs = Raise OverflowError ∧
     (inject_Z (2 ^ 1023) <= Qabs (mean rs))%Q).
Proof.
  destruct rs as [|r rs]; [done|]. intros _.
  rewrite average_quotient, mean_quotient.
  set (a := sum_Z (r :: rs).*1). set (n := Z.of_nat (length (r :: rs))).
  assert (0 < n) as Hn by (unfold n; cbn [length]; lia).
  destruct (true_divide a n) as [f|e] eqn:E.
  - left. exists f. split; [done|]. by apply true_divide_nearest.
  - right. pose proof (true_divide_units a n Hn) as [H _].
    rewrite E in H. destruct H as [-> H]. split; [done|].
    by apply Qabs_quot_ge.
Qed.

Lemma average_overflow rs :
  (inject_Z (2 ^ 1024) <= Qabs (mean rs))%Q → average rs = Raise OverflowError.
Proof.
  destruct rs as [|r rs].
  { intros H. exfalso. unfold mean, Qle in H. cbn in H. lia. }
  rewrite average_quotient, mean_quotient.
  set (a := sum_Z (r :: rs).*1). set (n := Z.of_nat (length (r :: rs))).
  assert (0 < n) as Hn by (unfold n; cbn [length]; lia).
  intros H%Qabs_quot_ge; [|done].
  pose proof (true_divide_units a n Hn) as (_ & Hov & _). by rewrite (Hov H).
Qed.

(** C5 (amended). [get_average_rating(u,l,i)] returns the [int] 0 when the
    item is absent or has no rating.  Otherwise it returns a [float], the
    number of binary64 nearest to the arithmetic mean of the scores (their
    sum divided by their number): no number of binary64 is nearer to the
    mean, so the result is the mean itself whenever the mean is a number of
    binary64; or it raises [OverflowError], which it does only when the mean
    is [2^1023] or more in absolute value, and always when it is [2^1024]
    or more.  For the ratings [(0,""), (10,"")] it returns exactly [5.0]. *)
Theorem get_average_rating_rounds_the_mean u l i s :
  (result (item_exists u l i) s = Ret false →
   result (get_average_rating u l i) s = Ret (PyInt 0))
  ∧
  (∀ rs, result (get_item_ratings u l i) s = Ret rs →
     (rs = [] → result (get_average_rating u l i) s = Ret (PyInt 0)) ∧
     (rs ≠ [] →
      (∃ f, result (get_average_rating u l i) s = Ret (PyFloat f) ∧ binary64 f ∧
            (∀ g, binary64 g →
               (Qabs (float_value f - mean rs)
                <= Qabs (float_value g - mean rs))%Q) ∧
            (∀ g, binary64 g → (float_value g == mean rs)%Q →
               (float_value f == mean rs)%Q))
      ∨ (result (get_average_rating u l i) s = Raise OverflowError ∧
         (inject_Z (2 ^ 1023) <= Qabs (mean rs))%Q)) ∧
     ((inject_Z (2 ^ 1024) <= Qabs (mean rs))%Q →
      result (get_average_rating u l i) s = Raise OverflowError) ∧
     (rs = [(0, []); (10, [])] →
      result (get_average_rating u l i) s
      = Ret (PyFloat (S754_finite false 5629499534213120 (-50))))).
Proof.
  pose proof (average_result u l i s) as Havg.
  split.
  - intros E%item_exists_result. by rewrite Havg, ratings_of_absent.
  - intros rs Hget. rewrite get_item_ratings_result in Hget.
    injection Hget as Hrs. rewrite Hrs in Havg. rewrite Havg. split_and!.
    + by intros ->.
    + intros Hne. destruct (average_cases rs Hne) as [(f & Hf & Hb & Hnear)|H];
        [left|by right].
      exists f. split_and!; [done..|].
      intros g Hg Hv. specialize (Hnear g Hg).
      assert (float_value g - mean rs == 0)%Q as Hz by (rewrite Hv; ring).
      rewrite Hz in Hnear. apply Qabs_le_0 in Hnear.
      rewrite <- (Qplus_0_l (mean rs)), <- Hnear. ring.
    + apply average_overflow.
    + intros ->. vm_compute. reflexivity.
Qed.

(** On the ratings 3, 5 and 9 the value returned is not their mean 17/3,
    which is no number of binary64. *)
Lemma average_of_3_5_9_is_not_the_mean :
  ∃ f,
    result (get_average_rating (py "A") (py "Movies") (py "Dune")) example_store
      = Ret (PyFloat f) ∧
    (mean [(3%Z, py "a"); (5%Z, py "b"); (9%Z, py "c")] == 17 # 3)%Q ∧
    ¬ (float_value f == 17 # 3)%Q.
Proof.
  exists (S754_finite false 6380099472108203 (-50)). split_and!.
  - vm_compute. reflexivity.
  - vm_compute. reflexivity.
  - vm_compute. discriminate.
Qed.

Lemma get_average_rating_rounds_the_mean_witness :
  result (get_average_rating (py "A") (py "Movies") (py "Dune"))
    (perform_all
       [ AddItem (py "A") (py "Movies") (py "Dune");
         AddRating (py "A") (py "Movies") (py "Dune") 0 [];
         AddRating (py "A") (py "Movies") (py "Dune") 10 [] ] init)
  = Ret (PyFloat (S754_finite false 5629499534213120 (-50))) ∧
  result (get_average_rating (py "A") (py "Movies") (py "Up")) example_store
  = Ret (PyInt 0).
Proof.
  split.
  - apply (proj2 (proj2 (proj2 (proj2 (get_average_rating_rounds_the_mean
      (py "A") (py "Movies") (py "Dune")
      (perform_all
         [ AddItem (py "A") (py "Movies") (py "Dune");
           AddRating (py "A") (py "Movies") (py "Dune") 0 [];
           AddRating (py "A") (py "Movies") (py "Dune") 10 [] ] init))
      [(0, []); (10, [])] ltac:(vm_compute; reflexivity))))).
    reflexivity.
  - apply (proj1 (get_average_rating_rounds_the_mean (py "A") (py "Movies") (py "Up")
      example_store)).
    vm_compute. reflexivity.
Defined.

(** ** Deleting a list *)

(** C6 (amended). [delete_list(u,l)] on a list that is absent returns false
    and changes no list, item or rating: the store is left as it was, except
    that a user [u] who had no namespace yet now has an empty one.  On a list
    that exists it returns true; afterwards [list_exists(u,l)] is false and,
    for every item [i] (so for every item that was in [l]),
    [item_exists(u,l,i)] is false and [get_item_ratings(u,l,i)] is empty;
    the other lists of [u] and the data of the other users are the same. *)
Theorem delete_list_cascades u l s :
  (result (list_exists u l) s = Ret false →
   result (delete_list u l) s = Ret false ∧
   (exec (delete_list u l) s = s ∨
    s !! u = None ∧ exec (delete_list u l) s = <[u := ∅]> s))
  ∧
  (result (list_exists u l) s = Ret true →
   result (delete_list u l) s = Ret true ∧
   result (list_exists u l) (exec (delete_list u l) s) = Ret false ∧
   (∀ i, result (item_exists u l i) (exec (delete_list u l) s) = Ret false ∧
         result (get_item_ratings u l i) (exec (delete_list u l) s) = Ret []) ∧
   (∃ ls ls', s !! u = Some ls ∧ exec (delete_list u l) s !! u = Some ls' ∧
              ∀ m, m ≠ l → ls' !! m = ls !! m) ∧
   (∀ v, v ≠ u → exec (delete_list u l) s !! v = s !! v)).
Proof.
  split.
  - intros E%list_exists_result. unfold result, exec.
    rewrite delete_list_run, E. cbn. split; [done|apply touch_cases].
  - intros E%list_exists_result. unfold result at 1. unfold exec.
    rewrite delete_list_run, E. cbn.
    assert (Hgone : ∀ i, has_item (<[u := delete l (ns s u)]> s) u l i = false).
    { intros i. rewrite has_item_view, ns_lookup_del. by rewrite decide_True. }
    split_and!; [done| | | |].
    + apply list_exists_result. rewrite has_list_view, ns_lookup_del.
      rewrite decide_True by done. apply bool_decide_eq_false_2. by intros [? ?].
    + intros i. split.
      * by apply item_exists_result.
      * rewrite get_item_ratings_result. by rewrite ratings_of_absent.
    + apply has_list_lookup in E as (ls & its & Hu & Hl).
      exists ls, (delete l ls). rewrite (ns_Some s u ls Hu), lookup_insert_eq.
      split_and!; [done..|]. intros m Hm. by rewrite lookup_delete_ne.
    + intros v Hv. by rewrite lookup_insert_ne.
Qed.

(** A user who was never seen deletes a list: the call returns false, and
    the store gains the user's empty namespace. *)
Lemma delete_list_fresh_user_changes_store :
  result (list_exists (py "u") (py "l")) init = Ret false ∧
  result (delete_list (py "u") (py "l")) init = Ret false ∧
  exec (delete_list (py "u") (py "l")) init ≠ init.
Proof.
  split_and!.
  - by apply list_exists_result.
  - unfold result. by rewrite delete_list_run.
  - unfold exec. rewrite delete_list_run.
    replace (has_list init (py "u") (py "l")) with false by done.
    cbn. unfold touch, init. apply insert_non_empty.
Qed.

Lemma delete_list_cascades_witness :
  result (delete_list (py "A") (py "Books")) example_store = Ret false ∧
  result (item_exists (py "A") (py "Movies") (py "Dune"))
    (exec (delete_list (py "A") (py "Movies")) example_store) = Ret false.
Proof.
  split.
  - apply (proj1 (delete_list_cascades (py "A") (py "Books") example_store)).
    vm_compute. reflexivity.
  - apply (proj2 (delete_list_cascades (py "A") (py "Movies") example_store)).
    vm_compute. reflexivity.
Defined.

(** ** The access policy *)

(** C7. [is_admin] returns true whenever the chat is private, whatever the
    transport would answer about membership.  In any other chat it returns
    true exactly when the membership lookup answers with the status
    ['creator'] or ['administrator']; when the lookup fails with an error it
    returns false, and no error comes out of [is_admin]. *)
Theorem is_admin_policy (update : Update) (context : CallbackContext) :
  (chat_type (effective_chat update) = py "private" →
   Handlers.is_admin update context = true)
  ∧
  (chat_type (effective_chat update) ≠ py "private" →
   (Handlers.is_admin update context = true ↔
    ∃ status,
      get_chat_member context (chat_id (effective_chat update))
        (user_id (effective_user update)) = ChatMember status ∧
      (status = py "creator" ∨ status = py "administrator")) ∧
   (∀ error,
      get_chat_member context (chat_id (effective_chat update))
        (user_id (effective_user update)) = LookupFailed error →
      Handlers.is_admin update context = false)).
Proof.
  unfold Handlers.is_admin. split.
  - intros ->. by rewrite bool_decide_eq_true_2.
  - intros Hpriv. rewrite bool_decide_eq_false_2 by done.
    destruct (get_chat_member context _ _) as [status|error]; split.
    + rewrite bool_decide_eq_true. split.
      * intros H. exists status. split; [done|].
        apply elem_of_cons in H as [H|H]; [by left|].
        apply list_elem_of_singleton in H. by right.
      * intros (? & [= <-] & [->| ->]); [by left|]. right. by left.
    + by intros error [=].
    + split; [done|]. by intros (? & [=] & _).
    + done.
Qed.

Lemma is_admin_policy_witness :
  Handlers.is_admin
    {| effective_chat := {| chat_id := 1; chat_type := py "private" |};
       effective_user := {| user_id := 7 |};
       message := None |}
    {| get_chat_member := λ _ _, LookupFailed (py "timed out") |} = true ∧
  Handlers.is_admin
    {| effective_chat := {| chat_id := 2; chat_type := py "group" |};
       effective_user := {| user_id := 7 |};
       message := None |}
    {| get_chat_member := λ _ _, LookupFailed (py "timed out") |} = false.
Proof.
  split.
  - apply (proj1 (is_admin_policy _ _)). reflexivity.
  - apply (proj2 (is_admin_policy
      {| effective_chat := {| chat_id := 2; chat_type := py "group" |};
         effective_user := {| user_id := 7 |};
         message := None |}
      {| get_chat_member := λ _ _, LookupFailed (py "timed out") |})
      ltac:(discriminate)) with (py "timed out").
    reflexivity.
Defined.

(** ** The long replies *)



(** ** The gate of the administrators' commands *)


Lemma command_of_first_word update t command rest :
  message update = Some {| text := Some t |} → split t = command :: rest →
  Handlers.command_of update = Ret command.
Proof.
  unfold Handlers.command_of. intros -> Hs. cbn.
  destruct t as [|c t]; [done|]. by rewrite Hs.
Qed.


Lemma admin_required_non_admin func update context :
  Handlers.is_admin update context = false →
  Handlers.admin_required func update context =
    match Handlers.command_of update with
    | Ret command =>
      if bool_decide (command ∈ Handlers.ADMIN_COMMANDS)
      then reply_text Handlers.denial ;;; ret Handlers.END
      else func update context
    | Raise e => raise e
    end.
Proof. unfold Handlers.admin_required. by intros ->. Qed.

Lemma split_from_blank (t : pystr) :
  forallb isspace t = true → split_from [] t = [].
Proof.
  induction t as [|c t IH]; [done|]. cbn [forallb split_from].
  intros [-> Ht]%andb_true_iff. by apply IH.
Qed.







(** ** Which calls create lists and items *)

Lemma has_list_set s u l (X : Items) v m :
  has_list (<[u := <[l := X]> (ns s u)]> s) v m = true →
  has_list s v m = true ∨ (v = u ∧ m = l).
Proof.
  rewrite !has_list_view, ns_lookup_set. case_decide as H; [|by left].
  destruct H as [-> ->]. by right.
Qed.

Lemma has_list_del s u l v m :
  has_list (<[u := delete l (ns s u)]> s) v m = true → has_list s v m = true.
Proof.
  rewrite !has_list_view, ns_lookup_del. case_decide; [|done].
  rewrite bool_decide_eq_true. by intros [? ?].
Qed.

Lemma has_item_set s u l (X : Items) v m j :
  has_item (<[u := <[l := X]> (ns s u)]> s) v m j = true →
  has_item s v m j = true ∨ (v = u ∧ m = l ∧ is_Some (X !! j)).
Proof.
  rewrite !has_item_view, ns_lookup_set. case_decide as H; [|by left].
  destruct H as [-> ->]. rewrite bool_decide_eq_true. by right.
Qed.

Lemma has_item_del s u l v m j :
  has_item (<[u := delete l (ns s u)]> s) v m j = true → has_item s v m j = true.
Proof. rewrite !has_item_view, ns_lookup_del. by case_decide. Qed.

Lemma has_item_items_at s u l j :
  is_Some (items_at (ns s u) l !! j) → has_item s u l j = true.
Proof.
  rewrite has_item_view. unfold items_at.
  destruct (ns s u !! l); cbn.
  - by rewrite bool_decide_eq_true.
  - rewrite lookup_empty. by intros [? ?].
Qed.

Lemma has_list_put_ratings s u l i rs v m :
  has_list (put_ratings u l i rs s) v m = true →
  has_list s v m = true ∨ (v = u ∧ m = l).
Proof. apply has_list_set. Qed.

Lemma has_item_put_ratings s u l i rs v m j :
  has_item (put_ratings u l i rs s) v m j = true →
  has_item s v m j = true ∨ (v = u ∧ m = l ∧ j = i).
Proof.
  intros [H|(-> & -> & H)]%has_item_set; [by left|].
  rewrite lookup_insert in H. case_decide as Hij.
  - by right.
  - left. by apply has_item_items_at.
Qed.

(** A call that only answers a question leaves the store as evaluating
    [self.data[u]] does. *)
Lemma perform_read c s : is_read c = true → ∃ u, perform c s = touch u s.
Proof.
  destruct c; try done; intros _; exists u; unfold perform, exec.
  - by rewrite list_exists_run.
  - by rewrite get_all_lists_run.
  - by rewrite item_exists_run.
  - by rewrite get_list_items_run.
  - by rewrite get_item_ratings_run.
  - by rewrite get_average_rating_run.
Qed.

Lemma perform_new_list c s v m :
  has_list (perform c s) v m = true →
  has_list s v m = true ∨ c = CreateList v m ∨ ∃ j, c = AddItem v m j.
Proof.
  destruct c; unfold perform, exec.
  - rewrite create_list_run. cbn. destruct (has_list s u l).
    + rewrite has_list_touch. by left.
    + intros [H|[-> ->]]%has_list_set; [by left|]. right. by left.
  - rewrite list_exists_run. cbn [snd]. rewrite has_list_touch. by left.
  - rewrite get_all_lists_run. cbn [snd]. rewrite has_list_touch. by left.
  - rewrite add_item_run. cbn. destruct (has_item s u l i).
    + rewrite has_list_touch. by left.
    + intros [H|[-> ->]]%has_list_put_ratings; [by left|]. right. right. eauto.
  - rewrite item_exists_run. cbn [snd]. rewrite has_list_touch. by left.
  - rewrite get_list_items_run. cbn [snd]. rewrite has_list_touch. by left.
  - rewrite add_rating_run. cbn.
    destruct (has_item s u l i) eqn:E; cbn; [|rewrite has_list_touch; by left].
    destruct (valid_score rating); [|rewrite has_list_touch; by left].
    intros [H|[-> ->]]%has_list_put_ratings; [by left|].
    left. by apply (has_item_list s u l i).
  - rewrite get_item_ratings_run. cbn [snd]. rewrite has_list_touch. by left.
  - rewrite get_average_rating_run. cbn [snd]. rewrite has_list_touch. by left.
  - rewrite delete_list_run. destruct (has_list s u l); cbn.
    + intros H%has_list_del. by left.
    + rewrite has_list_touch. by left.
  - rewrite delete_item_run. destruct (has_item s u l i) eqn:E; cbn.
    + intros [H|[-> ->]]%has_list_set; [by left|].
      left. by apply (has_item_list s u l i).
    + rewrite has_list_touch. by left.
  - rewrite delete_rating_run. destruct (has_item s u l i) eqn:E; cbn.
    + destruct (valid_index rating_index (ratings_of s u l i)); cbn.
      * intros [H|[-> ->]]%has_list_put_ratings; [by left|].
        left. by apply (has_item_list s u l i).
      * rewrite has_list_touch. by left.
    + rewrite has_list_touch. by left.
  - rewrite clear_ratings_run. destruct (has_item s u l i) eqn:E; cbn.
    + intros [H|[-> ->]]%has_list_put_ratings; [by left|].
      left. by apply (has_item_list s u l i).
    + rewrite has_list_touch. by left.
Qed.

Lemma perform_new_item c s v m j :
  has_item (perform c s) v m j = true →
  has_item s v m j = true ∨ c = AddItem v m j.
Proof.
  destruct c; unfold perform, exec.
  - rewrite create_list_run. cbn. destruct (has_list s u l).
    + rewrite has_item_touch. by left.
    + intros [H|(_ & _ & H)]%has_item_set; [by left|].
      rewrite lookup_empty in H. by destruct H.
  - rewrite list_exists_run. cbn [snd]. rewrite has_item_touch. by left.
  - rewrite get_all_lists_run. cbn [snd]. rewrite has_item_touch. by left.
  - rewrite add_item_run. cbn. destruct (has_item s u l i).
    + rewrite has_item_touch. by left.
    + intros [H|(-> & -> & ->)]%has_item_put_ratings; [by left|by right].
  - rewrite item_exists_run. cbn [snd]. rewrite has_item_touch. by left.
  - rewrite get_list_items_run. cbn [snd]. rewrite has_item_touch. by left.
  - rewrite add_rating_run. cbn.
    destruct (has_item s u l i) eqn:E; cbn; [|rewrite has_item_touch; by left].
    destruct (valid_score rating); [|rewrite has_item_touch; by left].
    intros [H|(-> & -> & ->)]%has_item_put_ratings; by left.
  - rewrite get_item_ratings_run. cbn [snd]. rewrite has_item_touch. by left.
  - rewrite get_average_rating_run. cbn [snd]. rewrite has_item_touch. by left.
  - rewrite delete_list_run. destruct (has_list s u l); cbn.
    + intros H%has_item_del. by left.
    + rewrite has_item_touch. by left.
  - rewrite delete_item_run. destruct (has_item s u l i) eqn:E; cbn.
    + intros [H|(-> & -> & H)]%has_item_set; [by left|].
      rewrite lookup_delete in H. case_decide; [by destruct H|].
      left. by apply has_item_items_at.
    + rewrite has_item_touch. by left.
  - rewrite delete_rating_run. destruct (has_item s u l i) eqn:E; cbn.
    + destruct (valid_index rating_index (ratings_of s u l i)); cbn.
      * intros [H|(-> & -> & ->)]%has_item_put_ratings; by left.
      * rewrite has_item_touch. by left.
    + rewrite has_item_touch. by left.
  - rewrite clear_ratings_run. destruct (has_item s u l i) eqn:E; cbn.
    + intros [H|(-> & -> & ->)]%has_item_put_ratings; by left.
    + rewrite has_item_touch. by left.
Qed.

(** C8. The methods that read never create a list or an item.  For a list
    [l] that [u] does not have, [get_list_items(u,l)] returns the empty
    mapping and [list_exists(u,l)] returns false, and [u] still has no list
    [l] afterwards; for an item that does not exist, [item_exists] returns
    false and [get_item_ratings] returns the empty sequence, and the item
    (and its list) still does not exist afterwards.  After any reading call,
    every list and item exists exactly if it did before, with the same
    ratings.  A list that exists after a call and did not before was made by
    [create_list] or [add_item] for that list; an item that exists after a
    call and did not before was made by [add_item] for that item. *)
Theorem reads_create_nothing :
  (∀ u l s, result (list_exists u l) s = Ret false →
     result (get_list_items u l) s = Ret ∅ ∧
     result (list_exists u l) (exec (get_list_items u l) s) = Ret false ∧
     result (list_exists u l) (exec (list_exists u l) s) = Ret false)
  ∧
  (∀ u l i s, result (item_exists u l i) s = Ret false →
     result (get_item_ratings u l i) s = Ret [] ∧
     result (item_exists u l i) (exec (get_item_ratings u l i) s) = Ret false ∧
     result (item_exists u l i) (exec (item_exists u l i) s) = Ret false ∧
     result (list_exists u l) (exec (get_item_ratings u l i) s)
       = result (list_exists u l) s ∧
     result (list_exists u l) (exec (item_exists u l i) s)
       = result (list_exists u l) s)
  ∧
  (∀ c s, is_read c = true →
     ∀ v m j,
       result (list_exists v m) (perform c s) = result (list_exists v m) s ∧
       result (item_exists v m j) (perform c s) = result (item_exists v m j) s ∧
       result (get_item_ratings v m j) (perform c s)
         = result (get_item_ratings v m j) s)
  ∧
  (∀ c s v m,
     result (list_exists v m) s = Ret false →
     result (list_exists v m) (perform c s) = Ret true →
     c = CreateList v m ∨ ∃ j, c = AddItem v m j)
  ∧
  (∀ c s v m j,
     result (item_exists v m j) s = Ret false →
     result (item_exists v m j) (perform c s) = Ret true →
     c = AddItem v m j).
Proof.
  assert (Hl : ∀ u v m s,
    result (list_exists v m) (touch u s) = result (list_exists v m) s).
  { intros. unfold result. by rewrite !list_exists_run, has_list_touch. }
  assert (Hi : ∀ u v m j s,
    result (item_exists v m j) (touch u s) = result (item_exists v m j) s).
  { intros. unfold result. by rewrite !item_exists_run, has_item_touch. }
  assert (Hr : ∀ u v m j s,
    result (get_item_ratings v m j) (touch u s) = result (get_item_ratings v m j) s).
  { intros. by rewrite !get_item_ratings_result, ratings_of_touch. }
  split_and!.
  - intros u l s E. unfold exec. rewrite get_list_items_run, list_exists_run.
    cbn [snd]. rewrite !Hl. split_and!; [|done..].
    apply list_exists_result, has_list_false in E.
    unfold result. rewrite get_list_items_run. cbn. unfold items_at. by rewrite E.
  - intros u l i s E. unfold exec. rewrite get_item_ratings_run, item_exists_run.
    cbn [snd]. rewrite !Hl, !Hi. split_and!; [|done..].
    apply item_exists_result in E.
    by rewrite get_item_ratings_result, ratings_of_absent.
  - intros c s [u ->]%(perform_read c s) v m j. by rewrite Hl, Hi, Hr.
  - intros c s v m E%list_exists_result E'%list_exists_result.
    apply perform_new_list in E' as [E'|E']; [congruence|done].
  - intros c s v m j E%item_exists_result E'%item_exists_result.
    apply perform_new_item in E' as [E'|E']; [congruence|done].
Qed.

Lemma reads_create_nothing_witness :
  result (get_list_items (py "A") (py "Books")) example_store = Ret ∅ ∧
  result (list_exists (py "A") (py "Books"))
    (exec (get_list_items (py "A") (py "Books")) example_store) = Ret false ∧
  result (item_exists (py "B") (py "Movies") (py "Dune"))
    (exec (get_item_ratings (py "B") (py "Movies") (py "Dune")) example_store)
    = Ret false.
Proof.
  destruct reads_create_nothing as (Hlist & Hitem & _).
  destruct (Hlist (py "A") (py "Books") example_store) as (H1 & H2 & _);
    [vm_compute; reflexivity|].
  destruct (Hitem (py "B") (py "Movies") (py "Dune") example_store)
    as (_ & H3 & _); [vm_compute; reflexivity|].
  split_and!; [exact H1|exact H2|exact H3].
Defined.

(** ** Further properties of the store *)

(** *** What a call leaves alone *)

Lemma has_item_alt s v m j :
  has_item s v m j = bool_decide (is_Some (items_at (ns s v) m !! j)).
Proof.
  rewrite has_item_view. unfold items_at.
  destruct (ns s v !! m); cbn; [done|].
  rewrite lookup_empty. symmetry. apply bool_decide_eq_false_2. by intros [? ?].
Qed.

Lemma ratings_of_alt s v m j :
  ratings_of s v m j = default [] (items_at (ns s v) m !! j).
Proof. reflexivity. Qed.

Lemma items_at_set s u l (X : Items) v m :
  items_at (ns (<[u := <[l := X]> (ns s u)]> s) v) m =
    if decide (u = v ∧ l = m) then X else items_at (ns s v) m.
Proof. unfold items_at. rewrite ns_lookup_set. by case_decide. Qed.

Lemma items_at_del s u l v m :
  items_at (ns (<[u := delete l (ns s u)]> s) v) m =
    if decide (u = v ∧ l = m) then ∅ else items_at (ns s v) m.
Proof. unfold items_at. rewrite ns_lookup_del. by case_decide. Qed.

Lemma items_at_touch u s v m : items_at (ns (touch u s) v) m = items_at (ns s v) m.
Proof. by rewrite ns_touch. Qed.

Lemma items_at_put_ratings s u l i rs v m :
  items_at (ns (put_ratings u l i rs s) v) m =
    if decide (u = v ∧ l = m) then <[i := rs]> (items_at (ns s u) l)
    else items_at (ns s v) m.
Proof. apply items_at_set. Qed.

(** The store after each call, case by case. *)
Lemma perform_shape c s :
  perform c s =
    match c with
    | CreateList u l =>
      if has_list s u l then touch u s else <[u := <[l := ∅]> (ns s u)]> s
    | AddItem u l i =>
      if has_item s u l i then touch u s else put_ratings u l i [] s
    | AddRating u l i rating comment =>
      if has_item s u l i && valid_score rating
      then put_ratings u l i (ratings_of s u l i ++ [(rating, comment)]) s
      else touch u s
    | DeleteList u l =>
      if has_list s u l then <[u := delete l (ns s u)]> s else touch u s
    | DeleteItem u l i =>
      if has_item s u l i
      then <[u := <[l := delete i (items_at (ns s u) l)]> (ns s u)]> s
      else touch u s
    | DeleteRating u l i k =>
      if has_item s u l i && valid_index k (ratings_of s u l i)
      then put_ratings u l i (delete (Z.to_nat k) (ratings_of s u l i)) s
      else touch u s
    | ClearRatings u l i =>
      if has_item s u l i then put_ratings u l i [] s else touch u s
    | _ => touch (call_user c) s
    end.
Proof.
  destruct c; unfold perform, exec; cbn [call_user].
  - by rewrite create_list_run.
  - by rewrite list_exists_run.
  - by rewrite get_all_lists_run.
  - by rewrite add_item_run.
  - by rewrite item_exists_run.
  - by rewrite get_list_items_run.
  - by rewrite add_rating_run.
  - by rewrite get_item_ratings_run.
  - by rewrite get_average_rating_run.
  - rewrite delete_list_run. by destruct (has_list s u l).
  - rewrite delete_item_run. by destruct (has_item s u l i).
  - rewrite delete_rating_run. by destruct (_ && _).
  - rewrite clear_ratings_run. by destruct (has_item s u l i).
Qed.

Lemma perform_other_user c s v : v ≠ call_user c → perform c s !! v = s !! v.
Proof.
  intros Hv. rewrite perform_shape.
  destruct c; cbn [call_user] in *;
    repeat match goal with |- context [if ?b then _ else _] => destruct b end;
    unfold touch, put_ratings; by rewrite lookup_insert_ne.
Qed.

Lemma perform_other_list c s v m :
  ¬ (v = call_user c ∧ Some m = call_list c) →
  items_at (ns (perform c s) v) m = items_at (ns s v) m ∧
  has_list (perform c s) v m = has_list s v m.
Proof.
  intros Hv. rewrite !has_list_view.
  assert (ns (perform c s) v !! m = ns s v !! m) as Hsame;
    [|unfold items_at; by rewrite Hsame].
  rewrite perform_shape.
  destruct c; cbn [call_user call_list] in *;
    repeat match goal with |- context [if ?b then _ else _] => destruct b end;
    unfold put_ratings;
    rewrite ?ns_touch, ?ns_lookup_set, ?ns_lookup_del; try done;
    (rewrite decide_False; [done|]); intros [-> ->]; by apply Hv.
Qed.

Lemma perform_other_item c s i v m j :
  call_item c = Some i → i ≠ j →
  items_at (ns (perform c s) v) m !! j = items_at (ns s v) m !! j.
Proof.
  intros Hc Hij. rewrite perform_shape.
  destruct c; cbn [call_user call_item] in *; try done; injection Hc as ->;
    repeat match goal with |- context [if ?b then _ else _] => destruct b end;
    rewrite ?items_at_touch, ?items_at_put_ratings, ?items_at_set; try done;
    case_decide as H; try done; destruct H as [-> ->];
    by rewrite ?lookup_insert_ne, ?lookup_delete_ne.
Qed.

(** X7. A call changes nothing outside what it names: the data of the other
    users, the other lists of its user, and (for a call that names an item)
    the other items of its list are the same after it, and every reading
    method answers about them as before. *)
Theorem calls_are_local (c : call) s v m j :
  (v ≠ call_user c → perform c s !! v = s !! v)
  ∧
  (¬ (v = call_user c ∧ Some m = call_list c) →
   result (list_exists v m) (perform c s) = result (list_exists v m) s ∧
   result (get_list_items v m) (perform c s) = result (get_list_items v m) s)
  ∧
  (¬ (v = call_user c ∧ Some m = call_list c) ∨
   (∃ i, call_item c = Some i ∧ i ≠ j) →
   result (item_exists v m j) (perform c s) = result (item_exists v m j) s ∧
   result (get_item_ratings v m j) (perform c s)
     = result (get_item_ratings v m j) s ∧
   result (get_average_rating v m j) (perform c s)
     = result (get_average_rating v m j) s).
Proof.
  split_and!.
  - apply perform_other_user.
  - intros [Hi Hl]%(perform_other_list c s). unfold result.
    by rewrite !list_exists_run, !get_list_items_run, Hi, Hl.
  - intros H.
    assert (Hj : items_at (ns (perform c s) v) m !! j = items_at (ns s v) m !! j).
    { destruct H as [[Hi _]%(perform_other_list c s)|(i & Hc & Hij)].
      - by rewrite Hi.
      - by apply (perform_other_item c s i). }
    unfold result.
    rewrite !item_exists_run, !get_item_ratings_run, !get_average_rating_run.
    cbn [fst]. by rewrite !has_item_alt, !ratings_of_alt, Hj.
Qed.

Lemma calls_are_local_witness :
  result (get_item_ratings (py "A") (py "Movies") (py "Dune"))
    (perform (DeleteList (py "A") (py "Books")) example_store)
  = result (get_item_ratings (py "A") (py "Movies") (py "Dune")) example_store ∧
  perform (ClearRatings (py "B") (py "Movies") (py "Dune")) example_store !! py "A"
  = example_store !! py "A".
Proof.
  split.
  - apply (proj2 (proj2 (calls_are_local (DeleteList (py "A") (py "Books"))
      example_store (py "A") (py "Movies") (py "Dune")))).
    left. intros [_ [=]].
  - apply (proj1 (calls_are_local (ClearRatings (py "B") (py "Movies") (py "Dune"))
      example_store (py "A") (py "Movies") (py "Dune"))).
    discriminate.
Defined.

(** *** Adding and deleting items, clearing ratings *)

Lemma has_list_alt_set s u l (X : Items) :
  has_list (<[u := <[l := X]> (ns s u)]> s) u l = true.
Proof.
  rewrite has_list_view, ns_lookup_set, decide_True by done.
  apply bool_decide_eq_true_2. eauto.
Qed.

Lemma has_item_put_ratings_same s u l i rs :
  has_item (put_ratings u l i rs s) u l i = true.
Proof.
  rewrite has_item_alt, items_at_put_ratings, decide_True by done.
  rewrite lookup_insert_eq. apply bool_decide_eq_true_2. eauto.
Qed.

Lemma item_exists_user s u l i : has_item s u l i = true → touch u s = s.
Proof. intros H. apply touch_present. eauto using has_list_user, has_item_list. Qed.

(** X1. [add_item(u,l,i)] makes the list [l] and the item [i] exist,
    creating the list when it is missing, and never changes any rating: an
    item that existed keeps its ratings (the store is then unchanged), a new
    item has none. *)
Theorem add_item_makes_item u l i s :
  result (add_item u l i) s = Ret tt ∧
  result (list_exists u l) (exec (add_item u l i) s) = Ret true ∧
  result (item_exists u l i) (exec (add_item u l i) s) = Ret true ∧
  result (get_item_ratings u l i) (exec (add_item u l i) s)
    = result (get_item_ratings u l i) s ∧
  (result (item_exists u l i) s = Ret true → exec (add_item u l i) s = s) ∧
  (result (item_exists u l i) s = Ret false →
   result (get_item_ratings u l i) (exec (add_item u l i) s) = Ret []).
Proof.
  assert (Hnew : has_item s u l i = false →
    ratings_of (put_ratings u l i [] s) u l i = ratings_of s u l i).
  { intros E. by rewrite ratings_of_put_ratings_eq, ratings_of_absent. }
  unfold result, exec. rewrite add_item_run. cbn [fst snd].
  rewrite !list_exists_run, !item_exists_run, !get_item_ratings_run. cbn [fst].
  destruct (has_item s u l i) eqn:E.
  - rewrite has_list_touch, has_item_touch, ratings_of_touch, E.
    rewrite (has_item_list s u l i E). split_and!; try done.
    intros _. by apply (item_exists_user s u l i).
  - rewrite has_item_put_ratings_same, Hnew by done.
    unfold put_ratings at 1. rewrite has_list_alt_set. split_and!; try done.
    intros _. by rewrite ratings_of_absent.
Qed.

Lemma add_item_makes_item_witness :
  exec (add_item (py "A") (py "Movies") (py "Dune")) example_store = example_store ∧
  result (get_item_ratings (py "A") (py "Books") (py "Emma"))
    (exec (add_item (py "A") (py "Books") (py "Emma")) example_store) = Ret [].
Proof.
  split.
  - apply (add_item_makes_item (py "A") (py "Movies") (py "Dune") example_store).
    vm_compute. reflexivity.
  - apply (add_item_makes_item (py "A") (py "Books") (py "Emma") example_store).
    vm_compute. reflexivity.
Defined.

(** X2. [delete_item(u,l,i)] returns what [item_exists(u,l,i)] returns.
    Afterwards the item does not exist and has no ratings, while the list
    [l] exists exactly if it did before: a list is kept when its last item
    is deleted. *)
Theorem delete_item_removes_item u l i s :
  result (delete_item u l i) s = result (item_exists u l i) s ∧
  result (item_exists u l i) (exec (delete_item u l i) s) = Ret false ∧
  result (get_item_ratings u l i) (exec (delete_item u l i) s) = Ret [] ∧
  result (list_exists u l) (exec (delete_item u l i) s)
    = result (list_exists u l) s.
Proof.
  unfold result, exec. rewrite delete_item_run.
  rewrite !list_exists_run, !item_exists_run, !get_item_ratings_run. cbn [fst].
  destruct (has_item s u l i) eqn:E; cbn [fst snd].
  - assert (Hgone : has_item
      (<[u := <[l := delete i (items_at (ns s u) l)]> (ns s u)]> s) u l i = false).
    { rewrite has_item_alt, items_at_set, decide_True by done.
      rewrite lookup_delete_eq. apply bool_decide_eq_false_2. by intros [? ?]. }
    rewrite Hgone, (ratings_of_absent _ _ _ _ Hgone), has_list_alt_set.
    by rewrite (has_item_list s u l i E).
  - by rewrite has_item_touch, has_list_touch, ratings_of_touch, E, ratings_of_absent.
Qed.

(** X3. [clear_ratings(u,l,i)] returns what [item_exists(u,l,i)] returns.
    Afterwards the item has no ratings, and it exists exactly if it did
    before: clearing keeps the item. *)
Theorem clear_ratings_keeps_item u l i s :
  result (clear_ratings u l i) s = result (item_exists u l i) s ∧
  result (get_item_ratings u l i) (exec (clear_ratings u l i) s) = Ret [] ∧
  result (item_exists u l i) (exec (clear_ratings u l i) s)
    = result (item_exists u l i) s ∧
  result (get_average_rating u l i) (exec (clear_ratings u l i) s) = Ret (PyInt 0).
Proof.
  unfold result, exec. rewrite clear_ratings_run.
  rewrite !item_exists_run, !get_item_ratings_run, !get_average_rating_run.
  cbn [fst].
  destruct (has_item s u l i) eqn:E; cbn [fst snd].
  - by rewrite has_item_put_ratings_same, ratings_of_put_ratings_eq.
  - by rewrite has_item_touch, ratings_of_touch, E, ratings_of_absent.
Qed.

(** *** The reading methods agree with each other *)

(** X4. [get_all_lists(u)] returns every list of [u] exactly once: a name is
    in the result exactly when [list_exists] is true for it; for a user
    never seen the result is empty.  (The order of the names is not
    modelled.) *)
Theorem get_all_lists_lists_each_once u s :
  ∃ names,
    result (get_all_lists u) s = Ret names ∧
    NoDup names ∧
    (∀ n, n ∈ names ↔ result (list_exists u n) s = Ret true) ∧
    (s !! u = None → names = []).
Proof.
  exists ((map_to_list (ns s u)).*1). split_and!.
  - unfold result. by rewrite get_all_lists_run.
  - apply NoDup_fst_map_to_list.
  - intros n. rewrite list_exists_result, has_list_true, list_elem_of_fmap. split.
    + intros ([n' its] & -> & H%elem_of_map_to_list). eauto.
    + intros [its H]. exists (n, its). split; [done|]. by apply elem_of_map_to_list.
  - intros H. by rewrite (ns_None s u H), map_to_list_empty.
Qed.

Lemma get_all_lists_lists_each_once_witness :
  ∃ names,
    result (get_all_lists (py "nobody")) example_store = Ret names ∧ names = [].
Proof.
  destruct (get_all_lists_lists_each_once (py "nobody") example_store)
    as (names & Hr & _ & _ & Hnone).
  exists names. split; [exact Hr|]. apply Hnone. vm_compute. reflexivity.
Defined.

(** X5. The mapping returned by [get_list_items(u,l)] holds exactly the
    items for which [item_exists] is true, each with the ratings that
    [get_item_ratings] returns. *)
Theorem get_list_items_agrees u l s :
  ∃ items : Items,
    result (get_list_items u l) s = Ret items ∧
    (∀ i, is_Some (items !! i) ↔ result (item_exists u l i) s = Ret true) ∧
    (∀ i rs, items !! i = Some rs → result (get_item_ratings u l i) s = Ret rs).
Proof.
  exists (items_at (ns s u) l). split_and!.
  - unfold result. by rewrite get_list_items_run.
  - intros i. by rewrite item_exists_result, has_item_alt, bool_decide_eq_true.
  - intros i rs H. rewrite get_item_ratings_result, ratings_of_alt. by rewrite H.
Qed.

Lemma get_list_items_agrees_witness :
  ∃ items : Items,
    result (get_list_items (py "A") (py "Movies")) example_store = Ret items ∧
    is_Some (items !! py "Dune").
Proof.
  destruct (get_list_items_agrees (py "A") (py "Movies") example_store)
    as (items & Hr & Hex & _).
  exists items. split; [exact Hr|]. apply Hex. vm_compute. reflexivity.
Defined.

(** *** No method raises *)

Lemma sum_Z_bounds (xs : list Z) :
  (∀ x, x ∈ xs → 0 ≤ x ≤ 10) → 0 ≤ sum_Z xs ≤ 10 * Z.of_nat (length xs).
Proof.
  induction xs as [|x xs IH]; intros H.
  - done.
  - rewrite sum_Z_cons. cbn [length].
    assert (0 ≤ x ≤ 10) by (apply H; left).
    assert (0 ≤ sum_Z xs ≤ 10 * Z.of_nat (length xs))
      by (apply IH; intros y Hy; apply H; by right).
    lia.
Qed.

Lemma average_in_range rs :
  (∀ r, r ∈ rs → 0 ≤ r.1 ≤ 10) →
  ∃ x, average rs = Ret x ∧ (0 <= number_value x <= 10)%Q ∧
       (x = PyInt 0 ∨ ∃ f, x = PyFloat f ∧ binary64 f).
Proof.
  intros H. destruct rs as [|r rs].
  { exists (PyInt 0). split; [done|]. split; [done|by left]. }
  rewrite average_quotient.
  assert (Hs : 0 ≤ sum_Z ((r :: rs).*1) ≤ 10 * Z.of_nat (length ((r :: rs).*1))).
  { apply sum_Z_bounds. intros x ([y c] & -> & Hy)%list_elem_of_fmap. by apply H. }
  rewrite length_fmap in Hs.
  assert (Hn : 0 < Z.of_nat (length (r :: rs))) by (cbn [length]; lia).
  destruct (true_divide_in_range _ _ 10 Hn ltac:(done) Hs) as (f & -> & Hb & Hv).
  exists (PyFloat f). split; [done|]. split; [exact Hv|]. right. eauto.
Qed.

(** X6. On every store and for every argument, each method of the store
    other than [get_average_rating] returns normally: the deletions are
    guarded, so no [KeyError] or [IndexError] comes out, also for an absent
    user, list or item and for a negative or too large rating index.
    [get_average_rating] returns normally for every item whose scores are
    between 0 and 10, so on every store whose scores are; the division it
    ends with can raise [OverflowError] on scores that no call of
    [add_rating] stores. *)
Theorem no_method_raises u l i (rating k : Z) comment s :
  returns (create_list u l) s ∧ returns (list_exists u l) s ∧
  returns (get_all_lists u) s ∧ returns (add_item u l i) s ∧
  returns (item_exists u l i) s ∧ returns (get_list_items u l) s ∧
  returns (add_rating u l i rating comment) s ∧
  returns (get_item_ratings u l i) s ∧
  returns (delete_list u l) s ∧ returns (delete_item u l i) s ∧
  returns (delete_rating u l i k) s ∧ returns (clear_ratings u l i) s ∧
  ((∀ r, r ∈ ratings_of s u l i → 0 ≤ r.1 ≤ 10) →
   returns (get_average_rating u l i) s) ∧
  (scores_in_range s → returns (get_average_rating u l i) s).
Proof.
  assert ((∀ r, r ∈ ratings_of s u l i → 0 ≤ r.1 ≤ 10) →
          returns (get_average_rating u l i) s) as Havg.
  { intros H. unfold returns. rewrite average_result.
    destruct (average_in_range _ H) as (x & -> & _). eauto. }
  unfold returns, result. split_and!.
  - rewrite create_list_run. eauto.
  - rewrite list_exists_run. eauto.
  - rewrite get_all_lists_run. eauto.
  - rewrite add_item_run. eauto.
  - rewrite item_exists_run. eauto.
  - rewrite get_list_items_run. eauto.
  - rewrite add_rating_run. eauto.
  - rewrite get_item_ratings_run. eauto.
  - rewrite delete_list_run. destruct (has_list s u l); eauto.
  - rewrite delete_item_run. destruct (has_item s u l i); eauto.
  - rewrite delete_rating_run. destruct (_ && _); eauto.
  - rewrite clear_ratings_run. destruct (has_item s u l i); eauto.
  - exact Havg.
  - intros H%scores_in_range_lists. apply Havg. intros r Hr.
    by apply (ratings_of_in_range s u l i).
Qed.

Lemma no_method_raises_witness :
  returns (get_average_rating (py "A") (py "Movies") (py "Dune")) example_store.
Proof.
  apply (proj2 (proj2 (proj2 (proj2 (proj2 (proj2 (proj2 (proj2 (proj2 (proj2
    (proj2 (proj2 (proj2 (no_method_raises (py "A") (py "Movies") (py "Dune")
       0 0 [] example_store)))))))))))))).
  apply scores_in_range_lists. apply perform_all_in_range.
  intros v m its H. unfold init, ns in H. by rewrite lookup_empty in H.
Defined.

(** *** Calls that undo each other, calls made twice *)

Lemma put_ratings_put u l i rs rs' s :
  put_ratings u l i rs (put_ratings u l i rs' s) = put_ratings u l i rs s.
Proof.
  unfold put_ratings at 1. rewrite items_at_put_ratings, decide_True by done.
  unfold put_ratings. rewrite ns_insert_eq.
  by rewrite !insert_insert_eq.
Qed.

Lemma touch_insert u (X : Lists) s : touch u (<[u := X]> s) = <[u := X]> s.
Proof. apply touch_present. rewrite lookup_insert_eq. eauto. Qed.

Lemma touch_put_ratings u l i rs s :
  touch u (put_ratings u l i rs s) = put_ratings u l i rs s.
Proof. apply touch_insert. Qed.

Lemma delete_last {A} (xs : list A) (x : A) : delete (length xs) (xs ++ [x]) = xs.
Proof.
  rewrite delete_take_drop, take_app_length.
  rewrite drop_ge by (rewrite length_app; cbn; lia). apply app_nil_r.
Qed.

(** X8. Deleting the rating that [add_rating] has just appended restores the
    store: after a rating accepted for an item that holds [n] ratings,
    [delete_rating] at index [n] returns true and leaves exactly the store
    from before the rating. *)
Theorem add_then_delete_rating_restores u l i rating comment s rs :
  result (item_exists u l i) s = Ret true →
  result (get_item_ratings u l i) s = Ret rs →
  0 ≤ rating ≤ 10 →
  delete_rating u l i (Z.of_nat (length rs))
    (exec (add_rating u l i rating comment) s) = (Ret true, s).
Proof.
  intros E%item_exists_result Hget Hr.
  rewrite get_item_ratings_result in Hget. injection Hget as Hrs.
  unfold exec. rewrite add_rating_run, E, (proj2 (valid_score_spec rating) Hr), Hrs.
  cbn [snd andb].
  rewrite delete_rating_run, has_item_put_ratings_same, ratings_of_put_ratings_eq.
  rewrite (proj2 (valid_index_spec _ _))
    by (rewrite length_app; cbn; lia).
  cbn [andb]. rewrite Nat2Z.id, delete_last, put_ratings_put.
  rewrite <- Hrs, put_ratings_current by done.
  by rewrite (item_exists_user s u l i E).
Qed.

Lemma add_then_delete_rating_restores_witness :
  delete_rating (py "A") (py "Movies") (py "Dune") 3
    (exec (add_rating (py "A") (py "Movies") (py "Dune") 10 (py "again"))
       example_store)
  = (Ret true, example_store).
Proof.
  apply (add_then_delete_rating_restores (py "A") (py "Movies") (py "Dune") 10
    (py "again") example_store [(3, py "a"); (5, py "b"); (9, py "c")]).
  - vm_compute. reflexivity.
  - vm_compute. reflexivity.
  - lia.
Defined.

(** X9. [delete_item] after [add_item] of a new item returns true; it
    restores the store exactly when the list existed before.  When
    [add_item] had to create the list, the list stays, empty: deleting the
    item does not delete the list made for it. *)
Theorem add_then_delete_item u l i s :
  result (item_exists u l i) s = Ret false →
  result (delete_item u l i) (exec (add_item u l i) s) = Ret true ∧
  (result (list_exists u l) s = Ret true →
   exec (delete_item u l i) (exec (add_item u l i) s) = s) ∧
  (result (list_exists u l) s = Ret false →
   result (list_exists u l) (exec (delete_item u l i) (exec (add_item u l i) s))
     = Ret true ∧
   result (get_list_items u l) (exec (delete_item u l i) (exec (add_item u l i) s))
     = Ret ∅).
Proof.
  intros E%item_exists_result.
  assert (Hi : items_at (ns s u) l !! i = None).
  { rewrite has_item_alt, bool_decide_eq_false in E. by apply eq_None_not_Some. }
  assert (exec (add_item u l i) s = put_ratings u l i [] s) as ->.
  { unfold exec. by rewrite add_item_run, E. }
  unfold result, exec. rewrite delete_item_run, has_item_put_ratings_same.
  cbn [fst snd]. rewrite items_at_put_ratings, decide_True by done.
  unfold put_ratings. rewrite ns_insert_eq, insert_insert_eq, insert_insert_eq.
  rewrite delete_insert_eq, (delete_id _ _ Hi).
  split_and!; [done| |].
  - intros (ls & its & Hu & Hl)%list_exists_result%has_list_lookup.
    unfold items_at. rewrite (ns_Some s u ls Hu), Hl. cbn.
    by rewrite (insert_id ls l its Hl), (insert_id s u ls Hu).
  - intros El%list_exists_result%has_list_false.
    rewrite list_exists_run, get_list_items_run. cbn [fst].
    rewrite has_list_alt_set, items_at_set, decide_True by done.
    unfold items_at. by rewrite El.
Qed.

Lemma add_then_delete_item_witness :
  exec (delete_item (py "A") (py "Movies") (py "Up"))
    (exec (add_item (py "A") (py "Movies") (py "Up")) example_store)
  = example_store ∧
  result (list_exists (py "A") (py "Books"))
    (exec (delete_item (py "A") (py "Books") (py "Emma"))
       (exec (add_item (py "A") (py "Books") (py "Emma")) example_store))
  = Ret true.
Proof.
  split.
  - apply (add_then_delete_item (py "A") (py "Movies") (py "Up") example_store).
    + vm_compute. reflexivity.
    + vm_compute. reflexivity.
  - apply (add_then_delete_item (py "A") (py "Books") (py "Emma") example_store).
    + vm_compute. reflexivity.
    + vm_compute. reflexivity.
Defined.

(** X11. Every call but [add_rating] and [delete_rating] can be made twice
    in a row without further effect: the second call leaves the store that
    the first one left. *)
Theorem second_call_changes_nothing (c : call) s :
  accumulates c = false → perform c (perform c s) = perform c s.
Proof.
  intros Hc.
  assert (Hdl : ∀ u l, has_list (<[u := delete l (ns s u)]> s) u l = false).
  { intros u l. rewrite has_list_view, ns_lookup_del, decide_True by done.
    apply bool_decide_eq_false_2. by intros [? ?]. }
  assert (Hdi : ∀ u l i, has_item
    (<[u := <[l := delete i (items_at (ns s u) l)]> (ns s u)]> s) u l i = false).
  { intros u l i. rewrite has_item_alt, items_at_set, decide_True by done.
    rewrite lookup_delete_eq. apply bool_decide_eq_false_2. by intros [? ?]. }
  rewrite (perform_shape c s). destruct c; try done; cbn [call_user];
    rewrite ?perform_shape; cbn [call_user]; rewrite ?touch_touch; try done.
  - destruct (has_list s u l) eqn:E.
    + by rewrite has_list_touch, E, touch_touch.
    + by rewrite has_list_alt_set, touch_insert.
  - destruct (has_item s u l i) eqn:E.
    + by rewrite has_item_touch, E, touch_touch.
    + by rewrite has_item_put_ratings_same, touch_put_ratings.
  - destruct (has_list s u l) eqn:E.
    + by rewrite Hdl, touch_insert.
    + by rewrite has_list_touch, E, touch_touch.
  - destruct (has_item s u l i) eqn:E.
    + by rewrite Hdi, touch_insert.
    + by rewrite has_item_touch, E, touch_touch.
  - destruct (has_item s u l i) eqn:E.
    + by rewrite has_item_put_ratings_same, put_ratings_put.
    + by rewrite has_item_touch, E, touch_touch.
Qed.

Lemma second_call_changes_nothing_witness :
  perform (ClearRatings (py "A") (py "Movies") (py "Dune"))
    (perform (ClearRatings (py "A") (py "Movies") (py "Dune")) example_store)
  = perform (ClearRatings (py "A") (py "Movies") (py "Dune")) example_store.
Proof.
  apply (second_call_changes_nothing
    (ClearRatings (py "A") (py "Movies") (py "Dune")) example_store).
  reflexivity.
Defined.

(** *** The ratings of an item, in order *)

(** X12. The ratings of an item are kept in the order in which they were
    given: after rating an existing item with each of [xs] in turn, its
    ratings are the ones it had, followed by those of [xs] whose score is
    between 0 and 10, in the same order; the others are dropped. *)
Theorem ratings_keep_insertion_order u l i (xs : list Rating) s rs :
  result (item_exists u l i) s = Ret true →
  result (get_item_ratings u l i) s = Ret rs →
  result (get_item_ratings u l i) (perform_all (rate_all u l i xs) s)
    = Ret (rs ++ filter (λ x : Rating, 0 ≤ x.1 ≤ 10) xs).
Proof.
  revert s rs. induction xs as [|x xs IH]; intros s rs E Hget.
  - cbn. by rewrite app_nil_r.
  - cbn [rate_all fmap list_fmap perform_all foldl].
    fold (rate_all u l i xs). fold (perform_all (rate_all u l i xs)).
    apply item_exists_result in E.
    rewrite get_item_ratings_result in Hget. injection Hget as Hrs.
    rewrite perform_shape, E, Hrs. cbn [andb].
    destruct (valid_score x.1) eqn:Ev.
    + rewrite filter_cons_True by (by apply valid_score_spec).
      rewrite (cons_middle x rs), (app_assoc rs [x]). apply IH.
      * apply item_exists_result, has_item_put_ratings_same.
      * rewrite get_item_ratings_result, ratings_of_put_ratings_eq.
        by destruct x.
    + rewrite filter_cons_False
        by (rewrite <- valid_score_spec; by rewrite Ev).
      apply IH.
      * apply item_exists_result. by rewrite has_item_touch.
      * by rewrite get_item_ratings_result, ratings_of_touch, Hrs.
Qed.

Lemma ratings_keep_insertion_order_witness :
  result (get_item_ratings (py "A") (py "Movies") (py "Dune"))
    (perform_all (rate_all (py "A") (py "Movies") (py "Dune")
       [(7, py "d"); (11, py "e"); (0, [])]) example_store)
  = Ret [(3, py "a"); (5, py "b"); (9, py "c"); (7, py "d"); (0, [])].
Proof.
  apply (ratings_keep_insertion_order (py "A") (py "Movies") (py "Dune")
    [(7, py "d"); (11, py "e"); (0, [])] example_store
    [(3, py "a"); (5, py "b"); (9, py "c")]).
  - vm_compute. reflexivity.
  - vm_compute. reflexivity.
Defined.

(** *** The average stays in range *)

(** X10. After any sequence of calls from the empty store,
    [get_average_rating] returns for every item, existing or not, and what
    it returns, the [int] 0 or a float of binary64, is a number between 0
    and 10. *)
Theorem average_always_in_range (cs : list call) u l i :
  ∃ x, result (get_average_rating u l i) (perform_all cs init) = Ret x ∧
       (0 <= number_value x <= 10)%Q ∧
       (x = PyInt 0 ∨ ∃ f, x = PyFloat f ∧ binary64 f).
Proof.
  rewrite average_result. apply average_in_range. intros r Hr.
  apply (ratings_of_in_range (perform_all cs init) u l i); [|done].
  apply perform_all_in_range.
  intros v m its H. unfold init, ns in H. by rewrite lookup_empty in H.
Qed.

(** ** The conversations *)

Lemma in_data_store_run {A} (m : St A) (c : Conv) :
  in_data_store m c =
    ((m (data_store c)).1,
     {| data_store := (m (data_store c)).2; out := out c; user_data := user_data c |}).
Proof. unfold in_data_store. by destruct (m (data_store c)). Qed.

Lemma then_with_same (c : Conv) : then_with c (data_store c) [] = c.
Proof. destruct c. unfold then_with. cbn. by rewrite app_nil_r. Qed.

(** *** Running a handler step by step *)

Lemma then_with_then_with (c : Conv) s s' acts acts' :
  then_with (then_with c s acts) s' acts' = then_with c s' (acts ++ acts').
Proof. unfold then_with. cbn. by rewrite app_assoc. Qed.

Lemma bind_act {A} (a : action) (k : Cv A) (c : Conv) :
  (act a ;;; k) c = k (then_with c (data_store c) [a]).
Proof. reflexivity. Qed.

Lemma bind_get {A} (k : UserData → Cv A) (c : Conv) :
  (d <- get_user_data ;; k d) c = k (user_data c) c.
Proof. reflexivity. Qed.

Lemma bind_store {A B} (m : St A) (k : A → Cv B) (c : Conv) (a : A) s' :
  m (data_store c) = (Ret a, s') →
  (x <- in_data_store m ;; k x) c = k a (then_with c s' []).
Proof.
  intros Hm. unfold bind. rewrite in_data_store_run, Hm. cbn [fst snd].
  unfold then_with. by rewrite app_nil_r.
Qed.

Lemma ret_then_with {A} (a : A) (c : Conv) s acts :
  ret a (then_with c s acts) = (Ret a, then_with c s acts).
Proof. reflexivity. Qed.

Lemma act_then_with (a : action) (c : Conv) s acts :
  act a (then_with c s acts) = (Ret tt, then_with c s (acts ++ [a])).
Proof. unfold act, then_with. cbn. by rewrite app_assoc. Qed.

Lemma bind_act_then_with {A} (a : action) (k : Cv A) (c : Conv) s acts :
  (act a ;;; k) (then_with c s acts) = k (then_with c s (acts ++ [a])).
Proof. unfold bind. by rewrite act_then_with. Qed.

Lemma bind_store_then_with {A B} (m : St A) (k : A → Cv B) (c : Conv) (a : A)
    s s' acts :
  m s = (Ret a, s') →
  (x <- in_data_store m ;; k x) (then_with c s acts) = k a (then_with c s' acts).
Proof.
  intros Hm. rewrite (bind_store m k (then_with c s acts) a s') by done.
  by rewrite then_with_then_with, app_nil_r.
Qed.

Lemma bind_get_then_with {A} (k : UserData → Cv A) (c : Conv) s acts :
  (d <- get_user_data ;; k d) (then_with c s acts)
  = k (user_data c) (then_with c s acts).
Proof. reflexivity. Qed.

Lemma method_pair {A} (m : St A) s (a : A) :
  result m s = Ret a → m s = (Ret a, exec m s).
Proof. unfold result, exec. destruct (m s) as [r s']. cbn. by intros ->. Qed.

Lemma delete_list_result u l s : result (delete_list u l) s = Ret (has_list s u l).
Proof. unfold result. rewrite delete_list_run. by destruct (has_list s u l). Qed.

Lemma delete_item_result u l i s :
  result (delete_item u l i) s = Ret (has_item s u l i).
Proof. unfold result. rewrite delete_item_run. by destruct (has_item s u l i). Qed.

Lemma clear_ratings_result u l i s :
  result (clear_ratings u l i) s = Ret (has_item s u l i).
Proof. unfold result. rewrite clear_ratings_run. by destruct (has_item s u l i). Qed.

Lemma delete_rating_result u l i k s :
  result (delete_rating u l i k) s
  = Ret (has_item s u l i && valid_index k (ratings_of s u l i)).
Proof. unfold result. rewrite delete_rating_run. by destruct (_ && _). Qed.

Lemma add_rating_result u l i rating comment s :
  result (add_rating u l i rating comment) s = Ret tt.
Proof. unfold result. by rewrite add_rating_run. Qed.

Lemma add_item_result u l i s : result (add_item u l i) s = Ret tt.
Proof. unfold result. by rewrite add_item_run. Qed.

Lemma execute_delete_list_run (q : CallbackQuery) (c : Conv) :
  ∃ acts, Flows.execute_delete_list q c =
    (Ret Flows.END, then_with c (after_execute_delete_list q c) acts).
Proof.
  unfold Flows.execute_delete_list, after_execute_delete_list. rewrite bind_act.
  destruct (bool_decide (data q = py "cancel_delete")); cbn [orb].
  { rewrite bind_act_then_with, ret_then_with. eauto. }
  rewrite bind_get_then_with.
  destruct (truthy (delete_list_name (user_data c))); cbn [negb].
  - rewrite (bind_store_then_with _ _ c _ _ _ _
      (method_pair _ _ _ (delete_list_result _ _ _))).
    destruct (has_list (data_store c) _ _);
      rewrite bind_act_then_with, ret_then_with; eauto.
  - rewrite bind_act_then_with, ret_then_with. eauto.
Qed.

Lemma execute_delete_item_run (q : CallbackQuery) (c : Conv) :
  ∃ acts, Flows.execute_delete_item q c =
    (Ret Flows.END, then_with c (after_execute_delete_item q c) acts).
Proof.
  unfold Flows.execute_delete_item, after_execute_delete_item. rewrite bind_act.
  destruct (bool_decide (data q = py "cancel_delete")); cbn [orb].
  { rewrite bind_act_then_with, ret_then_with. eauto. }
  rewrite bind_get_then_with.
  destruct (truthy (delete_item_list (user_data c))
            && truthy (delete_item_name (user_data c))); cbn [negb].
  - rewrite (bind_store_then_with _ _ c _ _ _ _
      (method_pair _ _ _ (delete_item_result _ _ _ _))).
    destruct (has_item (data_store c) _ _ _);
      rewrite bind_act_then_with, ret_then_with; eauto.
  - rewrite bind_act_then_with, ret_then_with. eauto.
Qed.

Lemma execute_clear_ratings_run (q : CallbackQuery) (c : Conv) :
  ∃ acts, Flows.execute_clear_ratings q c =
    (Ret Flows.END, then_with c (after_execute_clear_ratings q c) acts).
Proof.
  unfold Flows.execute_clear_ratings, after_execute_clear_ratings. rewrite bind_act.
  destruct (bool_decide (data q = py "cancel_clear")); cbn [orb].
  { rewrite bind_act_then_with, ret_then_with. eauto. }
  rewrite bind_get_then_with.
  destruct (truthy (clear_ratings_list (user_data c))
            && truthy (clear_ratings_item (user_data c))); cbn [negb].
  - rewrite (bind_store_then_with _ _ c _ _ _ _
      (method_pair _ _ _ (clear_ratings_result _ _ _ _))).
    destruct (has_item (data_store c) _ _ _);
      rewrite bind_act_then_with, ret_then_with; eauto.
  - rewrite bind_act_then_with, ret_then_with. eauto.
Qed.

Lemma execute_delete_rating_run (q : CallbackQuery) (c : Conv) :
  ∃ acts, Flows.execute_delete_rating q c =
    (Ret Flows.END, then_with c (after_execute_delete_rating q c) acts).
Proof.
  unfold Flows.execute_delete_rating, after_execute_delete_rating. rewrite bind_act.
  destruct (bool_decide (data q = py "cancel_delete")); cbn [orb].
  { rewrite bind_act_then_with, ret_then_with. eauto. }
  rewrite bind_get_then_with.
  destruct (truthy (delete_rating_list (user_data c))
            && truthy (delete_rating_item (user_data c)));
    cbn [negb]; [|rewrite bind_act_then_with, ret_then_with; by eauto].
  destruct (default false (delete_all_ratings (user_data c))).
  - rewrite (bind_store_then_with _ _ c _ _ _ _
      (method_pair _ _ _ (clear_ratings_result _ _ _ _))).
    destruct (has_item (data_store c) _ _ _);
      rewrite bind_act_then_with, ret_then_with; eauto.
  - destruct (delete_rating_index (user_data c)) as [k|];
      [|rewrite bind_act_then_with, ret_then_with; by eauto].
    rewrite (bind_store_then_with _ _ c _ _ _ _
      (method_pair _ _ _ (delete_rating_result _ _ _ _ _))).
    destruct (_ && _);
      rewrite bind_act_then_with, ret_then_with; eauto.
Qed.

(** X13. The four handlers that execute a deletion return [END] and leave
    [user_data] as it was, whatever button was pressed.  With their cancel
    button, or when [user_data] does not hold the names they need, they
    leave the store untouched; otherwise (any other button counts as the
    confirmation) the store is the one left by the one method they call,
    for the user who pressed the button and the names held in [user_data]:
    [delete_list], [delete_item], [clear_ratings], and for
    [execute_delete_rating] [clear_ratings] or [delete_rating]. *)
Theorem executing_handlers (q : CallbackQuery) (c : Conv) :
  (∃ acts, Flows.execute_delete_list q c =
     (Ret Flows.END, then_with c (after_execute_delete_list q c) acts))
  ∧
  (∃ acts, Flows.execute_delete_item q c =
     (Ret Flows.END, then_with c (after_execute_delete_item q c) acts))
  ∧
  (∃ acts, Flows.execute_clear_ratings q c =
     (Ret Flows.END, then_with c (after_execute_clear_ratings q c) acts))
  ∧
  (∃ acts, Flows.execute_delete_rating q c =
     (Ret Flows.END, then_with c (after_execute_delete_rating q c) acts)).
Proof.
  split_and!.
  - apply execute_delete_list_run.
  - apply execute_delete_item_run.
  - apply execute_clear_ratings_run.
  - apply execute_delete_rating_run.
Qed.


Lemma truthy_Some (o : option pystr) (n : pystr) : o = Some n → n ≠ [] → truthy o = true.
Proof. intros -> Hn. by destruct n. Qed.

Lemma exec_pair {S A} (m : M S A) (c : S) (r : res A) (c' : S) :
  m c = (r, c') → exec m c = c'.
Proof. unfold exec. by intros ->. Qed.

Lemma ratings_after_clear u l i s :
  ratings_of (exec (clear_ratings u l i) s) u l i = [].
Proof.
  unfold exec. rewrite clear_ratings_run. destruct (has_item s u l i) eqn:E; cbn [snd].
  - apply ratings_of_put_ratings_eq.
  - by rewrite ratings_of_touch, ratings_of_absent.
Qed.

(** X14. Once [user_data] holds the mark [delete_all_ratings], confirming in
    [execute_delete_rating] clears every rating of the item, whatever rating
    index [user_data] holds; and the handler leaves [user_data] as it was,
    so the mark is still set afterwards. *)
Theorem delete_all_mark_overrides_index (q : CallbackQuery) (c : Conv) l i :
  data q ≠ py "cancel_delete" →
  delete_rating_list (user_data c) = Some l → l ≠ [] →
  delete_rating_item (user_data c) = Some i → i ≠ [] →
  delete_all_ratings (user_data c) = Some true →
  data_store (exec (Flows.execute_delete_rating q) c)
    = exec (clear_ratings (str_of_int (user_id (from_user q))) l i) (data_store c) ∧
  result (get_item_ratings (str_of_int (user_id (from_user q))) l i)
    (data_store (exec (Flows.execute_delete_rating q) c)) = Ret [] ∧
  user_data (exec (Flows.execute_delete_rating q) c) = user_data c.
Proof.
  intros Hq Hl Hln Hi Hin Hall.
  destruct (execute_delete_rating_run q c) as [acts Hrun].
  rewrite (exec_pair _ _ _ _ Hrun). cbn [data_store user_data then_with].
  assert (after_execute_delete_rating q c
    = exec (clear_ratings (str_of_int (user_id (from_user q))) l i) (data_store c))
    as ->.
  { unfold after_execute_delete_rating.
    rewrite bool_decide_eq_false_2 by done.
    rewrite (truthy_Some _ l Hl Hln), (truthy_Some _ i Hi Hin), Hall, Hl, Hi. done. }
  split_and!; [done| |done].
  by rewrite get_item_ratings_result, ratings_after_clear.
Qed.

Lemma delete_all_mark_overrides_index_witness :
  result (get_item_ratings (py "7") (py "Movies") (py "Dune"))
    (data_store (exec (Flows.execute_delete_rating
       (sender_query (py "confirm_delete_rating"))) sender_conv))
  = Ret [].
Proof.
  apply (delete_all_mark_overrides_index
    (sender_query (py "confirm_delete_rating")) sender_conv
    (py "Movies") (py "Dune")).
  - discriminate.
  - reflexivity.
  - discriminate.
  - reflexivity.
  - discriminate.
  - reflexivity.
Defined.

(** *** Rating *)

Lemma rating_context_present (d : UserData) l i (r : Z) :
  rating_list d = Some l → l ≠ [] → rating_item d = Some i → i ≠ [] →
  temp_rating d = Some r →
  Flows.rating_context_missing d = false.
Proof.
  intros Hl Hln Hi Hin Hr. unfold Flows.rating_context_missing.
  rewrite (truthy_Some _ l Hl Hln), (truthy_Some _ i Hi Hin), Hr. done.
Qed.

Lemma bind_reply_then_with {A} (update : Update) (m : Message) (t : pystr)
    (k : Cv A) (c : Conv) s acts :
  message update = Some m →
  (reply update t [] ;;; k) (then_with c s acts)
  = k (then_with c s (acts ++ [Replied t []])).
Proof. intros Hm. unfold reply. rewrite Hm. apply bind_act_then_with. Qed.

Lemma then_with_start (c : Conv) : c = then_with c (data_store c) [].
Proof. by rewrite then_with_same. Qed.

(** X15. With the list, the item and the score held in [user_data],
    [add_rating_comment] and [skip_comment] call [add_rating] once (with the
    text of the message, or with no comment), reply "You rated ..." and
    return [END].  The reply is the same whether or not the store kept the
    rating: when the item does not exist (any more) or the score is outside
    0..10, the ratings are unchanged and the user is still told that the
    item was rated.  A score of 0 is treated like any other. *)
Theorem rating_is_reported_either_way (update : Update) (c : Conv) comment l i
    (r : Z) :
  message update = Some {| text := Some comment |} →
  rating_list (user_data c) = Some l → l ≠ [] →
  rating_item (user_data c) = Some i → i ≠ [] →
  temp_rating (user_data c) = Some r →
  let uid := str_of_int (user_id (effective_user update)) in
  Flows.add_rating_comment update c =
    (Ret Flows.END,
     then_with c (exec (add_rating uid l i r comment) (data_store c))
       [Replied (py "You rated '" ++ i ++ py "' a " ++ str_of_int r
                 ++ py "/10 with the comment:" ++ [10%N; 10%N; 34%N] ++ comment
                 ++ [34%N]) []]) ∧
  Flows.skip_comment update c =
    (Ret Flows.END,
     then_with c (exec (add_rating uid l i r []) (data_store c))
       [Replied (py "You rated '" ++ i ++ py "' a " ++ str_of_int r
                 ++ py "/10 without a comment.") []]) ∧
  (result (item_exists uid l i) (data_store c) = Ret false ∨ ¬ (0 ≤ r ≤ 10) →
   result (get_item_ratings uid l i)
     (exec (add_rating uid l i r comment) (data_store c))
   = result (get_item_ratings uid l i) (data_store c)).
Proof.
  intros Hm Hl Hln Hi Hin Hr uid.
  pose proof (rating_context_present _ l i r Hl Hln Hi Hin Hr) as Hctx.
  split_and!.
  - unfold Flows.add_rating_comment. rewrite Hm. cbn [text]. fold uid.
    rewrite bind_get, Hctx, Hl, Hi, Hr. cbn [default].
    rewrite (then_with_start c) at 1.
    rewrite (bind_store_then_with _ _ c _ _ _ _
      (method_pair _ _ _ (add_rating_result _ _ _ _ _ _))).
    by rewrite (bind_reply_then_with update _ _ _ _ _ _ Hm), ret_then_with.
  - unfold Flows.skip_comment. fold uid.
    rewrite bind_get, Hctx, Hl, Hi, Hr. cbn [default].
    rewrite (then_with_start c) at 1.
    rewrite (bind_store_then_with _ _ c _ _ _ _
      (method_pair _ _ _ (add_rating_result _ _ _ _ _ _))).
    by rewrite (bind_reply_then_with update _ _ _ _ _ _ Hm), ret_then_with.
  - intros H. rewrite !get_item_ratings_result. unfold exec.
    rewrite add_rating_run. cbn [snd].
    replace (has_item (data_store c) uid l i && valid_score r) with false.
    + by rewrite ratings_of_touch.
    + symmetry. destruct H as [E%item_exists_result|Hv].
      * by rewrite E.
      * apply andb_false_iff. right. apply not_true_is_false.
        by rewrite valid_score_spec.
Qed.

Lemma rating_is_reported_either_way_witness :
  Flows.skip_comment (sender_update (py "/skip")) sender_conv =
    (Ret Flows.END,
     then_with sender_conv
       (exec (add_rating (py "7") (py "Movies") (py "Dune") 0 []) sender_store)
       [Replied (py "You rated '" ++ py "Dune" ++ py "' a " ++ str_of_int 0
                 ++ py "/10 without a comment.") []]).
Proof.
  apply (rating_is_reported_either_way (sender_update (py "/skip")) sender_conv
    (py "/skip") (py "Movies") (py "Dune") 0).
  - reflexivity.
  - reflexivity.
  - discriminate.
  - reflexivity.
  - discriminate.
  - reflexivity.
Defined.

(** *** What the handlers do to the store *)

Lemma perform_all_app cs cs' s :
  perform_all (cs ++ cs') s = perform_all cs' (perform_all cs s).
Proof. unfold perform_all. apply foldl_app. Qed.

Lemma store_calls_ret {A} uid (a : A) : store_calls uid (ret a).
Proof. intros c. by exists []. Qed.

Lemma store_calls_raise {A} uid e : store_calls uid (@raise Conv A e).
Proof. intros c. by exists []. Qed.

Lemma store_calls_act uid a : store_calls uid (act a).
Proof. intros c. by exists []. Qed.

Lemma store_calls_get uid : store_calls uid get_user_data.
Proof. intros c. by exists []. Qed.

Lemma store_calls_set uid f : store_calls uid (set_user_data f).
Proof. intros c. by exists []. Qed.

Lemma store_calls_reply uid update t keyboard :
  store_calls uid (reply update t keyboard).
Proof. unfold reply. destruct (message update); [apply store_calls_act|apply store_calls_raise]. Qed.

Lemma store_calls_bind {A B} uid (m : Cv A) (k : A → Cv B) :
  store_calls uid m → (∀ a, store_calls uid (k a)) → store_calls uid (bind m k).
Proof.
  intros Hm Hk c. destruct (Hm c) as (cs & Hcs & Hu).
  unfold exec, bind in *. destruct (m c) as [[a|e] c1]; cbn [snd] in *.
  - destruct (Hk a c1) as (cs' & Hcs' & Hu'). exists (cs ++ cs'). split.
    + unfold exec in Hcs'. by rewrite Hcs', Hcs, perform_all_app.
    + by apply Forall_app.
  - by exists cs.
Qed.

(** A method of the store, called from a handler, is one call. *)
Lemma store_calls_method {A} uid (m : St A) (k : call) :
  call_user k = uid → (∀ s, exec m s = perform k s) →
  store_calls uid (in_data_store m).
Proof.
  intros Hu Hk c. exists [k]. split; [|by constructor].
  unfold exec at 1. rewrite in_data_store_run. cbn. apply Hk.
Qed.

Lemma store_calls_item_exists uid l i :
  store_calls uid (in_data_store (item_exists uid l i)).
Proof. by apply (store_calls_method uid _ (ItemExists uid l i)). Qed.

Lemma store_calls_add_item uid l i :
  store_calls uid (in_data_store (add_item uid l i)).
Proof. by apply (store_calls_method uid _ (AddItem uid l i)). Qed.

Lemma store_calls_add_rating uid l i rating comment :
  store_calls uid (in_data_store (add_rating uid l i rating comment)).
Proof. by apply (store_calls_method uid _ (AddRating uid l i rating comment)). Qed.

Lemma store_calls_get_all_lists uid :
  store_calls uid (in_data_store (get_all_lists uid)).
Proof. by apply (store_calls_method uid _ (GetAllLists uid)). Qed.

Lemma store_calls_get_item_ratings uid l i :
  store_calls uid (in_data_store (get_item_ratings uid l i)).
Proof. by apply (store_calls_method uid _ (GetItemRatings uid l i)). Qed.

Lemma store_calls_delete_list uid l :
  store_calls uid (in_data_store (delete_list uid l)).
Proof. by apply (store_calls_method uid _ (DeleteList uid l)). Qed.

Lemma store_calls_delete_item uid l i :
  store_calls uid (in_data_store (delete_item uid l i)).
Proof. by apply (store_calls_method uid _ (DeleteItem uid l i)). Qed.

Lemma store_calls_delete_rating uid l i k :
  store_calls uid (in_data_store (delete_rating uid l i k)).
Proof. by apply (store_calls_method uid _ (DeleteRating uid l i k)). Qed.

Lemma store_calls_clear_ratings uid l i :
  store_calls uid (in_data_store (clear_ratings uid l i)).
Proof. by apply (store_calls_method uid _ (ClearRatings uid l i)). Qed.

Ltac store_step :=
  first
    [ apply store_calls_ret | apply store_calls_raise | apply store_calls_act
    | apply store_calls_get | apply store_calls_set | apply store_calls_reply
    | apply store_calls_item_exists | apply store_calls_add_item
    | apply store_calls_add_rating | apply store_calls_get_all_lists
    | apply store_calls_get_item_ratings | apply store_calls_delete_list
    | apply store_calls_delete_item | apply store_calls_delete_rating
    | apply store_calls_clear_ratings
    | apply store_calls_bind; [|intros ?]
    | match goal with
      | |- store_calls _ (if ?b then _ else _) => destruct b
      | |- store_calls _ (match ?x with _ => _ end) => destruct x
      end ].

Lemma handle_store_calls (e : event) : store_calls (event_user e) (handle e).
Proof.
  destruct e; cbn [handle event_user];
    unfold Flows.cancel, Flows.add_item_to_list, Flows.add_rating_comment,
      Flows.skip_comment, Flows.delete_list_start, Flows.admin_required,
      Flows.confirm_delete_list,
      Flows.execute_delete_list, Flows.execute_delete_item,
      Flows.select_item_for_delete_rating, Flows.execute_delete_rating,
      Flows.execute_clear_ratings;
    lazy beta zeta; repeat store_step.
Qed.

Lemma perform_all_other_user cs s uid v :
  Forall (λ k : call, call_user k = uid) cs → v ≠ uid →
  perform_all cs s !! v = s !! v.
Proof.
  intros Hcs Hv. revert s. induction Hcs as [|k cs Hk _ IH]; intros s; [done|].
  cbn. fold (perform_all cs (perform k s)).
  rewrite IH. apply perform_other_user. by rewrite Hk.
Qed.

Lemma handle_in_range (e : event) (c : Conv) :
  lists_in_range (data_store c) → lists_in_range (data_store (exec (handle e) c)).
Proof.
  intros H. destruct (handle_store_calls e c) as (cs & -> & _).
  by apply perform_all_in_range.
Qed.

Lemma handle_other_user (e : event) (c : Conv) v :
  v ≠ event_user e → data_store (exec (handle e) c) !! v = data_store c !! v.
Proof.
  intros Hv. destruct (handle_store_calls e c) as (cs & -> & Hcs).
  by apply (perform_all_other_user cs _ (event_user e)).
Qed.

(** X16. Whatever handlers run, in whatever order, on whatever updates
    (with or without a message, with or without a text, from an
    administrator or not), button presses and [user_data], and whether they
    return or raise: the scores held in the store stay between 0 and 10 (no
    handler writes a rating except through [add_rating]), and the data of a
    user for whom none of the handlers ran is unchanged. *)
Theorem handlers_keep_the_store_sound (es : list event) (c : Conv) :
  (scores_in_range (data_store c) →
   scores_in_range (data_store (handle_all es c)))
  ∧
  (∀ v, (∀ e, e ∈ es → event_user e ≠ v) →
   data_store (handle_all es c) !! v = data_store c !! v).
Proof.
  split.
  - rewrite !scores_in_range_lists. revert c.
    induction es as [|e es IH]; intros c H; [done|].
    cbn. apply IH. by apply handle_in_range.
  - intros v. revert c. induction es as [|e es IH]; intros c H; [done|].
    cbn. fold (handle_all es (exec (handle e) c)). rewrite IH.
    + apply handle_other_user. intros Hv. apply (H e); [by left|done].
    + intros e' He'. apply H. by right.
Qed.

Lemma handlers_keep_the_store_sound_witness :
  scores_in_range
    (data_store (handle_all
       [ExecuteDeleteRating (sender_query (py "confirm_delete_rating"));
        SkipComment (sender_update (py "/skip"))]
       {| data_store := init; out := []; user_data := sender_user_data |})) ∧
  data_store (handle_all
    [ExecuteDeleteList (sender_query (py "confirm_delete_list"))] sender_conv)
    !! py "A"
  = sender_store !! py "A".
Proof.
  split.
  - apply (proj1 (handlers_keep_the_store_sound _ _)).
    intros u l i ls its rs r H. cbn in H. unfold init in H.
    by rewrite lookup_empty in H.
  - apply (proj2 (handlers_keep_the_store_sound
      [ExecuteDeleteList (sender_query (py "confirm_delete_list"))] sender_conv)).
    intros e ->%list_elem_of_singleton. discriminate.
Defined.

(** *** Adding an item from the chat *)

Lemma exec_item_exists u l i s : exec (item_exists u l i) s = touch u s.
Proof. unfold exec. by rewrite item_exists_run. Qed.

Lemma exec_add_item_touch u l i s :
  exec (add_item u l i) (touch u s) = exec (add_item u l i) s.
Proof.
  unfold exec. rewrite !add_item_run. cbn [snd].
  by rewrite has_item_touch, touch_touch, put_ratings_touch.
Qed.

(** X17. [add_item_to_list], on a message with the text [item]: when
    [user_data] holds no list it replies that something went wrong and ends;
    when the item is already in the list it leaves the store as it is and
    stays in the state [ADD_ITEM], asking for a different item; otherwise it
    calls [add_item] once and ends, and the item then exists with no
    rating. *)
Theorem add_item_to_list_adds_once (update : Update) (c : Conv) item :
  message update = Some {| text := Some item |} →
  let uid := str_of_int (user_id (effective_user update)) in
  let l := default [] (selected_list (user_data c)) in
  (truthy (selected_list (user_data c)) = false →
   Flows.add_item_to_list update c =
     (Ret Flows.END,
      then_with c (data_store c)
        [Replied (py "Something went wrong. Please try again with /additem") []]))
  ∧
  (truthy (selected_list (user_data c)) = true →
   result (item_exists uid l item) (data_store c) = Ret true →
   Flows.add_item_to_list update c =
     (Ret Flows.ADD_ITEM,
      then_with c (data_store c)
        [Replied (py "'" ++ item ++ py "' already exists in '" ++ l
                  ++ py "'. Please add a different item.") []]))
  ∧
  (truthy (selected_list (user_data c)) = true →
   result (item_exists uid l item) (data_store c) = Ret false →
   Flows.add_item_to_list update c =
     (Ret Flows.END,
      then_with c (exec (add_item uid l item) (data_store c))
        [Replied (py "Added '" ++ item ++ py "' to '" ++ l ++ py "'!"
                  ++ [10%N] ++ py "You can rate it with /rate") []]) ∧
   result (item_exists uid l item) (exec (add_item uid l item) (data_store c))
     = Ret true ∧
   result (get_item_ratings uid l item) (exec (add_item uid l item) (data_store c))
     = Ret []).
Proof.
  intros Hm uid l. split_and!.
  - intros Ht. unfold Flows.add_item_to_list. rewrite Hm. cbn [text].
    rewrite bind_get, Ht. cbn [negb].
    rewrite (then_with_start c) at 1.
    by rewrite (bind_reply_then_with update _ _ _ _ _ _ Hm), ret_then_with.
  - intros Ht E. unfold Flows.add_item_to_list. rewrite Hm. cbn [text].
    rewrite bind_get, Ht. cbn [negb]. fold uid l.
    rewrite (then_with_start c) at 1.
    rewrite (bind_store_then_with _ _ c _ _ _ _ (method_pair _ _ _ E)).
    rewrite (bind_reply_then_with update _ _ _ _ _ _ Hm), ret_then_with.
    rewrite exec_item_exists.
    apply item_exists_result in E. by rewrite (item_exists_user _ _ _ _ E).
  - intros Ht E. split_and!.
    + unfold Flows.add_item_to_list. rewrite Hm. cbn [text].
      rewrite bind_get, Ht. cbn [negb]. fold uid l.
      rewrite (then_with_start c) at 1.
      rewrite (bind_store_then_with _ _ c _ _ _ _ (method_pair _ _ _ E)).
      rewrite (bind_store_then_with _ _ c _ _ _ _
        (method_pair _ _ _ (add_item_result _ _ _ _))).
      rewrite (bind_reply_then_with update _ _ _ _ _ _ Hm), ret_then_with.
      by rewrite exec_item_exists, exec_add_item_touch.
    + apply item_exists_result. unfold exec. rewrite add_item_run. cbn [snd].
      apply item_exists_result in E. rewrite E. apply has_item_put_ratings_same.
    + rewrite get_item_ratings_result. unfold exec. rewrite add_item_run. cbn [snd].
      apply item_exists_result in E. rewrite E. by rewrite ratings_of_put_ratings_eq.
Qed.

Lemma add_item_to_list_adds_once_witness :
  Flows.add_item_to_list (sender_update (py "Dune")) sender_conv =
     (Ret Flows.ADD_ITEM,
      then_with sender_conv sender_store
        [Replied (py "'Dune' already exists in 'Movies'. Please add a different item.") []]) ∧
  result (item_exists (py "7") (py "Movies") (py "Up"))
    (exec (add_item (py "7") (py "Movies") (py "Up")) sender_store) = Ret true.
Proof.
  split.
  - apply (proj1 (proj2 (add_item_to_list_adds_once (sender_update (py "Dune"))
      sender_conv (py "Dune") eq_refl))).
    + reflexivity.
    + vm_compute. reflexivity.
  - apply (proj2 (proj2 (add_item_to_list_adds_once (sender_update (py "Up"))
      sender_conv (py "Up") eq_refl))).
    + reflexivity.
    + vm_compute. reflexivity.
Defined.

(** *** The name carried by a button *)

Lemma starts_with_app (p t : pystr) : starts_with p (p ++ t) = true.
Proof. induction p as [|a p IH]; cbn; [done|]. by rewrite N.eqb_refl, IH. Qed.

Lemma starts_with_true (p t : pystr) :
  starts_with p t = true → ∃ b : pystr, t = p ++ b.
Proof.
  revert t. induction p as [|a p IH]; intros t H; [by exists t|].
  destruct t as [|b t]; cbn in H; [done|].
  apply andb_true_iff in H as [->%N.eqb_eq Ht].
  destruct (IH _ Ht) as [b' ->]. by exists b'.
Qed.

Lemma replace_from_skip (old new a t : pystr) :
  replace_from old new (length a) (a ++ t) = replace_from old new 0 t.
Proof.
  induction a as [|x a IH]; cbn; [by destruct t|done].
Qed.

Lemma replace_prefix (p n : pystr) :
  p ≠ [] → replace p [] (p ++ n) = replace p [] n.
Proof.
  destruct p as [|x p]; [done|]. intros _. unfold replace.
  change ((x :: p) ++ n) with (x :: (p ++ n)).
  cbn [replace_from]. change (x :: (p ++ n)) with ((x :: p) ++ n).
  rewrite starts_with_app. cbn [app].
  replace (length (x :: p) - 1)%nat with (length p) by (cbn [length]; lia).
  apply replace_from_skip.
Qed.

Lemma replace_from_length (old t : pystr) (k : nat) :
  (length (replace_from old [] k t) ≤ length t)%nat.
Proof.
  revert k. induction t as [|c t IH]; intros k; [done|].
  cbn [replace_from]. destruct k as [|k].
  - destruct (starts_with old (c :: t)); cbn.
    + specialize (IH (length old - 1)%nat). lia.
    + specialize (IH 0%nat). lia.
  - specialize (IH k). cbn. lia.
Qed.

Lemma replace_from_absent (old t : pystr) :
  ¬ occurs old t → replace_from old [] 0 t = t.
Proof.
  induction t as [|c t IH]; intros H; [done|]. cbn [replace_from].
  destruct (starts_with old (c :: t)) eqn:E.
  - apply starts_with_true in E as [b E]. destruct H. by exists [], b.
  - f_equal. apply IH. intros (a & b & ->). apply H. by exists (c :: a), b.
Qed.

Lemma replace_from_present (old t : pystr) :
  old ≠ [] → occurs old t →
  (length (replace_from old [] 0 t) < length t)%nat.
Proof.
  intros Hne (a & b & ->). induction a as [|c a IH].
  - destruct old as [|x old]; [done|].
    change ([] ++ (x :: old) ++ b) with (x :: (old ++ b)).
    cbn [replace_from]. change (x :: (old ++ b)) with ((x :: old) ++ b).
    rewrite starts_with_app. cbn [app].
    pose proof (replace_from_length (x :: old) (old ++ b)
                  (length (x :: old) - 1)). cbn [length] in *. lia.
  - change ((c :: a) ++ old ++ b) with (c :: (a ++ old ++ b)).
    cbn [replace_from].
    destruct (starts_with old (c :: a ++ old ++ b)); cbn [app length].
    + pose proof (replace_from_length old (a ++ old ++ b) (length old - 1)). lia.
    + lia.
Qed.

Lemma replace_same_iff (p n : pystr) :
  p ≠ [] → replace p [] n = n ↔ ¬ occurs p n.
Proof.
  intros Hp. assert (replace p [] n = replace_from p [] 0 n) as ->
    by (unfold replace; by destruct p).
  split.
  - intros E Ho. pose proof (replace_from_present p n Hp Ho) as Hlt.
    rewrite E in Hlt. lia.
  - apply replace_from_absent.
Qed.

Lemma has_list_after_delete_other u l m s :
  l ≠ m → has_list (exec (delete_list u l) s) u m = has_list s u m.
Proof.
  intros Hne. unfold exec. rewrite delete_list_run.
  destruct (has_list s u l); cbn [snd]; [|apply has_list_touch].
  rewrite !has_list_view, ns_lookup_del, decide_False; [done|].
  intros [_ ?]. by apply Hne.
Qed.

Lemma handle_all_cons (e : event) (es : list event) (c : Conv) :
  handle_all (e :: es) c = handle_all es (exec (handle e) c).
Proof. reflexivity. Qed.

Lemma confirm_then_execute_delete_list (q1 q2 : CallbackQuery) (c : Conv) :
  data q2 ≠ py "cancel_delete" →
  let name := replace (py "delete_list_") [] (data q1) in
  let c' := handle_all [ConfirmDeleteList q1; ExecuteDeleteList q2] c in
  delete_list_name (user_data c') = Some name ∧
  data_store c' =
    match name with
    | [] => data_store c
    | _ => exec (delete_list (str_of_int (user_id (from_user q2))) name)
             (data_store c)
    end.
Proof.
  intros Hq2 name c'.
  set (c1 := exec (Flows.confirm_delete_list q1) c).
  assert (user_data c1 = Flows.set_delete_list_name name (user_data c)) as Hd
    by reflexivity.
  assert (data_store c1 = data_store c) as Hs by reflexivity.
  assert (c' = exec (Flows.execute_delete_list q2) c1) as Hc' by reflexivity.
  destruct (execute_delete_list_run q2 c1) as [acts Hrun].
  apply exec_pair in Hrun. rewrite <- Hc' in Hrun. rewrite Hrun.
  cbn [then_with user_data data_store]. split; [by rewrite Hd|].
  unfold after_execute_delete_list. rewrite Hd, Hs.
  rewrite bool_decide_eq_false_2 by done. cbn. by destruct name.
Qed.

(** X18. Deleting a list through the chat.  The button of the list [n] made
    by [delete_list_start] carries ["delete_list_" + n]; [confirm_delete_list]
    takes the name back with [replace], which removes every occurrence of
    ["delete_list_"], those inside the name as well.  After the button and
    then the confirmation, the name remembered is the name without these
    occurrences and [delete_list] was called once, on that name (not at all
    when nothing is left of the name).  The name is the one of the button
    exactly when ["delete_list_"] does not occur in it; a list in whose name
    it occurs is still there afterwards. *)
Theorem list_named_like_its_button_is_kept (q1 q2 : CallbackQuery) (c : Conv) n :
  data q1 = py "delete_list_" ++ n →
  data q2 ≠ py "cancel_delete" →
  let name := replace (py "delete_list_") [] n in
  let uid := str_of_int (user_id (from_user q2)) in
  let c' := handle_all [ConfirmDeleteList q1; ExecuteDeleteList q2] c in
  delete_list_name (user_data c') = Some name ∧
  data_store c' =
    match name with
    | [] => data_store c
    | _ => exec (delete_list uid name) (data_store c)
    end ∧
  (name = n ↔ ¬ occurs (py "delete_list_") n) ∧
  (occurs (py "delete_list_") n →
   has_list (data_store c) uid n = true → has_list (data_store c') uid n = true).
Proof.
  intros Hq1 Hq2 name uid c'.
  assert (py "delete_list_" ≠ []) as Hp by done.
  destruct (confirm_then_execute_delete_list q1 q2 c Hq2) as [Hname Hstore].
  rewrite Hq1, (replace_prefix _ n Hp) in Hname, Hstore.
  fold name uid c' in Hname, Hstore.
  pose proof (replace_same_iff (py "delete_list_") n Hp) as Hiff.
  fold name in Hiff.
  split_and!; [done..|].
  intros Ho Hn. rewrite Hstore. destruct name as [|x name'] eqn:En; [done|].
  rewrite has_list_after_delete_other; [done|].
  intros E. by apply Hiff in E.
Qed.

Lemma list_named_like_its_button_is_kept_witness :
  has_list
    (data_store
       (handle_all
          [ConfirmDeleteList (sender_query (py "delete_list_" ++ py "Mdelete_list_ovies"));
           ExecuteDeleteList (sender_query (py "confirm_delete_list"))]
          (then_with sender_conv
             (exec (create_list (py "7") (py "Mdelete_list_ovies")) sender_store) [])))
    (py "7") (py "Mdelete_list_ovies") = true.
Proof.
  apply (proj2 (proj2 (proj2 (list_named_like_its_button_is_kept
    (sender_query (py "delete_list_" ++ py "Mdelete_list_ovies"))
    (sender_query (py "confirm_delete_list"))
    (then_with sender_conv
       (exec (create_list (py "7") (py "Mdelete_list_ovies")) sender_store) [])
    (py "Mdelete_list_ovies") eq_refl ltac:(discriminate))))).
  - by exists (py "M"), (py "ovies").
  - vm_compute. reflexivity.
Defined.

Lemma get_all_lists_elem u s n :
  n ∈ (map_to_list (ns s u)).*1 ↔ has_list s u n = true.
Proof.
  rewrite has_list_true, list_elem_of_fmap. split.
  - intros ([n' its] & -> & H%elem_of_map_to_list). eauto.
  - intros [its H]. exists (n, its). split; [done|]. by apply elem_of_map_to_list.
Qed.

Lemma bind_reply_keyboard_then_with {A} (update : Update) (msg : Message)
    (t : pystr) (kb : Keyboard) (k : Cv A) (c : Conv) s acts :
  message update = Some msg →
  (reply update t kb ;;; k) (then_with c s acts)
  = k (then_with c s (acts ++ [Replied t kb])).
Proof. intros Hm. unfold reply. rewrite Hm. apply bind_act_then_with. Qed.

Lemma fmt_of_store (n : pystr) : n ≠ PyNone → fmt (of_store n) = n.
Proof. intros H. unfold of_store. by rewrite decide_False. Qed.

Lemma admin_required_admin (func : Update → CallbackContext → Cv Z) update context :
  Handlers.is_admin update context = true →
  Flows.admin_required func update context = func update context.
Proof. unfold Flows.admin_required. by intros ->. Qed.

Lemma admin_required_denied (func : Update → CallbackContext → Cv Z) update context
    (msg : Message) (command : pystr) (c : Conv) :
  Handlers.is_admin update context = false →
  message update = Some msg →
  Handlers.command_of update = Ret command →
  command ∈ Handlers.ADMIN_COMMANDS →
  Flows.admin_required func update context c
  = (Ret Flows.END, then_with c (data_store c) [Replied Handlers.denial []]).
Proof.
  intros Ha Hm Hc Hin. unfold Flows.admin_required. rewrite Ha, Hc. cbn [negb].
  rewrite bool_decide_eq_true_2 by done.
  rewrite (then_with_start c) at 1.
  by rewrite (bind_reply_then_with update _ _ _ _ _ _ Hm), ret_then_with.
Qed.

Lemma delete_list_start_run (update : Update) (context : CallbackContext)
    (c : Conv) (msg : Message) :
  message update = Some msg →
  Handlers.is_admin update context = true →
  let uid := str_of_int (user_id (effective_user update)) in
  let names := (map_to_list (ns (data_store c) uid)).*1 in
  Flows.delete_list_start update context c =
    match names with
    | [] =>
      (Ret Flows.END,
       then_with c (touch uid (data_store c))
         [Replied (py "You don't have any lists yet. Create one first with /newlist")
            []])
    | _ =>
      (Ret Flows.DELETE_LIST,
       then_with c (touch uid (data_store c))
         [Replied ([9888%N; 65039%N] ++ py " Choose a list to DELETE:")
            ((λ list_name : pystr,
                [(list_name, py "delete_list_" ++ fmt (of_store list_name))])
               <$> names)])
    end.
Proof.
  intros Hm Ha uid names. unfold Flows.delete_list_start.
  rewrite (admin_required_admin _ _ _ Ha). fold uid.
  rewrite (bind_store _ _ c _ _ (get_all_lists_run uid (data_store c))).
  fold names. destruct names;
    by rewrite (bind_reply_keyboard_then_with update _ _ _ _ _ _ _ Hm),
         ret_then_with.
Qed.

Lemma has_list_after_delete_same u l s :
  has_list (exec (delete_list u l) s) u l = false.
Proof.
  unfold exec. rewrite delete_list_run.
  destruct (has_list s u l) eqn:E; cbn [snd]; [|by rewrite has_list_touch].
  rewrite has_list_view, ns_lookup_del, decide_True by done.
  apply bool_decide_eq_false_2. by intros [? ?].
Qed.

(** X19. Deleting a list through the chat, for a name that is a string, not
    empty, in which ["delete_list_"] does not occur, and for a sender who is
    an administrator (as everyone is in a private chat).  When the user has
    the list [n], [delete_list_start] answers with a keyboard that has the
    button of [n], carrying ["delete_list_" + n]; after [delete_list_start],
    the button of [n] and the confirmation by the same user, the list [n] is
    gone and every other list of the user is there exactly when it was
    before.  For a sender who is not an administrator and whose message
    begins with one of the administrators' commands, [delete_list_start]
    only sends the denial and ends the conversation; the store is not
    touched. *)
Theorem chat_deletes_the_chosen_list (update : Update) (context : CallbackContext)
    (q1 q2 : CallbackQuery) (c : Conv) (msg : Message) n :
  message update = Some msg →
  user_id (from_user q2) = user_id (effective_user update) →
  data q1 = py "delete_list_" ++ n →
  data q2 ≠ py "cancel_delete" →
  n ≠ [] → n ≠ PyNone → ¬ occurs (py "delete_list_") n →
  let uid := str_of_int (user_id (effective_user update)) in
  has_list (data_store c) uid n = true →
  let c0 := exec (Flows.delete_list_start update context) c in
  let c' :=
    handle_all
      [DeleteListStart update context; ConfirmDeleteList q1; ExecuteDeleteList q2]
      c in
  (Handlers.is_admin update context = true →
   (∃ t kb, out c0 = out c ++ [Replied t kb] ∧
            [(n, py "delete_list_" ++ n)] ∈ kb) ∧
   has_list (data_store c') uid n = false ∧
   (∀ m, m ≠ n → has_list (data_store c') uid m = has_list (data_store c) uid m))
  ∧
  (Handlers.is_admin update context = false →
   ∀ command, Handlers.command_of update = Ret command →
     command ∈ Handlers.ADMIN_COMMANDS →
     Flows.delete_list_start update context c
     = (Ret Flows.END, then_with c (data_store c) [Replied Handlers.denial []])).
Proof.
  intros Hm Hu Hq1 Hq2 Hn Hstr Ho uid Hl c0 c'. split.
  2: { intros Ha command Hc Hin. unfold Flows.delete_list_start.
       by apply (admin_required_denied _ _ _ msg command). }
  intros Ha.
  assert (py "delete_list_" ≠ []) as Hp by done.
  pose proof (delete_list_start_run update context c msg Hm Ha) as Hrun.
  cbv zeta in Hrun. fold uid in Hrun.
  pose proof (proj2 (get_all_lists_elem uid (data_store c) n) Hl) as Hin.
  destruct ((map_to_list (ns (data_store c) uid)).*1) as [|n0 names] eqn:En;
    [by apply elem_of_nil in Hin|].
  apply exec_pair in Hrun. fold c0 in Hrun.
  assert (c' = handle_all [ConfirmDeleteList q1; ExecuteDeleteList q2] c0) as ->
    by reflexivity.
  destruct (confirm_then_execute_delete_list q1 q2 c0 Hq2) as [_ Hstore].
  rewrite Hq1, (replace_prefix _ n Hp) in Hstore.
  rewrite (proj2 (replace_same_iff _ n Hp) Ho) in Hstore.
  rewrite Hu in Hstore. fold uid in Hstore.
  destruct n as [|x n'] eqn:E; [done|]. rewrite <- E in *.
  assert (data_store c0 = touch uid (data_store c)) as Hs0 by by rewrite Hrun.
  rewrite Hstore, Hs0. split_and!.
  - rewrite Hrun. do 2 eexists. split; [reflexivity|].
    rewrite <- (fmt_of_store n Hstr) at 2.
    apply (list_elem_of_fmap_2
      (λ list_name : pystr,
         [(list_name, py "delete_list_" ++ fmt (of_store list_name))])). done.
  - apply has_list_after_delete_same.
  - intros m Hmn. rewrite has_list_after_delete_other by done.
    apply has_list_touch.
Qed.

Lemma chat_deletes_the_chosen_list_witness :
  has_list
    (data_store
       (handle_all
          [DeleteListStart (sender_update (py "/deletelist")) plain_member;
           ConfirmDeleteList (sender_query (py "delete_list_" ++ py "Movies"));
           ExecuteDeleteList (sender_query (py "confirm_delete_list"))]
          sender_conv))
    (py "7") (py "Movies") = false.
Proof.
  assert (¬ occurs (py "delete_list_") (py "Movies")) as Ho.
  { apply (replace_same_iff (py "delete_list_") (py "Movies")); [discriminate|].
    vm_compute. reflexivity. }
  apply (proj1 (proj2 (proj1 (chat_deletes_the_chosen_list
    (sender_update (py "/deletelist")) plain_member
    (sender_query (py "delete_list_" ++ py "Movies"))
    (sender_query (py "confirm_delete_list"))
    sender_conv {| text := Some (py "/deletelist") |} (py "Movies")
    eq_refl eq_refl eq_refl ltac:(discriminate) ltac:(discriminate)
    ltac:(discriminate) Ho
    ltac:(vm_compute; reflexivity)) ltac:(reflexivity)))).
Defined.

(** *** Choosing the rating to delete *)

(** X20. With a list held in [user_data], [select_item_for_delete_rating]
    remembers the item named by the button, returns [DELETE_RATING] and
    edits the message to a keyboard with one button for each rating of the
    item, in the order of the ratings, the button of the rating at position
    [k] carrying ["delete_rating_k"], and after them the button for all
    ratings.  No rating of the store is changed. *)
Theorem select_item_offers_each_rating (q : CallbackQuery) (c : Conv) l :
  delete_rating_list (user_data c) = Some l → l ≠ [] →
  let uid := str_of_int (user_id (from_user q)) in
  let item := replace (py "delete_rating_item_") [] (data q) in
  let rs := ratings_of (data_store c) uid l item in
  ∃ t kb,
    Flows.select_item_for_delete_rating q c =
      (Ret Flows.DELETE_RATING,
       {| data_store := touch uid (data_store c);
          out := out c ++ [Answered; Edited t kb];
          user_data := Flows.set_delete_rating_item item (user_data c) |}) ∧
    length kb = S (length rs) ∧
    (∀ (k : nat) r, rs !! k = Some r →
       kb !! k = Some [(Flows.display_text r,
                        py "delete_rating_" ++ str_of_int (Z.of_nat k))]) ∧
    kb !! length rs = Some [(py "Delete ALL ratings", py "delete_all_ratings")] ∧
    (∀ v m j, ratings_of (touch uid (data_store c)) v m j
              = ratings_of (data_store c) v m j).
Proof.
  intros Hl Hne uid item rs.
  unfold Flows.select_item_for_delete_rating. fold uid item.
  rewrite bind_act, bind_get_then_with, (truthy_Some _ l Hl Hne), Hl.
  cbn [negb default]. unfold id. unfold bind at 1. unfold set_user_data at 1.
  cbn [then_with data_store out user_data].
  unfold bind at 1. rewrite in_data_store_run, get_item_ratings_run.
  cbn [fst snd data_store out user_data]. fold rs.
  unfold bind, act. cbn [data_store out user_data ret].
  rewrite <- app_assoc. do 2 eexists. split; [reflexivity|].
  unfold Keyboard. split_and!.
  - rewrite length_app, length_imap. cbn [length]. by rewrite Nat.add_1_r.
  - intros k r Hk. rewrite lookup_app_l
      by (rewrite length_imap; by apply lookup_lt_Some in Hk).
    by rewrite list_lookup_imap, Hk.
  - rewrite lookup_app_r by (rewrite length_imap; lia).
    by rewrite length_imap, Nat.sub_diag.
  - intros v m j. apply ratings_of_touch.
Qed.

Lemma select_item_offers_each_rating_witness :
  ∃ t kb,
    out (exec (Flows.select_item_for_delete_rating
                 (sender_query (py "delete_rating_item_Dune"))) sender_conv)
      = [Answered; Edited t kb] ∧
    length kb = 3%nat.
Proof.
  destruct (select_item_offers_each_rating
    (sender_query (py "delete_rating_item_Dune")) sender_conv (py "Movies")
    eq_refl ltac:(discriminate)) as (t & kb & Hrun & Hlen & _).
  exists t, kb. split.
  - exact (f_equal (λ x, out (snd x)) Hrun).
  - exact Hlen.
Defined.

(** X21. The comment shown on the button of a rating has at most 20
    characters; it is the comment itself exactly when the comment has at
    most 20 characters, and begins with the first 17 characters of the
    comment in every case. *)
Theorem rating_button_comment_is_short comment :
  (length (Flows.display_comment comment) ≤ 20)%nat ∧
  (Flows.display_comment comment = comment ↔ (length comment ≤ 20)%nat) ∧
  take 17 (Flows.display_comment comment) = take 17 comment.
Proof.
  unfold Flows.display_comment.
  assert (length (py "...") = 3%nat) as Hdots by (vm_compute; reflexivity).
  destruct (length comment <=? 20)%nat eqn:E.
  - apply Nat.leb_le in E. done.
  - apply Nat.leb_gt in E. split_and!.
    + rewrite length_app, length_take, Hdots. lia.
    + split; [|lia]. intros H%(f_equal length).
      rewrite length_app, length_take, Hdots in H. lia.
    + rewrite take_app_le by (rewrite length_take; lia).
      rewrite take_take. by rewrite Nat.min_id.
Qed.

(** *** Texts at the gate that the five commands do not cover *)

Lemma split_from_one_word (word t : pystr) :
  forallb (λ c, negb (isspace c)) t = true → word ++ t ≠ [] →
  split_from word t = [word ++ t].
Proof.
  revert word. induction t as [|c t IH]; intros word Ht Hne.
  - rewrite app_nil_r in *. by destruct word.
  - cbn [forallb] in Ht. apply andb_true_iff in Ht as [Hc Ht].
    cbn [split_from]. apply negb_true_iff in Hc. rewrite Hc.
    rewrite (cons_middle c word t), app_assoc.
    apply IH; [done|]. by destruct word.
Qed.

Lemma admin_commands_one_word (command : pystr) :
  command ∈ Handlers.ADMIN_COMMANDS →
  forallb (λ c, negb (isspace c)) command = true ∧ 64%N ∉ command.
Proof.
  unfold Handlers.ADMIN_COMMANDS. rewrite !elem_of_cons, elem_of_nil.
  intros [->|[->|[->|[->|[->|[]]]]]];
    (split; [vm_compute; reflexivity|]);
    apply (bool_decide_unpack _); vm_compute; exact I.
Qed.

(** X22. A text of white space alone.  [admin_required] reads the first
    word of the text only for a sender who is not an administrator: for
    such a sender the wrapper raises [IndexError], sends nothing and does
    not call the wrapped handler; for an administrator, and so in every
    private chat, the wrapped handler is called as if it were not
    wrapped. *)
Theorem blank_text_at_the_gate (func : handler) (update : Update)
    (context : CallbackContext) (t : pystr) :
  message update = Some {| text := Some t |} →
  t ≠ [] → forallb isspace t = true →
  (Handlers.is_admin update context = false →
   ∀ w : World, Handlers.admin_required func update context w = (Raise IndexError, w))
  ∧
  (Handlers.is_admin update context = true →
   Handlers.admin_required func update context = func update context)
  ∧
  (chat_type (effective_chat update) = py "private" →
   Handlers.admin_required func update context = func update context).
Proof.
  intros Hm Hne Hblank.
  assert (Handlers.is_admin update context = true →
          Handlers.admin_required func update context = func update context) as Hadm.
  { intros Ha. unfold Handlers.admin_required. by rewrite Ha. }
  split_and!; [|done|].
  - intros Ha w. rewrite admin_required_non_admin by done.
    unfold Handlers.command_of. rewrite Hm. cbn [text].
    destruct t as [|c t']; [done|].
    unfold split. by rewrite (split_from_blank _ Hblank).
  - intros Hp. apply Hadm. unfold Handlers.is_admin.
    by rewrite bool_decide_eq_true_2.
Qed.

Lemma blank_text_at_the_gate_witness :
  Handlers.admin_required Handlers.create_list (group_update (py " "))
    plain_member {| store := init; sent := [] |}
  = (Raise IndexError, {| store := init; sent := [] |}).
Proof.
  apply (proj1 (blank_text_at_the_gate Handlers.create_list
    (group_update (py " ")) plain_member (py " ") eq_refl
    ltac:(discriminate) ltac:(vm_compute; reflexivity))).
  vm_compute. reflexivity.
Defined.

(** X23. A command written with the name of a bot after it, as
    ['/deletelist@name'], is one word that is none of the five words of
    [ADMIN_COMMANDS]: for a sender who is not an administrator the wrapper
    made by [admin_required] sends no denial and does what the wrapped
    handler does. *)
Theorem addressed_command_passes_the_gate (func : handler) (update : Update)
    (context : CallbackContext) (command bot : pystr) :
  Handlers.is_admin update context = false →
  command ∈ Handlers.ADMIN_COMMANDS →
  forallb (λ c, negb (isspace c)) bot = true →
  message update = Some {| text := Some (command ++ py "@" ++ bot) |} →
  Handlers.command_of update = Ret (command ++ py "@" ++ bot) ∧
  Handlers.admin_required func update context = func update context.
Proof.
  intros Ha Hc Hbot Hm.
  destruct (admin_commands_one_word command Hc) as [Hword _].
  assert (split (command ++ py "@" ++ bot) = [command ++ py "@" ++ bot]) as Hs.
  { unfold split. rewrite (split_from_one_word [] (command ++ py "@" ++ bot)).
    - done.
    - rewrite !forallb_app, Hword, Hbot. reflexivity.
    - cbn [app]. intros [_ [E _]%app_eq_nil]%app_eq_nil.
      vm_compute in E. discriminate. }
  pose proof (command_of_first_word update _ _ _ Hm Hs) as Hcmd.
  split; [done|].
  rewrite admin_required_non_admin, Hcmd by done.
  rewrite bool_decide_eq_false_2; [done|].
  intros Hin. apply admin_commands_one_word in Hin as [_ Hat].
  apply Hat. rewrite !elem_of_app. right. left. apply list_elem_of_singleton.
  reflexivity.
Qed.

Lemma addressed_command_passes_the_gate_witness :
  Handlers.admin_required Handlers.create_list
    (group_update (py "/deletelist" ++ py "@" ++ py "ItemRankBot")) plain_member
  = Handlers.create_list
      (group_update (py "/deletelist" ++ py "@" ++ py "ItemRankBot")) plain_member.
Proof.
  assert (py "/deletelist" ∈ Handlers.ADMIN_COMMANDS) as Hc by (right; left).
  exact (proj2 (addressed_command_passes_the_gate Handlers.create_list
    (group_update (py "/deletelist" ++ py "@" ++ py "ItemRankBot")) plain_member
    (py "/deletelist") (py "ItemRankBot")
    ltac:(vm_compute; reflexivity) Hc ltac:(vm_compute; reflexivity) eq_refl)).
Defined.
